(** * Hyrcania: olive-oil spectroscopy domain models, loaders and quality scoring

    A shallow embedding of the Python package [hyrcania]:
    - [domain/models/quality.py]   : [QualityMetrics], [QualityThreshold],
      [SpectralQualityAssessment];
    - [domain/models/spectrum.py]  : [SpectralData], [Spectrum];
    - [domain/models/measurement.py]: [AgingStep], [Measurement],
      [ExperimentSession];
    - [infrastructure/data_sources/base.py], [fluorescence.py],
      [absorption.py], [factory.py].

    Python [float] is IEEE-754 binary64; it is modelled by Rocq's primitive
    [float], which is the same format with the same correctly rounded
    operations.  Python [str] is modelled by [string], a [dict] by stdpp's
    [gmap], a raised exception by the [Raise] constructor of [result].
    Real numbers appear only in the proofs about rounding. *)

From Stdlib Require Import Floats ZArith List String Ascii Bool Lia Reals Lra.
From stdpp Require Import base option list gmap strings pretty.

Set Warnings "-inexact-float".

(** ** Python values shared by the modules *)

Module Py.

(** Exceptions the modelled code raises or catches. *)
Inductive exn : Type :=
| ValueError (msg : string)
| IndexError (msg : string).

(** The outcome of a call: a value, or a raised exception. *)
Inductive result (A : Type) : Type :=
| Ok (a : A)
| Raise (e : exn).
Arguments Ok {A} a.
Arguments Raise {A} e.

Definition is_ok {A} (r : result A) : bool :=
  match r with Ok _ => true | Raise _ => false end.

Definition bind {A B} (r : result A) (k : A -> result B) : result B :=
  match r with Ok a => k a | Raise e => Raise e end.

(** [max(a, b)] on two arguments: the first one is kept unless the second
    compares strictly greater (so a NaN second argument is never chosen). *)
Definition max (a b : float) : float :=
  if PrimFloat.ltb a b then b else a.

(** [sum(xs)]: the items are added to the start value [0] one after the
    other, each addition rounded.  (From CPython 3.12 on, [sum] also
    carries a compensation term for float items; that variant is not
    modelled.) *)
Definition sum (xs : list float) : float :=
  fold_left PrimFloat.add xs 0%float.

(** [len(xs)] where it is used as a divisor: the integer length converted
    to binary64 by the division. *)
Definition len {A} (xs : list A) : float :=
  PrimFloat.of_uint63 (Uint63.of_Z (Z.of_nat (List.length xs))).

(** [xs.append(x)], on an immutable list. *)
Definition append {A} (xs : list A) (x : A) : list A := xs ++ [x].

(** [x >= y] on floats. *)
Definition geb (x y : float) : bool := PrimFloat.leb y x.

(** *** [str] operations

    A [str] read with [encoding='latin-1'] holds code points 0..255, which
    is what [string] holds. *)

(** [s.startswith(p)]. *)
Fixpoint startswith (p s : string) : bool :=
  match p, s with
  | EmptyString, _ => true
  | String _ _, EmptyString => false
  | String a p', String b s' => Ascii.eqb a b && startswith p' s'
  end.

(** [sub in s]. *)
Fixpoint contains (sub s : string) : bool :=
  startswith sub s ||
  match s with
  | EmptyString => false
  | String _ s' => contains sub s'
  end.

(** [s[n:]]. *)
Fixpoint drop (n : nat) (s : string) : string :=
  match n, s with
  | O, _ => s
  | S _, EmptyString => EmptyString
  | S n', String _ s' => drop n' s'
  end.

(** [s.partition(sep)] when [sep] occurs in [s]: the text before its first
    occurrence and the text after it; [None] when it does not occur. *)
Fixpoint partition (sep s : string) : option (string * string) :=
  if startswith sep s then Some (EmptyString, drop (String.length sep) s)
  else
    match s with
    | EmptyString => None
    | String c s' =>
        match partition sep s' with
        | Some (before, after) => Some (String c before, after)
        | None => None
        end
    end.

(** The loop of [s.split(sep)]: cut at the first occurrence and go on in
    the text after it.  [fuel] bounds the number of cuts; the length of
    [s] is always enough when [sep] is not empty ([split_fuel_enough]). *)
Fixpoint split_fuel (fuel : nat) (sep s : string) : list string :=
  match partition sep s with
  | None => [s]
  | Some (before, after) =>
      before :: match fuel with
                | O => [after]
                | S fuel' => split_fuel fuel' sep after
                end
  end.

(** [s.split(sep)]; an empty separator is a [ValueError]. *)
Definition split (s sep : string) : result (list string) :=
  match sep with
  | EmptyString => Raise (ValueError "empty separator")
  | String _ _ => Ok (split_fuel (String.length s) sep s)
  end.

(** [xs[i]]. *)
Definition index {A} (xs : list A) (i : nat) : result A :=
  match xs !! i with
  | Some x => Ok x
  | None => Raise (IndexError "list index out of range")
  end.

(** *** [float(s)] for a [str]

    The builtin accepts, between optional white space, an optional sign
    followed by [inf], [infinity] or [nan] in any case, or by a decimal
    number [digitpart ["." [digitpart]] | "." digitpart] with an optional
    exponent [("e"|"E") [sign] digitpart], where
    [digitpart = digit (["_"] digit)*].  The value is the binary64 number
    nearest to the decimal one (ties to even); anything else is a
    [ValueError], modelled by [None]. *)

(** The white space that [float] strips: the builtin first replaces the
    white space beyond ASCII (U+0085 and U+00A0 among the code points
    0..255) by a space, and then skips the ASCII white space, which is the
    tab, the line feed, the vertical tab, the form feed, the carriage
    return (9..13) and the space (32).  The separators U+001C..U+001F,
    white space for [str.strip], are not white space here. *)
Definition is_space (c : ascii) : bool :=
  let n := N_of_ascii c in
  ((9 <=? n) && (n <=? 13) || (n =? 32) || (n =? 133) || (n =? 160))%N.

Definition digit_of (c : ascii) : option Z :=
  let n := N_of_ascii c in
  if ((48 <=? n) && (n <=? 57))%N then Some (Z.of_N n - 48)%Z else None.

Definition to_lower (c : ascii) : ascii :=
  let n := N_of_ascii c in
  if ((65 <=? n) && (n <=? 90))%N then ascii_of_N (n + 32) else c.

Fixpoint lstrip (l : list ascii) : list ascii :=
  match l with
  | c :: l' => if is_space c then lstrip l' else l
  | [] => []
  end.

Definition strip (l : list ascii) : list ascii :=
  rev (lstrip (rev (lstrip l))).

(** The rest of a [digitpart] after a digit: the value read so far, the
    number of digits read so far, and the text still to read. *)
Fixpoint digitpart_rest (l : list ascii) (val : Z) (n : nat)
  : Z * nat * list ascii :=
  match l with
  | [] => (val, n, [])
  | c :: l' =>
      match digit_of c with
      | Some d => digitpart_rest l' (val * 10 + d)%Z (S n)
      | None =>
          if Ascii.eqb c "_" then
            match l' with
            | c2 :: l'' =>
                match digit_of c2 with
                | Some d => digitpart_rest l'' (val * 10 + d)%Z (S n)
                | None => (val, n, l)
                end
            | [] => (val, n, l)
            end
          else (val, n, l)
      end
  end.

(** A [digitpart] read after the digits of value [val]: it must start with
    a digit. *)
Definition digitpart (val : Z) (l : list ascii) : option (Z * nat * list ascii) :=
  match l with
  | c :: l' =>
      match digit_of c with
      | Some d => Some (digitpart_rest l' (val * 10 + d)%Z 1)
      | None => None
      end
  | [] => None
  end.

(** [number]: the decimal digits as an integer [m] and the power of ten
    [k] they are scaled by (minus the number of fraction digits). *)
Definition number (l : list ascii) : option (Z * Z * list ascii) :=
  match digitpart 0 l with
  | Some (i, _, rest) =>
      match rest with
      | c :: rest' =>
          if Ascii.eqb c "." then
            match digitpart i rest' with
            | Some (m, nf, rest'') => Some (m, (- Z.of_nat nf)%Z, rest'')
            | None => Some (i, 0%Z, rest')
            end
          else Some (i, 0%Z, rest)
      | [] => Some (i, 0%Z, [])
      end
  | None =>
      match l with
      | c :: rest =>
          if Ascii.eqb c "." then
            match digitpart 0 rest with
            | Some (m, nf, rest') => Some (m, (- Z.of_nat nf)%Z, rest')
            | None => None
            end
          else None
      | [] => None
      end
  end.

Definition sign (l : list ascii) : bool * list ascii :=
  match l with
  | c :: l' =>
      if Ascii.eqb c "-" then (true, l')
      else if Ascii.eqb c "+" then (false, l')
      else (false, l)
  | [] => (false, [])
  end.

(** The binary64 number nearest to [(-1)^neg * m * 10^k], for [0 <= m]. *)
Definition decimal (neg : bool) (m k : Z) : float :=
  SF2Prim
    match m with
    | Zpos p =>
        if (0 <=? k)%Z then binary_round prec emax neg (p * Z.to_pos (10 ^ k)) 0
        else
          let '(q, e, l) := SFdiv_core_binary prec emax m 0 (10 ^ (- k)) 0 in
          binary_round_aux prec emax neg q e l
    | _ => S754_zero neg
    end.

Definition float_of_str (s : string) : option float :=
  let l := strip (list_ascii_of_string s) in
  let '(neg, l) := sign l in
  let low := string_of_list_ascii (map to_lower l) in
  if String.eqb low "inf" || String.eqb low "infinity" then
    Some (if neg then neg_infinity else infinity)
  else if String.eqb low "nan" then Some nan
  else
    match number l with
    | Some (m, k, []) => Some (decimal neg m k)
    | Some (m, k, c :: rest) =>
        if Ascii.eqb (to_lower c) "e" then
          let '(eneg, rest) := sign rest in
          match digitpart 0 rest with
          | Some (e, _, []) => Some (decimal neg m (k + (if eneg then - e else e)))
          | _ => None
          end
        else None
    | None => None
    end.

(** *** [repr(s)] for a [str] of code points 0..255

    The text is put between single quotes, or between double quotes when
    it holds a single quote and no double quote.  The quote in use and the
    backslash get a backslash before them; the tab, the line feed and the
    carriage return are written [\t], [\n] and [\r]; a code point that
    is not printable is written [\x] and its two hexadecimal digits; the
    printable ones are 32..126 and 161..255 but 173. *)

Definition squote : ascii := "039"%char.
Definition dquote : ascii := "034"%char.
Definition backslash : ascii := "092"%char.

Definition hexdigit (n : N) : ascii :=
  if (n <? 10)%N then ascii_of_N (48 + n) else ascii_of_N (87 + n).

Definition isprintable (c : ascii) : bool :=
  let n := N_of_ascii c in
  ((32 <=? n) && (n <=? 126) || (161 <=? n) && negb (n =? 173))%N.

Definition repr_char (quote c : ascii) : string :=
  let n := N_of_ascii c in
  if Ascii.eqb c quote || Ascii.eqb c backslash then String backslash (String c EmptyString)
  else if (n =? 9)%N then String backslash "t"
  else if (n =? 10)%N then String backslash "n"
  else if (n =? 13)%N then String backslash "r"
  else if isprintable c then String c EmptyString
  else String backslash
         (String "x" (String (hexdigit (n / 16)) (String (hexdigit (n mod 16)) EmptyString))).

Definition repr (s : string) : string :=
  let quote :=
    if contains (String squote EmptyString) s && negb (contains (String dquote EmptyString) s)
    then dquote else squote in
  String quote
    (String.concat EmptyString (map (repr_char quote) (list_ascii_of_string s))
     ++ String quote EmptyString)%string.

(** [float(s)] as a call that can raise; the message shows [repr(s)]. *)
Definition float_ (s : string) : result float :=
  match float_of_str s with
  | Some x => Ok x
  | None => Raise (ValueError ("could not convert string to float: " ++ repr s)%string)
  end.

(** *** Values of the metadata

    A value of a [Dict[str, Any]] of metadata: the code stores text and
    integers. *)
Inductive Any : Type :=
| AnyStr (s : string)
| AnyInt (n : nat).

(** [str(i)] inside an f-string, for an index [i]: its decimal numeral. *)
Definition str_of_nat (i : nat) : string := pretty i.

End Py.

(** ** What the code reads of [pathlib] and of [numpy] *)

Module Pathlib.

(** A [Path] is read in three ways, [str(p)], [p.name] and [p.stem]; it is
    carried as these three texts, and nothing is assumed on how they are
    related. *)
Record Path : Type := { str : string; name : string; stem : string }.

End Pathlib.

Module Numpy.
Import Py.
Local Open Scope float_scope.

(** [np.minimum] and [np.maximum] on two numbers: the first one is kept
    when it is a NaN or compares before the second one. *)
Definition minimum (a b : float) : float :=
  if (a <=? b) || PrimFloat.is_nan a then a else b.

Definition maximum (a b : float) : float :=
  if (b <=? a) || PrimFloat.is_nan a then a else b.

(** [a.min()] and [a.max()] on a one-dimensional array: the reduction of
    the array, which has no value on an empty array (a [ValueError]) and
    is a NaN as soon as an item is one.  The items are taken from left to
    right; another order gives the same number, up to the sign of a
    zero. *)
Definition amin (a : list float) : result float :=
  match a with
  | [] => Raise (ValueError "zero-size array to reduction operation minimum which has no identity")
  | x :: a' => Ok (fold_left minimum a' x)
  end.

Definition amax (a : list float) : result float :=
  match a with
  | [] => Raise (ValueError "zero-size array to reduction operation maximum which has no identity")
  | x :: a' => Ok (fold_left maximum a' x)
  end.

(** [np.any(a < 0)] and [np.any(np.isnan(a))]. *)
Definition any_negative (a : list float) : bool :=
  existsb (fun x => x <? 0) a.

Definition any_isnan (a : list float) : bool :=
  existsb PrimFloat.is_nan a.

End Numpy.

(** ** domain/models/quality.py *)

Module Quality.
Import Py.
Local Open Scope float_scope.

Inductive QualityGrade : Type :=
| EXTRA_VIRGIN | VIRGIN | LAMPANTE | REFINED | UNKNOWN.

Inductive QualityIndicator : Type :=
| ACIDITY | PEROXIDE_VALUE | K232 | K270 | DELTA_K | FLAVOR | AROMA.

(** The [value] of each member of the [QualityIndicator] enum. *)
Definition indicator_value (i : QualityIndicator) : string :=
  match i with
  | ACIDITY => "acidity"
  | PEROXIDE_VALUE => "peroxide_value"
  | K232 => "k232"
  | K270 => "k270"
  | DELTA_K => "delta_k"
  | FLAVOR => "flavor"
  | AROMA => "aroma"
  end.

(** [timestamp] is an [Optional[datetime]]; it is carried as an opaque
    number and no function below reads it. *)
Record QualityMetrics : Type := {
  acidity : option float;
  peroxide_value : option float;
  k232 : option float;
  k270 : option float;
  delta_k : option float;
  flavor_score : option float;
  aroma_score : option float;
  timestamp : option Z
}.

(** [QualityMetrics(...)] with every field at its default [None]. *)
Definition no_metrics : QualityMetrics :=
  {| acidity := None; peroxide_value := None; k232 := None; k270 := None;
     delta_k := None; flavor_score := None; aroma_score := None;
     timestamp := None |}.

(** The field of the metrics that carries an indicator. *)
Definition metric (m : QualityMetrics) (i : QualityIndicator) : option float :=
  match i with
  | ACIDITY => acidity m
  | PEROXIDE_VALUE => peroxide_value m
  | K232 => k232 m
  | K270 => k270 m
  | DELTA_K => delta_k m
  | FLAVOR => flavor_score m
  | AROMA => aroma_score m
  end.

(** [QualityMetrics.calculate_overall_score], statement by statement. *)
Definition calculate_overall_score (self : QualityMetrics) : float :=
  let scores : list float := [] in
  let scores :=
    match acidity self with
    | Some a =>
        if a <=? 0.8 then append scores (100 - (a / 0.8) * 20)
        else append scores (max 0 (80 - (a - 0.8) * 50))
    | None => scores
    end in
  let scores :=
    match peroxide_value self with
    | Some p =>
        if p <=? 20 then append scores (100 - (p / 20) * 20)
        else append scores (max 0 (80 - (p - 20) * 2))
    | None => scores
    end in
  let scores :=
    match k232 self with
    | Some k =>
        if k <=? 2.5 then append scores (100 - (k / 2.5) * 20)
        else append scores (max 0 (80 - (k - 2.5) * 20))
    | None => scores
    end in
  let scores :=
    match k270 self with
    | Some k =>
        if k <=? 0.22 then append scores (100 - (k / 0.22) * 20)
        else append scores (max 0 (80 - (k - 0.22) * 200))
    | None => scores
    end in
  let scores :=
    match flavor_score self with
    | Some f => append scores f
    | None => scores
    end in
  let scores :=
    match aroma_score self with
    | Some a => append scores a
    | None => scores
    end in
  match scores with
  | [] => 0
  | _ :: _ => sum scores / len scores
  end.

(** [QualityMetrics.determine_quality_grade]. *)
Definition determine_quality_grade (self : QualityMetrics) : QualityGrade :=
  let overall_score := calculate_overall_score self in
  if geb overall_score 90 then EXTRA_VIRGIN
  else if geb overall_score 80 then VIRGIN
  else if geb overall_score 60 then LAMPANTE
  else REFINED.

Record QualityThreshold : Type := {
  grade : QualityGrade;
  max_acidity : float;
  max_peroxide_value : float;
  max_k232 : float;
  max_k270 : float;
  min_flavor_score : float;
  min_aroma_score : float
}.

(** [QualityThreshold.check_compliance]: the dict is built by one guarded
    assignment per field, in source order. *)
Definition check_compliance (self : QualityThreshold) (metrics : QualityMetrics)
  : gmap string bool :=
  let compliance : gmap string bool := ∅ in
  let compliance :=
    match acidity metrics with
    | Some a => <["acidity" := a <=? max_acidity self]> compliance
    | None => compliance
    end in
  let compliance :=
    match peroxide_value metrics with
    | Some p => <["peroxide_value" := p <=? max_peroxide_value self]> compliance
    | None => compliance
    end in
  let compliance :=
    match k232 metrics with
    | Some k => <["k232" := k <=? max_k232 self]> compliance
    | None => compliance
    end in
  let compliance :=
    match k270 metrics with
    | Some k => <["k270" := k <=? max_k270 self]> compliance
    | None => compliance
    end in
  let compliance :=
    match flavor_score metrics with
    | Some f => <["flavor" := geb f (min_flavor_score self)]> compliance
    | None => compliance
    end in
  let compliance :=
    match aroma_score metrics with
    | Some a => <["aroma" := geb a (min_aroma_score self)]> compliance
    | None => compliance
    end in
  compliance.

End Quality.


(** ** domain/models/spectrum.py *)

Module Spectrum.
Import Py.

Inductive SpectroscopyType : Type :=
| FLUORESCENCE | ABSORPTION | RAMAN.

(** [str(t)], which is what an f-string shows of a member of the [Enum]:
    the name of the class and the name of the member. *)
Definition SpectroscopyType_str (t : SpectroscopyType) : string :=
  match t with
  | FLUORESCENCE => "SpectroscopyType.FLUORESCENCE"
  | ABSORPTION => "SpectroscopyType.ABSORPTION"
  | RAMAN => "SpectroscopyType.RAMAN"
  end.

#[global] Instance SpectroscopyType_eq_dec : EqDecision SpectroscopyType.
Proof. solve_decision. Defined.

#[global] Instance SpectroscopyType_countable : Countable SpectroscopyType.
Proof.
  refine (inj_countable'
            (fun t => match t with FLUORESCENCE => 0 | ABSORPTION => 1 | RAMAN => 2 end)
            (fun n => match n with 0 => FLUORESCENCE | 1 => ABSORPTION | _ => RAMAN end) _).
  intros []; reflexivity.
Defined.

(** The numpy arrays are one-dimensional arrays of floats. *)
Record SpectralData : Type := {
  wavelengths : list float;
  intensities : list float;
  spectroscopy_type : SpectroscopyType;
  excitation_wavelength : option float;
  emission_wavelength : option float;
  measurement_conditions : option (gmap string string)
}.

(** [SpectralData.__post_init__]. *)
Definition __post_init__ (self : SpectralData) : result unit :=
  if negb (List.length (wavelengths self) =? List.length (intensities self)) then
    Raise (ValueError "Wavelengths and intensities must have the same length")
  else if List.length (wavelengths self) =? 0 then
    Raise (ValueError "Spectral data cannot be empty")
  else Ok tt.

(** The call [SpectralData(...)]: the dataclass fills the fields and then
    runs [__post_init__]. *)
Definition new_SpectralData (wavelengths intensities : list float)
    (spectroscopy_type : SpectroscopyType)
    (excitation_wavelength emission_wavelength : option float)
    (measurement_conditions : option (gmap string string))
  : result SpectralData :=
  let self :=
    {| wavelengths := wavelengths;
       intensities := intensities;
       spectroscopy_type := spectroscopy_type;
       excitation_wavelength := excitation_wavelength;
       emission_wavelength := emission_wavelength;
       measurement_conditions := measurement_conditions |} in
  bind (__post_init__ self) (fun _ => Ok self).


(** The properties [wavelength_range], [intensity_range] and
    [data_points]; [float] of a numpy number is that number. *)
Definition wavelength_range (self : SpectralData) : result (float * float) :=
  bind (Numpy.amin (wavelengths self)) (fun lo =>
  bind (Numpy.amax (wavelengths self)) (fun hi => Ok (lo, hi))).

Definition intensity_range (self : SpectralData) : result (float * float) :=
  bind (Numpy.amin (intensities self)) (fun lo =>
  bind (Numpy.amax (intensities self)) (fun hi => Ok (lo, hi))).

Definition data_points (self : SpectralData) : nat :=
  List.length (wavelengths self).

Section Normalize.

(** [a.mean()] and [a.std()]: numpy adds the items in an order of its
    own; the two reductions are left open. *)
Variables (mean std : list float -> float).

(** [SpectralData.normalize]: the operands are evaluated from left to
    right, an array minus a number and an array divided by a number are
    taken item by item, and the result goes through the constructor. *)
Definition normalize (self : SpectralData) (method : string) : result SpectralData :=
  bind
    (if String.eqb method "minmax" then
       bind (Numpy.amin (intensities self)) (fun lo =>
       let shifted := map (fun x => x - lo)%float (intensities self) in
       bind (Numpy.amax (intensities self)) (fun hi =>
       bind (Numpy.amin (intensities self)) (fun lo' =>
       Ok (map (fun x => x / (hi - lo'))%float shifted))))
     else if String.eqb method "zscore" then
       let shifted :=
         map (fun x => x - mean (intensities self))%float (intensities self) in
       Ok (map (fun x => x / std (intensities self))%float shifted)
     else Raise (ValueError ("Unknown normalization method: " ++ method)))
    (fun normalized_intensities =>
       new_SpectralData (wavelengths self) normalized_intensities
         (spectroscopy_type self) (excitation_wavelength self)
         (emission_wavelength self) (measurement_conditions self)).

End Normalize.

(** A [Spectrum]: the record and its three properties.  [timestamp] is
    what the caller passes, a value of the metadata or [None]. *)
Record Spectrum : Type := {
  spectral_data : SpectralData;
  measurement_name : string;
  aging_step : option nat;
  sample_id : option string;
  timestamp : option Any
}.

Definition Spectrum_wavelengths (self : Spectrum) : list float :=
  wavelengths (spectral_data self).

Definition Spectrum_intensities (self : Spectrum) : list float :=
  intensities (spectral_data self).

Definition Spectrum_spectroscopy_type (self : Spectrum) : SpectroscopyType :=
  spectroscopy_type (spectral_data self).

End Spectrum.

(** ** domain/models/quality.py: the assessment of a spectrum *)

Module Assessment.
Import Py Quality.

Record SpectralQualityAssessment : Type := {
  spectrum : Spectrum.Spectrum;
  quality_metrics : QualityMetrics;
  quality_grade : QualityGrade;
  spectral_features : option (gmap string float);
  assessment_confidence : option float;
  assessment_method : option string;
  timestamp : option Z
}.

(** The dict [grade_hierarchy]: it has every member of the enum as a key,
    and is read as a function. *)
Definition grade_hierarchy (g : QualityGrade) : Z :=
  match g with
  | EXTRA_VIRGIN => 4
  | VIRGIN => 3
  | LAMPANTE => 2
  | REFINED => 1
  | UNKNOWN => 0
  end.

(** [SpectralQualityAssessment.is_acceptable_quality]. *)
Definition is_acceptable_quality (self : SpectralQualityAssessment)
    (min_grade : QualityGrade) : bool :=
  (grade_hierarchy min_grade <=? grade_hierarchy (quality_grade self))%Z.

(** The default of [min_grade]. *)
Definition default_min_grade : QualityGrade := VIRGIN.

End Assessment.

(** ** domain/models/measurement.py *)

Module Measurement.

Inductive AgingStep : Type :=
| STEP_0 | STEP_1 | STEP_2 | STEP_3 | STEP_4
| STEP_5 | STEP_6 | STEP_7 | STEP_8 | STEP_9.

(** The [value] of each member of the enum. *)
Definition step_value (s : AgingStep) : nat :=
  match s with
  | STEP_0 => 0 | STEP_1 => 1 | STEP_2 => 2 | STEP_3 => 3 | STEP_4 => 4
  | STEP_5 => 5 | STEP_6 => 6 | STEP_7 => 7 | STEP_8 => 8 | STEP_9 => 9
  end.


#[global] Instance AgingStep_eq_dec : EqDecision AgingStep.
Proof. solve_decision. Defined.

(** A [Measurement]; [timestamp] is an [Optional[datetime]], carried as an
    opaque number that no function below reads. *)
Record Measurement : Type := {
  measurement_id : string;
  aging_step : AgingStep;
  spectroscopy_type : Spectrum.SpectroscopyType;
  spectra : list Spectrum.Spectrum;
  metadata : option (gmap string Py.Any);
  timestamp : option Z
}.

(** The loop of [__post_init__] over the spectra. *)
Fixpoint check_spectra (t : Spectrum.SpectroscopyType)
    (spectra : list Spectrum.Spectrum) : Py.result unit :=
  match spectra with
  | [] => Py.Ok tt
  | spectrum :: rest =>
      if negb (bool_decide (Spectrum.Spectrum_spectroscopy_type spectrum = t)) then
        Py.Raise (Py.ValueError "All spectra must have the same spectroscopy type")
      else check_spectra t rest
  end.

(** [Measurement.__post_init__]. *)
Definition __post_init__ (self : Measurement) : Py.result unit :=
  match spectra self with
  | [] => Py.Raise (Py.ValueError "Measurement must contain at least one spectrum")
  | _ :: _ => check_spectra (spectroscopy_type self) (spectra self)
  end.

(** The call [Measurement(...)]. *)
Definition new_Measurement (measurement_id : string) (aging_step : AgingStep)
    (spectroscopy_type : Spectrum.SpectroscopyType)
    (spectra : list Spectrum.Spectrum)
    (metadata : option (gmap string Py.Any)) (timestamp : option Z)
  : Py.result Measurement :=
  let self :=
    {| measurement_id := measurement_id;
       aging_step := aging_step;
       spectroscopy_type := spectroscopy_type;
       spectra := spectra;
       metadata := metadata;
       timestamp := timestamp |} in
  Py.bind (__post_init__ self) (fun _ => Py.Ok self).

(** The property [spectrum_count]. *)
Definition spectrum_count (self : Measurement) : nat :=
  List.length (spectra self).

(** [Measurement.get_spectrum_by_name]: the loop returns at the first
    spectrum of that name. *)
Definition get_spectrum_by_name (self : Measurement) (name : string)
  : option Spectrum.Spectrum :=
  List.find (fun spectrum => String.eqb (Spectrum.measurement_name spectrum) name)
    (spectra self).

(** [x == y] for an [Optional[float]] [x] and a float [y]. *)
Definition optional_float_eq (x : option float) (y : float) : bool :=
  match x with
  | Some x' => PrimFloat.eqb x' y
  | None => false
  end.

(** [Measurement.get_spectra_by_excitation]. *)
Definition get_spectra_by_excitation (self : Measurement)
    (excitation_wavelength : float) : list Spectrum.Spectrum :=
  List.filter
    (fun spectrum =>
       optional_float_eq
         (Spectrum.excitation_wavelength (Spectrum.spectral_data spectrum))
         excitation_wavelength)
    (spectra self).

(** An [ExperimentSession]; the times are opaque. *)
Record ExperimentSession : Type := {
  session_id : string;
  measurements : list Measurement;
  experiment_config : option (gmap string Py.Any);
  start_time : option Z;
  end_time : option Z
}.

Definition measurement_count (self : ExperimentSession) : nat :=
  List.length (measurements self).

(** [ExperimentSession.get_measurements_by_aging_step]. *)
Definition get_measurements_by_aging_step (self : ExperimentSession)
    (step : AgingStep) : list Measurement :=
  List.filter (fun m => bool_decide (aging_step m = step)) (measurements self).

(** [ExperimentSession.get_measurements_by_type]. *)
Definition get_measurements_by_type (self : ExperimentSession)
    (t : Spectrum.SpectroscopyType) : list Measurement :=
  List.filter (fun m => bool_decide (spectroscopy_type m = t)) (measurements self).

End Measurement.

(** ** infrastructure/data_sources/base.py *)

Module Base.
Import Py Measurement.
Local Open Scope string_scope.

(** [SpectroscopyStrategy._extract_aging_step], on [filename], the value of
    [file_path.name]. *)
Definition _extract_aging_step (filename : string) : AgingStep :=
  if contains "AS0" filename then STEP_0
  else if contains "AS1" filename then STEP_1
  else if contains "AS2" filename then STEP_2
  else if contains "AS3" filename then STEP_3
  else if contains "AS4" filename then STEP_4
  else if contains "AS5" filename then STEP_5
  else if contains "AS6" filename then STEP_6
  else if contains "AS7" filename then STEP_7
  else if contains "AS8" filename then STEP_8
  else if contains "AS9" filename then STEP_9
  else STEP_0.


(** The interface [SpectroscopyStrategy]: the attribute that [__init__]
    sets and the three abstract methods, each of which may raise. *)
Class SpectroscopyStrategy : Type := {
  spectroscopy_type : Spectrum.SpectroscopyType;
  load_data : Pathlib.Path -> result (list Spectrum.SpectralData);
  extract_metadata : Pathlib.Path -> result (gmap string Any);
  validate_data : list Spectrum.SpectralData -> result bool
}.

(** [SpectroscopyStrategy._extract_sample_id]. *)
Definition _extract_sample_id (file_path : Pathlib.Path) : string :=
  Pathlib.stem file_path.

(** The spectrum that the loop of [create_measurement] builds at index
    [i]. *)
Definition spectrum_at (file_path : Pathlib.Path) (metadata : gmap string Any)
    (i : nat) (spectral_data : Spectrum.SpectralData) : Spectrum.Spectrum :=
  {| Spectrum.spectral_data := spectral_data;
     Spectrum.measurement_name := "spectrum_" ++ str_of_nat i;
     Spectrum.aging_step :=
       Some (step_value (_extract_aging_step (Pathlib.name file_path)));
     Spectrum.sample_id := Some (_extract_sample_id file_path);
     Spectrum.timestamp := metadata !! "timestamp" |}.

(** [SpectroscopyStrategy.create_measurement]: the body of the [try]
    returns a measurement, returns [None], or raises, and the handler
    returns [None].  What is printed is not part of the result. *)
Definition create_measurement `{SpectroscopyStrategy} (file_path : Pathlib.Path)
  : option Measurement :=
  let tried : result (option Measurement) :=
    bind (load_data file_path) (fun spectral_data_list =>
    bind (validate_data spectral_data_list) (fun valid =>
    if negb valid then Ok None
    else
      bind (extract_metadata file_path) (fun metadata =>
      let spectra := imap (spectrum_at file_path metadata) spectral_data_list in
      bind (new_Measurement (Pathlib.stem file_path)
              (_extract_aging_step (Pathlib.name file_path))
              spectroscopy_type spectra (Some metadata) None)
           (fun measurement => Ok (Some measurement))))) in
  match tried with
  | Ok r => r
  | Raise _ => None
  end.

End Base.

(** ** infrastructure/data_sources/fluorescence.py *)

Module Fluorescence.
Import Py Spectrum.
Local Open Scope string_scope.

(** A cell of a column read by [pd.read_csv]: a number (a missing value is
    the number NaN), or text in a column that holds some text that is not
    a number. *)
Inductive cell : Type :=
| Num (x : float)
| Text (s : string).

(** A column: its header and its cells. *)
Record Series : Type := { name : string; values : list cell }.

(** A [DataFrame] is its columns, in file order. *)
Abbreviation DataFrame := (list Series) (only parsing).

(** [df.shape[1]]. *)
Definition shape1 (df : DataFrame) : nat := List.length df.

(** [col.isna()], cell by cell. *)
Definition isna (c : cell) : bool :=
  match c with
  | Num x => PrimFloat.is_nan x
  | Text _ => false
  end.

(** [col[mask]]: boolean indexing. *)
Fixpoint select {A} (xs : list A) (mask : list bool) : list A :=
  match xs, mask with
  | x :: xs', b :: mask' => if b then x :: select xs' mask' else select xs' mask'
  | _, _ => []
  end.

(** [.values.astype(float)]: a number stays, text goes through [float]
    and the first failure raises. *)
Fixpoint astype_float (cs : list cell) : result (list float) :=
  match cs with
  | [] => Ok []
  | Num x :: cs' => bind (astype_float cs') (fun xs => Ok (x :: xs))
  | Text s :: cs' =>
      bind (float_ s) (fun x => bind (astype_float cs') (fun xs => Ok (x :: xs)))
  end.

(** [FluorescenceStrategy._extract_spectrum]. *)
Definition _extract_spectrum (df : DataFrame) (col_idx : nat)
  : result (list float * list float) :=
  if (shape1 df <=? col_idx + 1)%nat then
    Raise (ValueError ("Column index " ++ str_of_nat col_idx ++ " out of bounds"))
  else
    bind (index df col_idx) (fun wavelength_col =>
    bind (index df (col_idx + 1)) (fun intensity_col =>
    let valid_mask :=
      map negb (zip_with orb (map isna (values wavelength_col))
                             (map isna (values intensity_col))) in
    bind (astype_float (select (values wavelength_col) valid_mask)) (fun wavelengths =>
    bind (astype_float (select (values intensity_col) valid_mask)) (fun intensities =>
    Ok (wavelengths, intensities))))).

(** [FluorescenceStrategy._extract_excitation_wavelength]: the [try] block
    either returns a float, falls through, or raises; both exceptions it
    can raise are caught, and every path but the first ends at the
    default. *)
Definition _extract_excitation_wavelength (column_name : string) : float :=
  let tried : result (option float) :=
    if contains "EX_" column_name then
      bind (split column_name "EX_") (fun parts =>
      if (1 <? List.length parts)%nat then
        bind (index parts 1) (fun part => bind (float_ part) (fun x => Ok (Some x)))
      else Ok None)
    else Ok None in
  match tried with
  | Ok (Some x) => x
  | Ok None => 300.0%float
  | Raise (ValueError _) => 300.0%float
  | Raise (IndexError _) => 300.0%float
  end.

(** [range(start, stop, step)] for a positive step; [fuel] bounds the
    number of elements and [stop] is always enough. *)
Fixpoint range_fuel (fuel start stop step : nat) : list nat :=
  match fuel with
  | O => []
  | S fuel' =>
      if (start <? stop)%nat then start :: range_fuel fuel' (start + step) stop step
      else []
  end.

Definition range (start stop step : nat) : list nat :=
  range_fuel stop start stop step.

(** The body of the loop of [load_data] for the column index [i]: the
    inner [try] either appends a record, leaves the list as it is, or
    raises, and the handler goes on with the list as it is. *)
Definition load_pair (df : DataFrame) (spectral_data_list : list SpectralData)
    (i : nat) : list SpectralData :=
  let tried : result (list SpectralData) :=
    bind (_extract_spectrum df i) (fun '(wavelengths, intensities) =>
    if (0 <? List.length wavelengths)%nat then
      bind (index df i) (fun column =>
      bind (new_SpectralData wavelengths intensities FLUORESCENCE
              (Some (_extract_excitation_wavelength (name column))) None None)
           (fun spectral_data => Ok (append spectral_data_list spectral_data)))
    else Ok spectral_data_list) in
  match tried with
  | Ok l => l
  | Raise _ => spectral_data_list
  end.

(** [FluorescenceStrategy.load_data], from the outcome of [pd.read_csv]:
    a failed read is caught by the outer handler, which returns [[]].
    For a frame with no column the stop [df.shape[1] - 1] is [-1] and the
    range is empty, as it is for the stop [0] that the subtraction on
    [nat] gives. *)
Definition load_data (read_csv : result DataFrame) : list SpectralData :=
  match read_csv with
  | Ok df => fold_left (load_pair df) (range 0 (shape1 df - 1) 2) []
  | Raise _ => []
  end.


(** [FluorescenceStrategy.extract_metadata]; [now] is the text that
    [datetime.now().isoformat()] gives at the call. *)
Definition extract_metadata (now : string) (file_path : Pathlib.Path)
  : result (gmap string Any) :=
  let metadata : gmap string Any :=
    <["aging_step" :=
        AnyInt (Measurement.step_value
                  (Base._extract_aging_step (Pathlib.name file_path)))]>
    (<["timestamp" := AnyStr now]>
    (<["spectroscopy_type" := AnyStr "fluorescence"]>
    (<["file_name" := AnyStr (Pathlib.name file_path)]>
    (<["file_path" := AnyStr (Pathlib.str file_path)]> ∅)))) in
  let filename := Pathlib.name file_path in
  if contains "_" filename then
    bind (split filename "_") (fun parts =>
    if (3 <=? List.length parts)%nat then
      bind (index parts 0) (fun date =>
      let metadata := <["date" := AnyStr date]> metadata in
      bind (index parts 1) (fun time =>
      let metadata := <["time" := AnyStr time]> metadata in
      bind (index parts 2) (fun sample_code =>
      let metadata := <["sample_code" := AnyStr sample_code]> metadata in
      Ok metadata)))
    else Ok metadata)
  else Ok metadata.

(** What [validate_data] prints: the warning and, for the first one, the
    range it shows. *)
Inductive warning : Type :=
| WavelengthRangeWarning (range : float * float)
| NegativeIntensitiesWarning
| NaNValuesWarning.

(** The body of the loop of [validate_data] for one record: the property
    [wavelength_range] is computed each time it is read. *)
Definition validate_record (data : SpectralData) : result (list warning) :=
  bind (wavelength_range data) (fun r0 =>
  bind (if (fst r0 <? 200)%float then Ok true
        else bind (wavelength_range data) (fun r1 => Ok (1000 <? snd r1)%float))
       (fun outside =>
  bind (if outside : bool then
          bind (wavelength_range data) (fun r => Ok [WavelengthRangeWarning r])
        else Ok [])
       (fun range_warning =>
  let negative_warning :=
    if Numpy.any_negative (intensities data) then [NegativeIntensitiesWarning]
    else [] in
  let nan_warning :=
    if Numpy.any_isnan (intensities data) then [NaNValuesWarning] else [] in
  Ok (range_warning ++ negative_warning ++ nan_warning)%list))).

Fixpoint validate_records (spectral_data : list SpectralData)
  : result (list warning) :=
  match spectral_data with
  | [] => Ok []
  | data :: rest =>
      bind (validate_record data) (fun printed =>
      bind (validate_records rest) (fun printed' => Ok (printed ++ printed')%list))
  end.

(** [FluorescenceStrategy.validate_data]: what it prints and what it
    returns. *)
Definition validate_data (spectral_data : list SpectralData)
  : result (list warning * bool) :=
  match spectral_data with
  | [] => Ok ([], false)
  | _ :: _ => bind (validate_records spectral_data) (fun printed => Ok (printed, true))
  end.

(** [FluorescenceStrategy] as a [SpectroscopyStrategy]: [read_csv] is what
    reading each file gives and [now] the clock. *)
Definition FluorescenceStrategy (read_csv : Pathlib.Path -> result DataFrame)
    (now : string) : Base.SpectroscopyStrategy :=
  {| Base.spectroscopy_type := FLUORESCENCE;
     Base.load_data := fun file_path => Ok (load_data (read_csv file_path));
     Base.extract_metadata := extract_metadata now;
     Base.validate_data := fun spectral_data =>
       bind (validate_data spectral_data) (fun r => Ok (snd r)) |}.

End Fluorescence.

(** ** infrastructure/data_sources/absorption.py *)

Module Absorption.
Import Py Spectrum Fluorescence.
Local Open Scope string_scope.

(** [AbsorptionStrategy._extract_spectrum]. *)
Definition _extract_spectrum (df : DataFrame) (col_idx : nat)
  : result (list float * list float) :=
  if (shape1 df <=? col_idx + 1)%nat then
    Raise (ValueError ("Column index " ++ str_of_nat col_idx ++ " out of bounds"))
  else
    bind (index df col_idx) (fun wavelength_col =>
    bind (index df (col_idx + 1)) (fun intensity_col =>
    let valid_mask :=
      map negb (zip_with orb (map isna (values wavelength_col))
                             (map isna (values intensity_col))) in
    bind (astype_float (select (values wavelength_col) valid_mask)) (fun wavelengths =>
    bind (astype_float (select (values intensity_col) valid_mask)) (fun intensities =>
    Ok (wavelengths, intensities))))).

(** The body of the loop of [load_data] for the column index [i]. *)
Definition load_pair (df : DataFrame) (spectral_data_list : list SpectralData)
    (i : nat) : list SpectralData :=
  let tried : result (list SpectralData) :=
    bind (_extract_spectrum df i) (fun '(wavelengths, intensities) =>
    if (0 <? List.length wavelengths)%nat then
      bind (new_SpectralData wavelengths intensities ABSORPTION None None None)
           (fun spectral_data => Ok (append spectral_data_list spectral_data))
    else Ok spectral_data_list) in
  match tried with
  | Ok l => l
  | Raise _ => spectral_data_list
  end.

(** [AbsorptionStrategy.load_data], from the outcome of [pd.read_csv]. *)
Definition load_data (read_csv : result DataFrame) : list SpectralData :=
  match read_csv with
  | Ok df => fold_left (load_pair df) (range 0 (shape1 df - 1) 2) []
  | Raise _ => []
  end.

(** [AbsorptionStrategy.extract_metadata]. *)
Definition extract_metadata (now : string) (file_path : Pathlib.Path)
  : gmap string Any :=
  <["timestamp" := AnyStr now]>
  (<["spectroscopy_type" := AnyStr "absorption"]>
  (<["file_name" := AnyStr (Pathlib.name file_path)]>
  (<["file_path" := AnyStr (Pathlib.str file_path)]> ∅))).

(** The body of the loop of [validate_data] for one record. *)
Definition validate_record (data : SpectralData) : result (list warning) :=
  bind (wavelength_range data) (fun r0 =>
  bind (if (fst r0 <? 100)%float then Ok true
        else bind (wavelength_range data) (fun r1 => Ok (1000 <? snd r1)%float))
       (fun outside =>
  bind (if outside : bool then
          bind (wavelength_range data) (fun r => Ok [WavelengthRangeWarning r])
        else Ok [])
       (fun range_warning =>
  let negative_warning :=
    if Numpy.any_negative (intensities data) then [NegativeIntensitiesWarning]
    else [] in
  Ok (range_warning ++ negative_warning)%list))).

Fixpoint validate_records (spectral_data : list SpectralData)
  : result (list warning) :=
  match spectral_data with
  | [] => Ok []
  | data :: rest =>
      bind (validate_record data) (fun printed =>
      bind (validate_records rest) (fun printed' => Ok (printed ++ printed')%list))
  end.

(** [AbsorptionStrategy.validate_data]. *)
Definition validate_data (spectral_data : list SpectralData)
  : result (list warning * bool) :=
  match spectral_data with
  | [] => Ok ([], false)
  | _ :: _ => bind (validate_records spectral_data) (fun printed => Ok (printed, true))
  end.

End Absorption.

(** ** infrastructure/data_sources/factory.py *)

Module Factory.
Import Py Spectrum.
Local Open Scope string_scope.

(** The strategy classes of the package.  The registry is modelled for
    these two classes: they are what the module puts in it, and what the
    properties below register.  ([register_strategy] itself would take a
    class from elsewhere, and [create_strategy] would then give what
    calling that class gives; this is not modelled.) *)
Inductive StrategyClass : Type :=
| FluorescenceStrategy
| AbsorptionStrategy.

(** An instance of a strategy class: both [__init__] set nothing but the
    [spectroscopy_type] attribute. *)
Record Strategy : Type := {
  class_of : StrategyClass;
  strategy_type : SpectroscopyType
}.

(** [strategy_class()]. *)
Definition instantiate (c : StrategyClass) : Strategy :=
  match c with
  | FluorescenceStrategy => {| class_of := c; strategy_type := FLUORESCENCE |}
  | AbsorptionStrategy => {| class_of := c; strategy_type := ABSORPTION |}
  end.

(** The class attribute [_strategies] as the module defines it. *)
Definition _strategies : gmap SpectroscopyType StrategyClass :=
  <[ABSORPTION := AbsorptionStrategy]> (<[FLUORESCENCE := FluorescenceStrategy]> ∅).

(** [register_strategy], for a class of the package: the only writer of
    the registry. *)
Definition register_strategy (registry : gmap SpectroscopyType StrategyClass)
    (spectroscopy_type : SpectroscopyType) (strategy_class : StrategyClass)
  : gmap SpectroscopyType StrategyClass :=
  <[spectroscopy_type := strategy_class]> registry.

(** [create_strategy], reading the registry it is run with. *)
Definition create_strategy (registry : gmap SpectroscopyType StrategyClass)
    (spectroscopy_type : SpectroscopyType) : result Strategy :=
  match registry !! spectroscopy_type with
  | None =>
      Raise (ValueError ("Unsupported spectroscopy type: "
                         ++ SpectroscopyType_str spectroscopy_type))
  | Some strategy_class => Ok (instantiate strategy_class)
  end.

(** [create_strategy_from_file], on [file_path], the value of
    [str(file_path)]. *)
Definition create_strategy_from_file (registry : gmap SpectroscopyType StrategyClass)
    (file_path : string) : result Strategy :=
  if contains "Fluorescence" file_path then create_strategy registry FLUORESCENCE
  else if contains "Absorption" file_path then create_strategy registry ABSORPTION
  else create_strategy registry FLUORESCENCE.

End Factory.

(** ** The scoring rule as the specification words it

    Each chemical indicator has a threshold and a rate; at or below the
    threshold the sub-score goes linearly from 100 (at 0) to 80 (at the
    threshold), above it the sub-score falls from 80 at the rate and is
    clamped at 0.  Sensory scores are sub-scores as they are, and the
    overall score is the mean of the sub-scores that exist. *)

Module ScoringSpec.
Import Py Quality.
Local Open Scope float_scope.

(** The threshold of a chemical indicator and its rate of decrease above
    the threshold. *)
Definition chemical_rule (i : QualityIndicator) : option (float * float) :=
  match i with
  | ACIDITY => Some (0.8, 50)
  | PEROXIDE_VALUE => Some (20, 2)
  | K232 => Some (2.5, 20)
  | K270 => Some (0.22, 200)
  | DELTA_K | FLAVOR | AROMA => None
  end.

Definition interpolate (threshold v : float) : float :=
  100 - (v / threshold) * 20.

Definition decrease (threshold rate v : float) : float :=
  80 - (v - threshold) * rate.

Definition clamp0 (x : float) : float := max 0 x.

Definition piecewise (threshold rate v : float) : float :=
  if v <=? threshold then interpolate threshold v
  else clamp0 (decrease threshold rate v).

(** The sub-score of an indicator with value [v], when it has one. *)
Definition sub_score (i : QualityIndicator) (v : float) : option float :=
  match i with
  | FLAVOR | AROMA => Some v
  | DELTA_K => None
  | _ => match chemical_rule i with
         | Some (threshold, rate) => Some (piecewise threshold rate v)
         | None => None
         end
  end.

Definition indicators : list QualityIndicator :=
  [ACIDITY; PEROXIDE_VALUE; K232; K270; DELTA_K; FLAVOR; AROMA].

(** The sub-scores of the indicators present in the metrics. *)
Definition sub_scores (m : QualityMetrics) : list float :=
  omap (fun i => match metric m i with
                 | Some v => sub_score i v
                 | None => None
                 end) indicators.

Definition mean (xs : list float) : float :=
  match xs with
  | [] => 0
  | _ :: _ => sum xs / len xs
  end.

(** The comparison the compliance check makes for an indicator that has a
    bound in the threshold: an upper bound for a chemical value, a lower
    bound for a sensory score. *)
Definition complies (t : QualityThreshold) (i : QualityIndicator) (v : float)
  : option bool :=
  match i with
  | ACIDITY => Some (v <=? max_acidity t)
  | PEROXIDE_VALUE => Some (v <=? max_peroxide_value t)
  | K232 => Some (v <=? max_k232 t)
  | K270 => Some (v <=? max_k270 t)
  | FLAVOR => Some (geb v (min_flavor_score t))
  | AROMA => Some (geb v (min_aroma_score t))
  | DELTA_K => None
  end.

End ScoringSpec.

(** ** The file-name conventions as the specification words them *)

Module NamingSpec.
Import Py Measurement.
Local Open Scope string_scope.

(** The token ["AS"] followed by the decimal digit [d]. *)
Definition token (d : nat) : string :=
  "AS" ++ String (ascii_of_nat (48 + d)) EmptyString.

(** The enumerated step of a digit. *)
Definition step_of (d : nat) : AgingStep :=
  match d with
  | 0 => STEP_0 | 1 => STEP_1 | 2 => STEP_2 | 3 => STEP_3 | 4 => STEP_4
  | 5 => STEP_5 | 6 => STEP_6 | 7 => STEP_7 | 8 => STEP_8 | _ => STEP_9
  end.

(** The text after the first occurrence of the marker, when it occurs. *)
Definition trailing_text (marker column_name : string) : option string :=
  match partition marker column_name with
  | Some (_, after) => Some after
  | None => None
  end.

(** The text up to the next occurrence of the marker, or all of it. *)
Definition first_segment (marker text : string) : string :=
  match partition marker text with
  | Some (before, _) => before
  | None => text
  end.

End NamingSpec.

(** ** Spectrum extraction as the specification words it *)

Module ExtractionSpec.
Import Py Spectrum Fluorescence.

(** The rows of a pair of columns in which neither value is missing. *)
Definition kept_rows (wavelength_col intensity_col : Series) : list (cell * cell) :=
  List.filter (fun row => negb (isna (fst row)) && negb (isna (snd row)))
    (combine (values wavelength_col) (values intensity_col)).

(** The record of the pair of columns [i], [i + 1]: the kept rows cast to
    float, when every cast succeeds and a row is left. *)
Definition pair_record (df : DataFrame) (i : nat) : option SpectralData :=
  match df !! i, df !! (i + 1) with
  | Some wavelength_col, Some intensity_col =>
      let rows := kept_rows wavelength_col intensity_col in
      match astype_float (map fst rows), astype_float (map snd rows) with
      | Ok (w :: ws), Ok ints =>
          Some {| wavelengths := w :: ws;
                  intensities := ints;
                  spectroscopy_type := FLUORESCENCE;
                  excitation_wavelength :=
                    Some (_extract_excitation_wavelength (name wavelength_col));
                  emission_wavelength := None;
                  measurement_conditions := None |}
      | _, _ => None
      end
  | _, _ => None
  end.

(** The even column indices [i] with a column at [i + 1], increasing. *)
Definition pair_indices (df : DataFrame) : list nat :=
  map (fun k => 2 * k) (seq 0 (shape1 df / 2)).

End ExtractionSpec.

(** ** The value of a binary64 number

    The real number [m * 2^e] that a finite [spec_float] stands for, and
    the classes of numbers the range of the score is stated with. *)

Module FloatValue.
Local Open Scope Z_scope.

(** The exponent function of binary64. *)
Definition fexp64 (e : Z) : Z := fexp prec emax e.

(** The power of two [2^e] as a real number. *)
Definition bpow (e : Z) : R := powerRZ 2 e.

(** The value [m * 2^e]. *)
Definition dyadic (m e : Z) : R := (IZR m * bpow e)%R.

(** A record is inexact when one of its two bits is set. *)
Definition inexact (mrs : shr_record) : bool := shr_r mrs || shr_s mrs.

(** The value of a finite number; the other cases are never read. *)
Definition SF2R (x : spec_float) : R :=
  match x with
  | S754_finite s m e => dyadic (cond_Zopp s (Zpos m)) e
  | _ => 0%R
  end.

(** A number that is zero or positive. *)
Definition nonneg_finite (x : spec_float) : Prop :=
  match x with
  | S754_zero _ | S754_finite false _ _ => True
  | _ => False
  end.

(** A number that is zero or positive, or plus infinity. *)
Definition nonneg_ext (x : spec_float) : Prop :=
  match x with
  | S754_zero _ | S754_finite false _ _ | S754_infinity false => True
  | _ => False
  end.

(** A positive number. *)
Definition pos_finite (x : spec_float) : Prop :=
  match x with
  | S754_finite false _ _ => True
  | _ => False
  end.

(** A real number that is the value of a positive number of the format. *)
Definition representable (r : R) : Prop :=
  exists m e, SpecFloat.bounded prec emax m e = true /\ dyadic (Zpos m) e = r.

(** [x] is a number that is not negative, of value at most [B]. *)
Definition in_range (x : float) (B : R) : Prop :=
  nonneg_finite (Prim2SF x) /\ (SF2R (Prim2SF x) <= B)%R.

End FloatValue.

(** ** Inputs of the examples *)

Module Examples.
Import Quality Fluorescence.
Local Open Scope float_scope.
Local Open Scope string_scope.

(** The metrics of the specification's example. *)
Definition example_metrics : QualityMetrics :=
  {| acidity := Some 0.4; peroxide_value := Some 10; k232 := Some 2.0;
     k270 := Some 0.1; delta_k := None; flavor_score := None;
     aroma_score := None; timestamp := None |}.

(** Metrics in which [delta_k] alone is present. *)
Definition delta_k_metrics : QualityMetrics :=
  {| acidity := None; peroxide_value := None; k232 := None; k270 := None;
     delta_k := Some 0.01; flavor_score := None; aroma_score := None;
     timestamp := None |}.

(** Metrics in which every indicator is present. *)
Definition full_metrics : QualityMetrics :=
  {| acidity := Some 0.5; peroxide_value := Some 25; k232 := Some 2.0;
     k270 := Some 0.3; delta_k := Some 0.01; flavor_score := Some 70;
     aroma_score := Some 100; timestamp := None |}.

(** A threshold record, with the limits the comments of the scoring give
    for the extra virgin grade. *)
Definition extra_virgin_threshold : QualityThreshold :=
  {| grade := EXTRA_VIRGIN; max_acidity := 0.8; max_peroxide_value := 20;
     max_k232 := 2.5; max_k270 := 0.22; min_flavor_score := 6.5;
     min_aroma_score := 6.5 |}.

(** The table of the specification's example: one pair of columns, with a
    missing intensity in the last row. *)
Definition example_frame : DataFrame :=
  [ {| name := "N0_EX_350.00"; values := [Num 300; Num 310; Num 320] |};
    {| name := "N0_EX_350.00.1"; values := [Num 1.0; Num 2.0; Num nan] |} ]%float.

End Examples.

(** ** Variations of the inputs, used to state what a result depends on *)

Module Variation.
Import Quality.

(** The metrics with the field of one indicator replaced. *)
Definition with_metric (m : QualityMetrics) (i : QualityIndicator)
    (v : option float) : QualityMetrics :=
  {| acidity := match i with ACIDITY => v | _ => acidity m end;
     peroxide_value := match i with PEROXIDE_VALUE => v | _ => peroxide_value m end;
     k232 := match i with K232 => v | _ => k232 m end;
     k270 := match i with K270 => v | _ => k270 m end;
     delta_k := match i with DELTA_K => v | _ => delta_k m end;
     flavor_score := match i with FLAVOR => v | _ => flavor_score m end;
     aroma_score := match i with AROMA => v | _ => aroma_score m end;
     timestamp := timestamp m |}.

(** A record with its type set to absorption and no excitation
    wavelength. *)
Definition as_absorption (sd : Spectrum.SpectralData) : Spectrum.SpectralData :=
  {| Spectrum.wavelengths := Spectrum.wavelengths sd;
     Spectrum.intensities := Spectrum.intensities sd;
     Spectrum.spectroscopy_type := Spectrum.ABSORPTION;
     Spectrum.excitation_wavelength := None;
     Spectrum.emission_wavelength := Spectrum.emission_wavelength sd;
     Spectrum.measurement_conditions := Spectrum.measurement_conditions sd |}.

End Variation.

(** ** More inputs of the examples *)

Module Samples.
Import Quality Spectrum Assessment Examples.
Local Open Scope float_scope.
Local Open Scope string_scope.

(** A record of three points, as the constructor returns it. *)
Definition example_spectral_data : SpectralData :=
  {| wavelengths := [300; 310; 320]; intensities := [1; 3; 2];
     spectroscopy_type := FLUORESCENCE; excitation_wavelength := Some 350;
     emission_wavelength := None; measurement_conditions := None |}.

(** A record whose intensities are all the same. *)
Definition flat_spectral_data : SpectralData :=
  {| wavelengths := [300; 310; 320]; intensities := [2; 2; 2];
     spectroscopy_type := ABSORPTION; excitation_wavelength := None;
     emission_wavelength := None; measurement_conditions := None |}.

Definition example_spectrum : Spectrum :=
  {| spectral_data := example_spectral_data; measurement_name := "spectrum_0";
     aging_step := Some 3%nat; sample_id := Some "S1";
     Spectrum.timestamp := None |}.

(** Metrics whose chemical values are below half their limits. *)
Definition good_metrics : QualityMetrics :=
  {| acidity := Some 0.3; peroxide_value := Some 8; k232 := Some 1.2;
     k270 := Some 0.1; delta_k := None; flavor_score := Some 95;
     aroma_score := None; Quality.timestamp := None |}.

(** Metrics with an acidity above its limit and three perfect values. *)
Definition excess_acidity_metrics : QualityMetrics :=
  {| acidity := Some 1.0; peroxide_value := Some 0; k232 := Some 0;
     k270 := Some 0; delta_k := None; flavor_score := None;
     aroma_score := None; Quality.timestamp := None |}.

(** An assessment of the example metrics with the grade they determine. *)
Definition example_assessment : SpectralQualityAssessment :=
  {| spectrum := example_spectrum; quality_metrics := example_metrics;
     quality_grade := determine_quality_grade example_metrics;
     spectral_features := None; assessment_confidence := None;
     assessment_method := None; Assessment.timestamp := None |}.

(** A path of a fluorescence file. *)
Definition example_path : Pathlib.Path :=
  {| Pathlib.str := "data/Fluorescence/2023_1201_S1_AS3.csv";
     Pathlib.name := "2023_1201_S1_AS3.csv";
     Pathlib.stem := "2023_1201_S1_AS3" |}.

(** A second spectrum, of the same name, without excitation wavelength. *)
Definition second_spectrum : Spectrum :=
  {| spectral_data := flat_spectral_data; measurement_name := "spectrum_0";
     aging_step := Some 3%nat; sample_id := Some "S2";
     Spectrum.timestamp := None |}.

(** A measurement of one spectrum and a session of that measurement. *)
Definition example_measurement : Measurement.Measurement :=
  {| Measurement.measurement_id := "S1";
     Measurement.aging_step := Measurement.STEP_3;
     Measurement.spectroscopy_type := FLUORESCENCE;
     Measurement.spectra := [example_spectrum];
     Measurement.metadata := None;
     Measurement.timestamp := None |}.

Definition example_session : Measurement.ExperimentSession :=
  {| Measurement.session_id := "session";
     Measurement.measurements := [example_measurement];
     Measurement.experiment_config := None;
     Measurement.start_time := None;
     Measurement.end_time := None |}.

(** A table of numbers: two pairs of columns and a last column without a
    partner. *)
Definition numeric_frame : list Fluorescence.Series :=
  [ {| Fluorescence.name := "N0_EX_300.00";
       Fluorescence.values := [Fluorescence.Num 400; Fluorescence.Num 410] |};
    {| Fluorescence.name := "N0_EX_300.00.1";
       Fluorescence.values := [Fluorescence.Num 5; Fluorescence.Num nan] |};
    {| Fluorescence.name := "N0_EX_nan";
       Fluorescence.values := [Fluorescence.Num 400; Fluorescence.Num 410] |};
    {| Fluorescence.name := "N0_EX_nan.1";
       Fluorescence.values := [Fluorescence.Num 7; Fluorescence.Num 8] |};
    {| Fluorescence.name := "extra";
       Fluorescence.values := [Fluorescence.Num 1; Fluorescence.Num 2] |} ].

(** A file system in which every file holds the example table. *)
Definition example_read_csv (file_path : Pathlib.Path)
  : Py.result (list Fluorescence.Series) :=
  Py.Ok example_frame.

End Samples.

(** * Properties *)

(** ** Order on binary64 numbers *)

Module FloatOrder.
Local Open Scope float_scope.

(** Swapping the arguments of a comparison swaps its outcome. *)
Lemma SFcompare_swap (x y : spec_float) :
  SFcompare y x = option_map CompOpp (SFcompare x y).
Proof.
  destruct x as [sx|sx| |sx mx ex], y as [sy|sy| |sy my ey]; simpl;
    try reflexivity;
    try (destruct sx; reflexivity);
    try (destruct sy; reflexivity);
    try (destruct sx, sy; reflexivity).
  destruct sx, sy; simpl; try reflexivity.
  - rewrite (Z.compare_antisym ey ex).
    destruct (ey ?= ex)%Z; simpl; try reflexivity.
    rewrite CompOpp_involutive.
    exact (f_equal Some (Pos.compare_cont_antisym my mx Eq)).
  - rewrite (Z.compare_antisym ey ex).
    destruct (ey ?= ex)%Z; simpl; try reflexivity.
    exact (f_equal Some (eq_sym (Pos.compare_cont_antisym mx my Eq))).
Qed.

(** [x < y] excludes [y <= x]. *)
Lemma ltb_not_leb (x y : float) : (x <? y) = true -> (y <=? x) = false.
Proof.
  rewrite ltb_spec, leb_spec. unfold SFltb, SFleb.
  rewrite (SFcompare_swap (Prim2SF x) (Prim2SF y)).
  destruct (SFcompare (Prim2SF x) (Prim2SF y)) as [[]|]; simpl; congruence.
Qed.

(** [x < y] gives [x <= y]. *)
Lemma ltb_leb (x y : float) : (x <? y) = true -> (x <=? y) = true.
Proof.
  rewrite ltb_spec, leb_spec. unfold SFltb, SFleb.
  destruct (SFcompare (Prim2SF x) (Prim2SF y)) as [[]|]; simpl; congruence.
Qed.

(** Two numbers that each compare with something are ordered one way or
    the other: when [a <= x] holds, [x] is a number, and then [b <= x]
    can only fail with [x < b], for a number [b]. *)
Lemma not_leb_ltb (a b x : float) :
  (a <=? x) = true -> (b <=? b) = true -> (b <=? x) = false -> (x <? b) = true.
Proof.
  rewrite !leb_spec, ltb_spec. unfold SFltb, SFleb.
  rewrite (SFcompare_swap (Prim2SF b) (Prim2SF x)).
  destruct (Prim2SF a) as [sa|sa| |sa ma ea], (Prim2SF x) as [sx|sx| |sx mx ex],
    (Prim2SF b) as [sb|sb| |sb mb eb]; simpl; try congruence;
    try (destruct (SFcompare _ _) as [[]|]; simpl; congruence);
    try (destruct sx; simpl; congruence);
    try (destruct sb; simpl; congruence);
    try (destruct sx, sb; simpl; congruence).
  all: intros _ _;
    match goal with
    | |- context [match ?c with _ => _ end] => destruct c; simpl; congruence
    end.
Qed.

(** The order is transitive. *)
Lemma SFleb_trans (x y z : spec_float) :
  SFleb x y = true -> SFleb y z = true -> SFleb x z = true.
Proof.
  unfold SFleb.
  destruct x as [sx|sx| |sx mx ex], y as [sy|sy| |sy my ey],
    z as [sz|sz| |sz mz ez];
    simpl; try congruence;
    try (destruct sx; simpl; congruence);
    try (destruct sy; simpl; congruence);
    try (destruct sz; simpl; congruence);
    try (destruct sx, sy; simpl; congruence);
    try (destruct sx, sz; simpl; congruence);
    try (destruct sy, sz; simpl; congruence).
  all: destruct sx, sy, sz; simpl; try congruence.
  all: change (PosDef.Pos.compare_cont Eq) with Pos.compare.
  all: destruct (Z.compare_spec ex ey), (Z.compare_spec ey ez),
         (Z.compare_spec ex ez); simpl; try congruence; try lia.
  all: destruct (Pos.compare_spec mx my), (Pos.compare_spec my mz),
         (Pos.compare_spec mx mz); simpl; try congruence; try lia.
Qed.

Lemma leb_trans (x y z : float) :
  (x <=? y) = true -> (y <=? z) = true -> (x <=? z) = true.
Proof. rewrite !leb_spec. apply SFleb_trans. Qed.

End FloatOrder.

(** ** Rounding in binary64 *)

Module Binary64.
Import FloatValue.
Local Open Scope Z_scope.

(** The exponent of a number with [e] digits above the binary point:
    53 digits of precision, and -1074 for the subnormal numbers. *)
Lemma fexp64_eq (e : Z) : fexp64 e = Z.max (e - 53) (-1074).
Proof. reflexivity. Qed.

(** ** Powers of two as real numbers *)

Lemma bpow_gt_0 (e : Z) : (0 < bpow e)%R.
Proof. apply powerRZ_lt. lra. Qed.

Lemma bpow_plus (a b : Z) : bpow (a + b) = (bpow a * bpow b)%R.
Proof. apply powerRZ_add. lra. Qed.

Lemma bpow_IZR (e : Z) : 0 <= e -> bpow e = IZR (2 ^ e).
Proof.
  intros He. unfold bpow.
  rewrite <- (Z2Nat.id e He), <- pow_powerRZ, <- pow_IZR. reflexivity.
Qed.

Lemma bpow_ge_1 (e : Z) : 0 <= e -> (1 <= bpow e)%R.
Proof.
  intros He. rewrite (bpow_IZR e He). apply IZR_le.
  pose proof (Z.pow_pos_nonneg 2 e ltac:(lia) He). lia.
Qed.

Lemma bpow_le (a b : Z) : a <= b -> (bpow a <= bpow b)%R.
Proof.
  intros Hab. replace b with (a + (b - a)) by lia. rewrite bpow_plus.
  pose proof (bpow_gt_0 a). pose proof (bpow_ge_1 (b - a) ltac:(lia)). nra.
Qed.

Lemma bpow_lt_inv (a b : Z) : (bpow a < bpow b)%R -> a < b.
Proof.
  intros H. destruct (Z_lt_le_dec a b) as [|Hle]; [assumption|].
  apply bpow_le in Hle. lra.
Qed.

(** ** Number of binary digits *)

(** A positive number of [d] binary digits lies in [[2^(d-1), 2^d)]. *)
Lemma digits2_pos_size (p : positive) : digits2_pos p = Pos.size p.
Proof. induction p as [p IH|p IH|]; simpl; now rewrite ?IH. Qed.

Lemma digits2_pos_bounds (p : positive) :
  2 ^ (Zpos (digits2_pos p) - 1) <= Zpos p < 2 ^ Zpos (digits2_pos p).
Proof.
  rewrite digits2_pos_size.
  pose proof (Pos.size_gt p) as Hgt. pose proof (Pos.size_le p) as Hle.
  apply Pos2Z.pos_lt_pos in Hgt. apply Pos2Z.pos_le_pos in Hle.
  rewrite Pos2Z.inj_pow in Hgt, Hle.
  change (Z.pos p~0) with (2 * Z.pos p) in Hle.
  replace (Z.pos (Pos.size p)) with (Z.pos (Pos.size p) - 1 + 1) in Hle by lia.
  rewrite Z.pow_add_r in Hle by lia. change (2 ^ 1) with 2 in Hle.
  change (Z.pos 2) with 2 in *. lia.
Qed.

Lemma dyadic_digits_lt (p : positive) (e : Z) :
  (bpow (Zpos (digits2_pos p) - 1 + e) <= dyadic (Zpos p) e
   < bpow (Zpos (digits2_pos p) + e))%R.
Proof.
  unfold dyadic. rewrite !bpow_plus.
  destruct (digits2_pos_bounds p) as [Hlo Hhi].
  rewrite (bpow_IZR (Zpos (digits2_pos p) - 1)) by lia.
  rewrite (bpow_IZR (Zpos (digits2_pos p))) by lia.
  apply IZR_le in Hlo. apply IZR_lt in Hhi.
  pose proof (bpow_gt_0 e). split; nra.
Qed.

(** A smaller value has no more digits above its exponent. *)
Lemma mag_le (p q : positive) (e1 e2 : Z) :
  (dyadic (Zpos p) e1 <= dyadic (Zpos q) e2)%R ->
  Zpos (digits2_pos p) + e1 <= Zpos (digits2_pos q) + e2.
Proof.
  intros H.
  destruct (dyadic_digits_lt p e1) as [Hlo _].
  destruct (dyadic_digits_lt q e2) as [_ Hhi].
  assert (Hlt : (bpow (Zpos (digits2_pos p) - 1 + e1)
                 < bpow (Zpos (digits2_pos q) + e2))%R) by lra.
  apply bpow_lt_inv in Hlt. lia.
Qed.

(** Values on one grid compare as their mantissas. *)
Lemma dyadic_le_same (m1 m2 e : Z) :
  (dyadic m1 e <= dyadic m2 e)%R <-> m1 <= m2.
Proof.
  unfold dyadic. pose proof (bpow_gt_0 e) as Hpos.
  split; intros H.
  - apply le_IZR. now apply Rmult_le_reg_r in H.
  - apply IZR_le in H. apply Rmult_le_compat_r; lra.
Qed.

Lemma dyadic_lt_same (m1 m2 e : Z) :
  (dyadic m1 e < dyadic m2 e)%R <-> m1 < m2.
Proof.
  unfold dyadic. pose proof (bpow_gt_0 e) as Hpos.
  split; intros H.
  - apply lt_IZR. now apply Rmult_lt_reg_r in H.
  - apply IZR_lt in H. apply Rmult_lt_compat_r; lra.
Qed.

(** A value written on a finer grid. *)
Lemma dyadic_shift (m e1 e2 : Z) :
  e1 <= e2 -> dyadic m e2 = dyadic (m * 2 ^ (e2 - e1)) e1.
Proof.
  intros He. unfold dyadic.
  replace e2 with (e2 - e1 + e1) at 1 by lia.
  rewrite bpow_plus, (bpow_IZR (e2 - e1)) by lia.
  rewrite mult_IZR. ring.
Qed.

Lemma dyadic_nonneg (m e : Z) : 0 <= m -> (0 <= dyadic m e)%R.
Proof.
  intros Hm. unfold dyadic. apply IZR_le in Hm.
  pose proof (bpow_gt_0 e). nra.
Qed.

Lemma dyadic_pos (m e : Z) : 0 < m -> (0 < dyadic m e)%R.
Proof.
  intros Hm. unfold dyadic. apply IZR_lt in Hm.
  pose proof (bpow_gt_0 e). nra.
Qed.

(** ** Shifting right *)

(** The iteration on a [positive] is the iteration on its [nat]. *)
Lemma iter_pos_nat {A : Type} (f : A -> A) (p : positive) (x : A) :
  SpecFloat.iter_pos f p x = Nat.iter (Pos.to_nat p) f x.
Proof.
  revert x. induction p as [p IH|p IH|]; intros x.
  - change (SpecFloat.iter_pos f p~1 x)
      with (SpecFloat.iter_pos f p (SpecFloat.iter_pos f p (f x))).
    rewrite !IH, Pos2Nat.inj_xI, Nat.iter_succ_r.
    replace (2 * Pos.to_nat p)%nat with (Pos.to_nat p + Pos.to_nat p)%nat by lia.
    now rewrite Nat.iter_add.
  - change (SpecFloat.iter_pos f p~0 x)
      with (SpecFloat.iter_pos f p (SpecFloat.iter_pos f p x)).
    rewrite !IH, Pos2Nat.inj_xO.
    replace (2 * Pos.to_nat p)%nat with (Pos.to_nat p + Pos.to_nat p)%nat by lia.
    now rewrite Nat.iter_add.
  - reflexivity.
Qed.

Lemma loc_of_shr_record_exact (mrs : shr_record) :
  loc_of_shr_record mrs = loc_Exact <-> inexact mrs = false.
Proof.
  destruct mrs as [m [|] [|]]; simpl; split; intros H;
    try reflexivity; discriminate H.
Qed.

Lemma loc_of_shr_record_of_loc (m : Z) (l : location) :
  loc_of_shr_record (shr_record_of_loc m l) = l
  /\ shr_m (shr_record_of_loc m l) = m.
Proof. destruct l as [|[]]; split; reflexivity. Qed.

(** One shift halves the mantissa, and the record stays exact exactly
    when it was exact and the bit shifted out is zero. *)
Lemma shr_1_spec (mrs : shr_record) :
  0 <= shr_m mrs ->
  shr_m (shr_1 mrs) = shr_m mrs / 2
  /\ (inexact (shr_1 mrs) = false <->
      inexact mrs = false /\ shr_m mrs = shr_m (shr_1 mrs) * 2).
Proof.
  destruct mrs as [m r s]. unfold inexact. simpl. intros Hm.
  destruct m as [|[p|p|]|p]; simpl; try lia.
  - split; [reflexivity|]. tauto.
  - split; [rewrite Pos2Z.inj_xI; apply Z.div_unique with 1; lia|].
    split; [discriminate|]. intros [_ H]. lia.
  - split; [rewrite Pos2Z.inj_xO; apply Z.div_unique with 0; lia|].
    split; [intros H; split; [assumption|lia]|tauto].
  - split; [reflexivity|]. split; [discriminate|]. intros [_ H]. lia.
Qed.

Lemma shr_iter_spec (k : nat) (mrs : shr_record) :
  0 <= shr_m mrs ->
  shr_m (Nat.iter k shr_1 mrs) = shr_m mrs / 2 ^ Z.of_nat k
  /\ (inexact (Nat.iter k shr_1 mrs) = false <->
      inexact mrs = false
      /\ shr_m mrs = shr_m (Nat.iter k shr_1 mrs) * 2 ^ Z.of_nat k).
Proof.
  intros Hm. induction k as [|k [IHm IHe]].
  - simpl. rewrite Z.div_1_r. split; [reflexivity|].
    split; [intros H; split; [assumption|lia]|tauto].
  - simpl Nat.iter.
    assert (Hk : 0 <= shr_m (Nat.iter k shr_1 mrs)).
    { rewrite IHm. apply Z.div_pos; [assumption|]. apply Z.pow_pos_nonneg; lia. }
    destruct (shr_1_spec _ Hk) as [H1m H1e].
    rewrite Nat2Z.inj_succ, Z.pow_succ_r by lia.
    assert (Hpow : 0 < 2 ^ Z.of_nat k) by (apply Z.pow_pos_nonneg; lia).
    split.
    + rewrite H1m, IHm, Z.div_div by lia. f_equal. lia.
    + rewrite H1e, IHe. split.
      * intros [[He0 Hv0] Hv]. split; [assumption|]. rewrite Hv0, Hv. ring.
      * intros [He0 Hv0]. 
        assert (Hdiv : shr_m (Nat.iter k shr_1 mrs)
                       = shr_m (shr_1 (Nat.iter k shr_1 mrs)) * 2).
        { rewrite IHm, Hv0.
          replace (shr_m (shr_1 (Nat.iter k shr_1 mrs)) * (2 * 2 ^ Z.of_nat k))
            with (shr_m (shr_1 (Nat.iter k shr_1 mrs)) * 2 * 2 ^ Z.of_nat k) by ring.
          apply Z.div_mul. lia. }
        split; [split; [assumption|]|assumption].
        rewrite Hdiv, Hv0. ring.
Qed.

(** What [shr_fexp] returns: the exponent and the mantissa cut to it. *)
Lemma shr_fexp_spec (mx ex : Z) (lx : location) :
  0 <= mx ->
  let n := fexp64 (Zdigits2 mx + ex) - ex in
  let mrs := fst (shr_fexp prec emax mx ex lx) in
  let e' := snd (shr_fexp prec emax mx ex lx) in
  0 <= shr_m mrs
  /\ (n <= 0 -> e' = ex /\ shr_m mrs = mx /\ loc_of_shr_record mrs = lx)
  /\ (0 < n ->
      e' = ex + n /\ shr_m mrs = mx / 2 ^ n
      /\ (loc_of_shr_record mrs = loc_Exact <->
          lx = loc_Exact /\ mx = shr_m mrs * 2 ^ n)).
Proof.
  intros Hm n mrs e'. subst mrs e'. unfold shr_fexp, shr.
  fold (fexp64 (Zdigits2 mx + ex)). fold n.
  destruct (loc_of_shr_record_of_loc mx lx) as [Hl Hv].
  destruct n as [|p|p] eqn:En; simpl fst; simpl snd.
  - rewrite Hv, Hl. repeat split; try assumption; lia.
  - rewrite iter_pos_nat.
    destruct (shr_iter_spec (Pos.to_nat p) (shr_record_of_loc mx lx)) as [Him Hie];
      [now rewrite Hv|].
    rewrite positive_nat_Z, Hv in Him, Hie.
    split; [rewrite Him; apply Z.div_pos; [assumption|apply Z.pow_pos_nonneg; lia]|].
    split; [lia|]. intros _.
    split; [reflexivity|]. split; [assumption|].
    rewrite loc_of_shr_record_exact, Hie, <- loc_of_shr_record_exact, Hl.
    reflexivity.
  - rewrite Hv, Hl. repeat split; try assumption; lia.
Qed.

(** Rounding to nearest keeps the mantissa or adds one to it, and keeps
    it when the location is exact. *)
Lemma round_nearest_even_bounds (m : Z) (l : location) :
  m <= round_nearest_even m l <= m + 1
  /\ (l = loc_Exact -> round_nearest_even m l = m).
Proof.
  destruct l as [|[]]; simpl; try (destruct (Z.even m)); split; try lia;
    try reflexivity; discriminate.
Qed.


(** Cutting a mantissa to the exponent of the format does not increase
    the value. *)
Lemma shr_fexp_le (mx ex : Z) (lx : location) :
  0 <= mx ->
  (dyadic (shr_m (fst (shr_fexp prec emax mx ex lx)))
          (snd (shr_fexp prec emax mx ex lx)) <= dyadic mx ex)%R.
Proof.
  intros Hm. destruct (shr_fexp_spec mx ex lx Hm) as (_ & H0 & H1).
  destruct (Z_le_gt_dec (fexp64 (Zdigits2 mx + ex) - ex) 0) as [Hn|Hn].
  - destruct (H0 Hn) as (-> & -> & _). lra.
  - destruct (H1 ltac:(lia)) as (-> & -> & _).
    set (n := fexp64 (Zdigits2 mx + ex) - ex) in *.
    rewrite (dyadic_shift _ ex (ex + n)) by lia. apply dyadic_le_same.
    replace (ex + n - ex) with n by lia.
    pose proof (Z.mul_div_le mx (2 ^ n) ltac:(apply Z.pow_pos_nonneg; lia)). lia.
Qed.

(** A number of the format has the exponent of its magnitude. *)
Lemma canonical_fexp (m : positive) (e : Z) :
  SpecFloat.bounded prec emax m e = true ->
  fexp64 (Zpos (digits2_pos m) + e) = e /\ -1074 <= e <= 971.
Proof.
  unfold SpecFloat.bounded, canonical_mantissa. intros H.
  apply andb_true_iff in H as [Hc He].
  apply Z.eqb_eq in Hc. apply Z.leb_le in He.
  fold (fexp64 (Zpos (digits2_pos m) + e)) in Hc.
  split; [assumption|]. change (emax - prec) with 971 in He.
  rewrite fexp64_eq in Hc. lia.
Qed.

Lemma fexp64_mono (a b : Z) : a <= b -> fexp64 a <= fexp64 b.
Proof. rewrite !fexp64_eq. lia. Qed.

(** The exponent a nonnegative value is rounded at is at most that of a
    number of the format above it. *)
Lemma fexp64_digits_le (mx ex : Z) (mB : positive) (eB : Z) :
  0 <= mx -> -1074 <= eB ->
  fexp64 (Zpos (digits2_pos mB) + eB) = eB ->
  (mx = 0 -> ex <= eB) ->
  (dyadic mx ex <= dyadic (Zpos mB) eB)%R ->
  fexp64 (Zdigits2 mx + ex) <= eB.
Proof.
  intros Hmx HeB Hc H0 Hle.
  destruct mx as [|p|p]; [| |lia].
  - simpl. specialize (H0 eq_refl). rewrite fexp64_eq. lia.
  - rewrite <- Hc. apply fexp64_mono. simpl. now apply mag_le.
Qed.

(** Rounding a value that is at most a number of the format gives at most
    that number. *)
Lemma binary_round_aux_le (mx ex : Z) (lx : location) (mB : positive) (eB : Z) :
  0 <= mx ->
  ex <= fexp64 (Zdigits2 mx + ex) ->
  SpecFloat.bounded prec emax mB eB = true ->
  (dyadic mx ex <= dyadic (Zpos mB) eB)%R ->
  (lx <> loc_Exact -> (dyadic mx ex < dyadic (Zpos mB) eB)%R) ->
  SFleb (binary_round_aux prec emax false mx ex lx) (S754_finite false mB eB)
  = true.
Proof.
  intros Hmx Hn HB Hle Hlt.
  destruct (canonical_fexp mB eB HB) as [HcB HeB].
  unfold binary_round_aux.
  pose proof (shr_fexp_spec mx ex lx Hmx) as H1.
  pose proof (shr_fexp_le mx ex lx Hmx) as Hval1.
  cbv zeta in H1.
  destruct (shr_fexp prec emax mx ex lx) as [mrs' e'].
  simpl fst in *; simpl snd in *.
  destruct H1 as (Hm' & H1a & H1b).
  set (n := fexp64 (Zdigits2 mx + ex) - ex) in *.
  assert (He' : e' = fexp64 (Zdigits2 mx + ex)).
  { destruct (Z_le_gt_dec n 0) as [Hn0|Hn0].
    - destruct (H1a Hn0) as (-> & _). lia.
    - destruct (H1b ltac:(lia)) as (-> & _). lia. }
  assert (He'B : e' <= eB).
  { rewrite He'. apply (fexp64_digits_le mx ex mB eB); try assumption; try lia.
    intros ->. simpl in Hn. rewrite fexp64_eq in Hn. lia. }
  assert (Hstrict : loc_of_shr_record mrs' <> loc_Exact ->
                    (dyadic (shr_m mrs') e' < dyadic (Zpos mB) eB)%R).
  { intros Hne.
    destruct lx as [|c] eqn:Elx.
    - destruct (Z_le_gt_dec n 0) as [Hn0|Hn0].
      + destruct (H1a Hn0) as (_ & _ & Hl). contradiction.
      + destruct (H1b ltac:(lia)) as (He & Hm & Hex).
        assert (Hcut : shr_m mrs' * 2 ^ n < mx).
        { destruct (Z.eq_dec mx (shr_m mrs' * 2 ^ n)) as [Heq|Hneq].
          - exfalso. apply Hne. apply Hex. now split.
          - pose proof (Z.mul_div_le mx (2 ^ n)
                          ltac:(apply Z.pow_pos_nonneg; lia)).
            rewrite Hm in *. lia. }
        assert (dyadic (shr_m mrs') e' < dyadic mx ex)%R; [|lra].
        rewrite (dyadic_shift _ ex e') by lia. apply dyadic_lt_same.
        replace (e' - ex) with n by lia. assumption.
    - assert (dyadic mx ex < dyadic (Zpos mB) eB)%R by (apply Hlt; discriminate).
      lra. }
  set (m1 := round_nearest_even (shr_m mrs') (loc_of_shr_record mrs')).
  destruct (round_nearest_even_bounds (shr_m mrs') (loc_of_shr_record mrs'))
    as [Hm1 Hm1e]. fold m1 in Hm1, Hm1e.
  assert (Hm1B : (dyadic m1 e' <= dyadic (Zpos mB) eB)%R).
  { destruct (loc_of_shr_record mrs') as [|c] eqn:El.
    - rewrite (Hm1e eq_refl). lra.
    - assert (Hs : (dyadic (shr_m mrs') e' < dyadic (Zpos mB) eB)%R)
        by (apply Hstrict; discriminate).
      rewrite (dyadic_shift (Zpos mB) e' eB) in * by lia.
      apply dyadic_lt_same in Hs. apply dyadic_le_same. lia. }
  assert (Hm1pos : 0 <= m1) by lia.
  pose proof (shr_fexp_spec m1 e' loc_Exact Hm1pos) as H2.
  pose proof (shr_fexp_le m1 e' loc_Exact Hm1pos) as Hval2.
  cbv zeta in H2.
  destruct (shr_fexp prec emax m1 e' loc_Exact) as [mrs'' e''].
  simpl fst in *; simpl snd in *.
  destruct H2 as (Hm'' & H2a & H2b).
  assert (He''B : e'' <= eB).
  { destruct (Z_le_gt_dec (fexp64 (Zdigits2 m1 + e') - e') 0) as [Hn0|Hn0].
    - destruct (H2a Hn0) as (-> & _). assumption.
    - destruct (H2b ltac:(lia)) as (-> & _).
      replace (e' + (fexp64 (Zdigits2 m1 + e') - e'))
        with (fexp64 (Zdigits2 m1 + e')) by lia.
      apply (fexp64_digits_le m1 e' mB eB); try assumption; lia. }
  destruct (shr_m mrs'') as [|m''|m''] eqn:Em''; [reflexivity| |lia].
  change (emax - prec) with 971.
  destruct (Z.leb_spec e'' 971) as [_|Hbig]; [|lia].
  unfold SFleb, SFcompare.
  change (PosDef.Pos.compare_cont Eq m'' mB) with (Pos.compare m'' mB).
  destruct (Z.compare_spec e'' eB) as [Heq|Hlt'|Hgt]; [|reflexivity|lia].
  subst e''.
  assert (Hmm : Zpos m'' <= Zpos mB) by (apply (dyadic_le_same _ _ eB); lra).
  destruct (Pos.compare_spec m'' mB); try reflexivity. lia.
Qed.

(** Rounding keeps the sign, and gives a number or an infinity. *)
Lemma binary_round_aux_sign (sx : bool) (mx ex : Z) (lx : location) :
  0 <= mx ->
  match binary_round_aux prec emax sx mx ex lx with
  | S754_zero s | S754_infinity s | S754_finite s _ _ => s = sx
  | S754_nan => False
  end.
Proof.
  intros Hmx. unfold binary_round_aux.
  pose proof (shr_fexp_spec mx ex lx Hmx) as H1. cbv zeta in H1.
  destruct (shr_fexp prec emax mx ex lx) as [mrs' e'].
  simpl fst in *; simpl snd in *. destruct H1 as (Hm' & _).
  destruct (round_nearest_even_bounds (shr_m mrs') (loc_of_shr_record mrs'))
    as [Hm1 _].
  pose proof (shr_fexp_spec (round_nearest_even (shr_m mrs') (loc_of_shr_record mrs'))
                e' loc_Exact ltac:(lia)) as H2. cbv zeta in H2.
  destruct (shr_fexp prec emax _ e' loc_Exact) as [mrs'' e''].
  simpl fst in *; simpl snd in *. destruct H2 as (Hm'' & _).
  destruct (shr_m mrs''); [reflexivity| |lia].
  destruct (e'' <=? emax - prec); reflexivity.
Qed.


(** ** The value of a number of the format *)

Lemma SF2R_nonneg (x : spec_float) : nonneg_finite x -> (0 <= SF2R x)%R.
Proof.
  destruct x as [s|s| |[|] m e]; simpl; try tauto; try lra.
  intros _. apply dyadic_nonneg. lia.
Qed.

(** Of two numbers of the format, the one with the smaller exponent is
    the smaller one. *)
Lemma canonical_lt (m1 m2 : positive) (e1 e2 : Z) :
  SpecFloat.bounded prec emax m1 e1 = true ->
  SpecFloat.bounded prec emax m2 e2 = true ->
  e1 < e2 -> (dyadic (Zpos m1) e1 < dyadic (Zpos m2) e2)%R.
Proof.
  intros H1 H2 He.
  destruct (canonical_fexp m1 e1 H1) as [Hc1 Hr1].
  destruct (canonical_fexp m2 e2 H2) as [Hc2 Hr2].
  rewrite fexp64_eq in Hc1, Hc2.
  destruct (dyadic_digits_lt m1 e1) as [_ Hhi].
  destruct (dyadic_digits_lt m2 e2) as [Hlo _].
  assert (Hle : (bpow (Zpos (digits2_pos m1) + e1)
                 <= bpow (Zpos (digits2_pos m2) - 1 + e2))%R)
    by (apply bpow_le; lia).
  lra.
Qed.

(** On numbers of the format that are not negative, the comparison is
    that of the values. *)
Lemma SFleb_SF2R (x y : spec_float) :
  valid_binary x = true -> valid_binary y = true ->
  nonneg_finite x -> nonneg_finite y ->
  SFleb x y = true <-> (SF2R x <= SF2R y)%R.
Proof.
  intros Vx Vy Nx Ny.
  destruct x as [sx|sx| |[|] mx ex], y as [sy|sy| |[|] my ey];
    simpl in Nx, Ny; try tauto; simpl SF2R.
  - split; [lra|reflexivity].
  - split; [intros _; apply dyadic_nonneg; lia|reflexivity].
  - split; [discriminate|].
    intros H. pose proof (dyadic_pos (Zpos mx) ex ltac:(lia)). lra.
  - simpl in Vx, Vy. unfold SFleb, SFcompare.
    change (PosDef.Pos.compare_cont Eq mx my) with (Pos.compare mx my).
    destruct (Z.compare_spec ex ey) as [Heq|Hlt|Hgt].
    + subst ey. rewrite dyadic_le_same.
      destruct (Pos.compare_spec mx my) as [Hc|Hc|Hc]; split; intros H;
        try reflexivity; try discriminate; lia.
    + pose proof (canonical_lt mx my ex ey Vx Vy Hlt).
      split; [lra|reflexivity].
    + pose proof (canonical_lt my mx ey ex Vy Vx Hgt).
      split; [discriminate|lra].
Qed.

Lemma SFltb_SF2R (x y : spec_float) :
  valid_binary x = true -> valid_binary y = true ->
  nonneg_finite x -> nonneg_finite y ->
  SFltb x y = true <-> (SF2R x < SF2R y)%R.
Proof.
  intros Vx Vy Nx Ny.
  destruct x as [sx|sx| |[|] mx ex], y as [sy|sy| |[|] my ey];
    simpl in Nx, Ny; try tauto; simpl SF2R.
  - split; [discriminate|lra].
  - split; [intros _; apply dyadic_pos; lia|reflexivity].
  - split; [discriminate|].
    intros H. pose proof (dyadic_pos (Zpos mx) ex ltac:(lia)). lra.
  - simpl in Vx, Vy. unfold SFltb, SFcompare.
    change (PosDef.Pos.compare_cont Eq mx my) with (Pos.compare mx my).
    destruct (Z.compare_spec ex ey) as [Heq|Hlt|Hgt].
    + subst ey. rewrite dyadic_lt_same.
      destruct (Pos.compare_spec mx my) as [Hc|Hc|Hc]; split; intros H;
        try reflexivity; try discriminate; lia.
    + pose proof (canonical_lt mx my ex ey Vx Vy Hlt).
      split; [lra|reflexivity].
    + pose proof (canonical_lt my mx ey ex Vy Vx Hgt).
      split; [discriminate|lra].
Qed.


(** ** Rounding an integer mantissa *)

(** Shifting a mantissa left multiplies it by a power of two. *)
Lemma pos_iter_xO (m d : positive) :
  Zpos (Pos.iter xO m d) = Zpos m * 2 ^ Zpos d.
Proof.
  revert m. induction d as [|d IH] using Pos.peano_ind; intros m.
  - simpl. lia.
  - rewrite Pos.iter_succ, Pos2Z.inj_xO, IH, Pos2Z.inj_succ, Z.pow_succ_r by lia.
    ring.
Qed.

Lemma shl_align_spec (mx : positive) (ex ex' : Z) :
  snd (shl_align mx ex ex') = Z.min ex ex'
  /\ dyadic (Zpos (fst (shl_align mx ex ex'))) (snd (shl_align mx ex ex'))
     = dyadic (Zpos mx) ex.
Proof.
  unfold shl_align.
  destruct (ex' - ex) as [|d|d] eqn:Ed; simpl fst; simpl snd.
  - split; [lia|reflexivity].
  - split; [lia|reflexivity].
  - split; [lia|].
    rewrite (dyadic_shift (Zpos mx) ex' ex) by lia.
    rewrite pos_iter_xO. do 2 f_equal. f_equal. lia.
Qed.

(** Two writings of one value have the same number of digits above the
    exponent. *)
Lemma mag_eq (p q : positive) (e1 e2 : Z) :
  dyadic (Zpos p) e1 = dyadic (Zpos q) e2 ->
  Zpos (digits2_pos p) + e1 = Zpos (digits2_pos q) + e2.
Proof.
  intros H.
  pose proof (mag_le p q e1 e2 ltac:(lra)).
  pose proof (mag_le q p e2 e1 ltac:(lra)). lia.
Qed.

Lemma binary_round_le (mx : positive) (ex : Z) (mB : positive) (eB : Z) :
  SpecFloat.bounded prec emax mB eB = true ->
  (dyadic (Zpos mx) ex <= dyadic (Zpos mB) eB)%R ->
  SFleb (binary_round prec emax false mx ex) (S754_finite false mB eB) = true.
Proof.
  intros HB Hle. unfold binary_round.
  fold (fexp64 (Zpos (digits2_pos mx) + ex)).
  destruct (shl_align_spec mx ex (fexp64 (Zpos (digits2_pos mx) + ex)))
    as [He Hv].
  destruct (shl_align mx ex (fexp64 (Zpos (digits2_pos mx) + ex))) as [mz ez].
  simpl fst in *; simpl snd in *.
  apply binary_round_aux_le; try assumption; try lia.
  - simpl Zdigits2. rewrite (mag_eq mz mx ez ex Hv). lia.
  - now rewrite Hv.
  - intros H. now destruct H.
Qed.

Lemma binary_round_sign (sx : bool) (mx : positive) (ex : Z) :
  match binary_round prec emax sx mx ex with
  | S754_zero s | S754_infinity s | S754_finite s _ _ => s = sx
  | S754_nan => False
  end.
Proof.
  unfold binary_round.
  destruct (shl_align mx ex _) as [mz ez].
  apply binary_round_aux_sign. lia.
Qed.

(** A result that is not negative and is at most a number is a number. *)
Lemma nonneg_of_sign_le (r B : spec_float) :
  match r with
  | S754_zero s | S754_infinity s | S754_finite s _ _ => s = false
  | S754_nan => False
  end ->
  nonneg_finite B -> SFleb r B = true -> nonneg_finite r.
Proof.
  destruct r as [s|s| |s m e], B as [sB|sB| |[|] mB eB]; simpl;
    try tauto; intros ->; try tauto; discriminate.
Qed.

(** ** The four operations on numbers that are not negative *)

(** A number of the format has at most 53 digits, and exactly 53 unless
    its exponent is the smallest one. *)
Lemma valid_digits (m : positive) (e : Z) :
  SpecFloat.bounded prec emax m e = true ->
  Zpos (digits2_pos m) <= 53
  /\ (Zpos (digits2_pos m) = 53 \/ e = -1074)
  /\ -1074 <= e <= 971.
Proof.
  intros H. destruct (canonical_fexp m e H) as [Hc Hr].
  rewrite fexp64_eq in Hc. lia.
Qed.

Lemma digits2_pos_mul (p q : positive) :
  Zpos (digits2_pos p) + Zpos (digits2_pos q) - 1 <= Zpos (digits2_pos (p * q)).
Proof.
  destruct (digits2_pos_bounds p) as [Hp _].
  destruct (digits2_pos_bounds q) as [Hq _].
  destruct (digits2_pos_bounds (p * q)) as [_ Hpq].
  rewrite Pos2Z.inj_mul in Hpq.
  assert (Hlo : 2 ^ (Zpos (digits2_pos p) - 1) * 2 ^ (Zpos (digits2_pos q) - 1)
                <= Zpos p * Zpos q).
  { apply Z.mul_le_mono_nonneg; try assumption; apply Z.pow_nonneg; lia. }
  rewrite <- Z.pow_add_r in Hlo by lia.
  assert (Hlt : 2 ^ (Zpos (digits2_pos p) - 1 + (Zpos (digits2_pos q) - 1))
                < 2 ^ Zpos (digits2_pos (p * q))) by lia.
  apply Z.pow_lt_mono_r_iff in Hlt; lia.
Qed.

Lemma dyadic_mul (m1 m2 e1 e2 : Z) :
  dyadic (m1 * m2) (e1 + e2) = (dyadic m1 e1 * dyadic m2 e2)%R.
Proof. unfold dyadic. rewrite mult_IZR, bpow_plus. ring. Qed.

Lemma dyadic_add (m1 m2 e : Z) :
  dyadic (m1 + m2) e = (dyadic m1 e + dyadic m2 e)%R.
Proof. unfold dyadic. rewrite plus_IZR. ring. Qed.

Lemma dyadic_sub (m1 m2 e : Z) :
  dyadic (m1 - m2) e = (dyadic m1 e - dyadic m2 e)%R.
Proof. unfold dyadic. rewrite minus_IZR. ring. Qed.

(** The product of a number that is not negative and a positive number is
    at most a number above the product of the values. *)
Lemma SFmul_le (x : spec_float) (mc : positive) (ec : Z) (mB : positive) (eB : Z) :
  valid_binary x = true -> nonneg_finite x ->
  SpecFloat.bounded prec emax mc ec = true ->
  SpecFloat.bounded prec emax mB eB = true ->
  (SF2R x * dyadic (Zpos mc) ec <= dyadic (Zpos mB) eB)%R ->
  nonneg_finite (SF64mul x (S754_finite false mc ec))
  /\ SFleb (SF64mul x (S754_finite false mc ec)) (S754_finite false mB eB) = true.
Proof.
  intros Vx Nx Hc HB Hle.
  destruct x as [sx|sx| |[|] mx ex]; simpl in Nx; try contradiction.
  - split; [exact I|reflexivity].
  - unfold SF64mul, SFmul. simpl xorb. simpl SF2R in Hle. simpl in Vx.
    assert (Hr : SFleb (binary_round_aux prec emax false (Zpos (mx * mc)) (ex + ec)
                          loc_Exact) (S754_finite false mB eB) = true).
    { apply binary_round_aux_le; try assumption; try lia.
      - destruct (valid_digits mx ex Vx) as (Hd1 & Hn1 & Hr1).
        destruct (valid_digits mc ec Hc) as (Hd2 & Hn2 & Hr2).
        pose proof (digits2_pos_mul mx mc).
        pose proof (Pos2Z.is_pos (digits2_pos mx)).
        pose proof (Pos2Z.is_pos (digits2_pos mc)).
        simpl Zdigits2. rewrite fexp64_eq. lia.
      - rewrite Pos2Z.inj_mul, dyadic_mul. assumption.
      - intros H. now destruct H. }
    split; [|assumption].
    apply (nonneg_of_sign_le _ (S754_finite false mB eB));
      [apply binary_round_aux_sign; lia|exact I|assumption].
Qed.


(** Rounding a positive integer mantissa stays at most a number of the
    format above its value. *)
Lemma binary_normalize_pos_le (m e : Z) (mB : positive) (eB : Z) :
  0 < m ->
  SpecFloat.bounded prec emax mB eB = true ->
  (dyadic m e <= dyadic (Zpos mB) eB)%R ->
  nonneg_finite (binary_normalize prec emax m e false)
  /\ SFleb (binary_normalize prec emax m e false) (S754_finite false mB eB) = true.
Proof.
  intros Hm HB Hle. destruct m as [|p|p]; try lia. simpl binary_normalize.
  pose proof (binary_round_le p e mB eB HB Hle) as Hr.
  split; [|assumption].
  apply (nonneg_of_sign_le _ (S754_finite false mB eB));
    [apply binary_round_sign|exact I|assumption].
Qed.

(** The two mantissas of an addition, on the grid of the smaller
    exponent. *)
Lemma shl_align_min (mx : positive) (ex ey : Z) :
  dyadic (Zpos (fst (shl_align mx ex (Z.min ex ey)))) (Z.min ex ey)
  = dyadic (Zpos mx) ex.
Proof.
  destruct (shl_align_spec mx ex (Z.min ex ey)) as [He Hv].
  rewrite <- Hv. f_equal. lia.
Qed.

Lemma SFleb_of_value (x : spec_float) (mB : positive) (eB : Z) :
  valid_binary x = true -> nonneg_finite x ->
  SpecFloat.bounded prec emax mB eB = true ->
  (SF2R x <= dyadic (Zpos mB) eB)%R ->
  SFleb x (S754_finite false mB eB) = true.
Proof.
  intros Vx Nx HB Hle.
  apply (SFleb_SF2R x (S754_finite false mB eB)); try assumption. exact I.
Qed.

(** The sum of two numbers that are not negative is at most a number
    above the sum of the values. *)
Lemma SFadd_le (x y : spec_float) (mB : positive) (eB : Z) :
  valid_binary x = true -> valid_binary y = true ->
  nonneg_finite x -> nonneg_finite y ->
  SpecFloat.bounded prec emax mB eB = true ->
  (SF2R x + SF2R y <= dyadic (Zpos mB) eB)%R ->
  nonneg_finite (SF64add x y)
  /\ SFleb (SF64add x y) (S754_finite false mB eB) = true.
Proof.
  intros Vx Vy Nx Ny HB Hle.
  destruct x as [sx|sx| |[|] mx ex]; simpl in Nx; try contradiction;
    destruct y as [sy|sy| |[|] my ey]; simpl in Ny; try contradiction.
  - split; [destruct sx, sy; exact I|destruct sx, sy; reflexivity].
  - split; [exact I|]. apply SFleb_of_value; try assumption; try exact I.
    simpl SF2R in *. lra.
  - split; [exact I|]. apply SFleb_of_value; try assumption; try exact I.
    simpl SF2R in *. lra.
  - unfold SF64add, SFadd. simpl cond_Zopp.
    apply binary_normalize_pos_le; try assumption; [lia|].
    rewrite dyadic_add, !shl_align_min.
    rewrite (Z.min_comm ex ey), shl_align_min. exact Hle.
Qed.

(** A positive number minus a smaller number that is not negative. *)
Lemma SFsub_le (mc : positive) (ec : Z) (x : spec_float) (mB : positive) (eB : Z) :
  SpecFloat.bounded prec emax mc ec = true ->
  valid_binary x = true -> nonneg_finite x ->
  SpecFloat.bounded prec emax mB eB = true ->
  (SF2R x < dyadic (Zpos mc) ec)%R ->
  (dyadic (Zpos mc) ec - SF2R x <= dyadic (Zpos mB) eB)%R ->
  nonneg_finite (SF64sub (S754_finite false mc ec) x)
  /\ SFleb (SF64sub (S754_finite false mc ec) x) (S754_finite false mB eB) = true.
Proof.
  intros Hc Vx Nx HB Hlt Hle.
  destruct x as [sx|sx| |[|] mx ex]; simpl in Nx; try contradiction.
  - split; [exact I|]. apply SFleb_of_value; try assumption; try exact I.
    simpl SF2R in *. lra.
  - unfold SF64sub, SFsub. simpl cond_Zopp. simpl SF2R in *.
    assert (Hv : dyadic (Zpos (fst (shl_align mc ec (Z.min ec ex)))
                         - Zpos (fst (shl_align mx ex (Z.min ec ex)))) (Z.min ec ex)
                 = (dyadic (Zpos mc) ec - dyadic (Zpos mx) ex)%R).
    { rewrite dyadic_sub, shl_align_min.
      rewrite (Z.min_comm ec ex), shl_align_min. reflexivity. }
    apply binary_normalize_pos_le; try assumption; [|rewrite Hv; exact Hle].
    apply (dyadic_lt_same 0 _ (Z.min ec ex)). rewrite Hv.
    unfold dyadic at 1. lra.
Qed.


(** A positive number is at most itself. *)
Lemma SFleb_refl_finite (m : positive) (e : Z) :
  SFleb (S754_finite false m e) (S754_finite false m e) = true.
Proof.
  unfold SFleb, SFcompare. now rewrite Z.compare_refl, Pos.compare_cont_refl.
Qed.

(** A positive number minus a number that is not negative, or minus plus
    infinity: the result is a number between zero and the first one, or
    it is not above zero. *)
Lemma SFsub_const_ext (mc : positive) (ec : Z) (w : spec_float) :
  SpecFloat.bounded prec emax mc ec = true ->
  valid_binary w = true -> nonneg_ext w ->
  (nonneg_finite (SF64sub (S754_finite false mc ec) w)
   /\ SFleb (SF64sub (S754_finite false mc ec) w) (S754_finite false mc ec) = true)
  \/ SFltb (S754_zero false) (SF64sub (S754_finite false mc ec) w) = false.
Proof.
  intros Hc Vw Nw.
  destruct w as [sw|[|]| |[|] mw ew]; simpl in Nw; try contradiction.
  - left. split; [exact I|apply SFleb_refl_finite].
  - right. reflexivity.
  - destruct (Rlt_le_dec (dyadic (Zpos mw) ew) (dyadic (Zpos mc) ec)) as [Hlt|Hge].
    + left. apply SFsub_le; try assumption; try exact I; simpl SF2R.
      pose proof (dyadic_pos (Zpos mw) ew ltac:(lia)). lra.
    + unfold SF64sub, SFsub. simpl cond_Zopp.
      assert (Hv : dyadic (Zpos (fst (shl_align mc ec (Z.min ec ew)))
                           - Zpos (fst (shl_align mw ew (Z.min ec ew)))) (Z.min ec ew)
                   = (dyadic (Zpos mc) ec - dyadic (Zpos mw) ew)%R).
      { rewrite dyadic_sub, shl_align_min.
        rewrite (Z.min_comm ec ew), shl_align_min. reflexivity. }
      assert (Hm : Zpos (fst (shl_align mc ec (Z.min ec ew)))
                   - Zpos (fst (shl_align mw ew (Z.min ec ew))) <= 0).
      { apply (dyadic_le_same _ 0 (Z.min ec ew)). rewrite Hv.
        unfold dyadic at 3. lra. }
      destruct (Zpos (fst (shl_align mc ec (Z.min ec ew)))
                - Zpos (fst (shl_align mw ew (Z.min ec ew)))) as [|p|p];
        try lia; simpl binary_normalize.
      * left. split; [exact I|reflexivity].
      * right. pose proof (binary_round_sign true p (Z.min ec ew)) as Hs.
        destruct (binary_round prec emax true p (Z.min ec ew)) as [s|s| |s m e];
          try contradiction; subst s; reflexivity.
Qed.

(** A number above a positive number, minus that number. *)
Lemma SFsub_pos_ext (v : spec_float) (mt : positive) (et : Z) :
  valid_binary v = true -> nonneg_ext v ->
  SpecFloat.bounded prec emax mt et = true ->
  SFltb (S754_finite false mt et) v = true ->
  nonneg_ext (SF64sub v (S754_finite false mt et)).
Proof.
  intros Vv Nv Ht Hlt.
  destruct v as [sv|[|]| |[|] mv ev]; simpl in Nv; try contradiction.
  - discriminate Hlt.
  - exact I.
  - apply (SFltb_SF2R (S754_finite false mt et) (S754_finite false mv ev))
      in Hlt; try assumption; try exact I.
    simpl SF2R in Hlt.
    unfold SF64sub, SFsub. simpl cond_Zopp.
    assert (Hv : dyadic (Zpos (fst (shl_align mv ev (Z.min ev et)))
                         - Zpos (fst (shl_align mt et (Z.min ev et)))) (Z.min ev et)
                 = (dyadic (Zpos mv) ev - dyadic (Zpos mt) et)%R).
    { rewrite dyadic_sub, shl_align_min.
      rewrite (Z.min_comm ev et), shl_align_min. reflexivity. }
    assert (Hm : 0 < Zpos (fst (shl_align mv ev (Z.min ev et)))
                     - Zpos (fst (shl_align mt et (Z.min ev et)))).
    { apply (dyadic_lt_same 0 _ (Z.min ev et)). rewrite Hv.
      unfold dyadic at 1. lra. }
    destruct (Zpos (fst (shl_align mv ev (Z.min ev et)))
              - Zpos (fst (shl_align mt et (Z.min ev et)))) as [|p|p];
      try lia; simpl binary_normalize.
    pose proof (binary_round_sign false p (Z.min ev et)) as Hs.
    destruct (binary_round prec emax false p (Z.min ev et)) as [s|s| |s m e];
      try contradiction; subst s; exact I.
Qed.

(** A number that is not negative, or plus infinity, times a positive
    number. *)
Lemma SFmul_ext (w : spec_float) (mr : positive) (er : Z) :
  nonneg_ext w -> nonneg_ext (SF64mul w (S754_finite false mr er)).
Proof.
  intros Nw.
  destruct w as [sw|[|]| |[|] mw ew]; simpl in Nw; try contradiction;
    try exact I.
  unfold SF64mul, SFmul. simpl xorb.
  pose proof (binary_round_aux_sign false (Zpos (mw * mr)) (ew + er) loc_Exact
                ltac:(lia)) as Hs.
  destruct (binary_round_aux prec emax false _ _ _) as [s|s| |s m e];
    try contradiction; subst s; exact I.
Qed.

(** ** Division *)

(** A remainder of zero is located as exact. *)
Lemma new_location_exact (nb_steps k : Z) :
  new_location nb_steps k <> loc_Exact -> k <> 0.
Proof.
  unfold new_location, new_location_even, new_location_odd.
  intros H ->. apply H. destruct (Z.even nb_steps); reflexivity.
Qed.

Lemma Zdigits2_ge (q k : Z) : 0 <= q -> 0 <= k -> 2 ^ k <= q -> k + 1 <= Zdigits2 q.
Proof.
  intros Hq Hk Hle.
  destruct q as [|p|p].
  - pose proof (Z.pow_pos_nonneg 2 k ltac:(lia) Hk). lia.
  - simpl. destruct (digits2_pos_bounds p) as [_ Hhi].
    assert (Hlt : 2 ^ k < 2 ^ Zpos (digits2_pos p)) by lia.
    apply Z.pow_lt_mono_r_iff in Hlt; lia.
  - lia.
Qed.

Lemma Zdigits2_nonneg (q : Z) : 0 <= Zdigits2 q.
Proof. destruct q; simpl; lia. Qed.

(** The quotient of the division of the mantissas: it is not above the
    quotient of the values, it is below it when the location is not
    exact, and it has enough digits to be rounded. *)
Lemma SFdiv_core_binary_spec (mx : positive) (ex : Z) (my : positive) (ey : Z) :
  let '(q, e', l) := SFdiv_core_binary prec emax (Zpos mx) ex (Zpos my) ey in
  0 <= q
  /\ e' <= fexp64 (Zdigits2 q + e')
  /\ (dyadic q e' * dyadic (Zpos my) ey <= dyadic (Zpos mx) ex)%R
  /\ (l <> loc_Exact ->
      (dyadic q e' * dyadic (Zpos my) ey < dyadic (Zpos mx) ex)%R).
Proof.
  unfold SFdiv_core_binary. simpl Zdigits2.
  set (d1 := Zpos (digits2_pos mx)). set (d2 := Zpos (digits2_pos my)).
  fold (fexp64 (d1 + ex - (d2 + ey))).
  set (e' := Z.min (fexp64 (d1 + ex - (d2 + ey))) (ex - ey)).
  set (s := ex - ey - e').
  assert (Hs : 0 <= s) by (unfold s, e'; lia).
  set (m' := match s with
             | 0 => Zpos mx
             | Zpos _ => Z.shiftl (Zpos mx) s
             | Zneg _ => 0
             end).
  assert (Hm' : m' = Zpos mx * 2 ^ s).
  { unfold m'. destruct s as [|p|p] eqn:Es; [simpl; lia| |lia].
    now rewrite Z.shiftl_mul_pow2 by lia. }
  pose proof (Z_div_mod m' (Zpos my) ltac:(lia)) as Hdiv.
  destruct (Z.div_eucl m' (Zpos my)) as [q r]. destruct Hdiv as [Hqr Hr].
  assert (Hpow : 0 < 2 ^ s) by (apply Z.pow_pos_nonneg; lia).
  assert (Hq : 0 <= q) by nia.
  assert (Hval : dyadic m' (e' + ey) = dyadic (Zpos mx) ex).
  { rewrite Hm'. rewrite (dyadic_shift (Zpos mx) (e' + ey) ex) by (unfold s in Hs; lia).
    do 2 f_equal. f_equal. unfold s. lia. }
  split; [assumption|]. split; [|split].
  - (* enough digits *)
    assert (Hdig : d1 + s - d2 <= Zdigits2 q).
    { destruct (Z_lt_le_dec (d1 - 1 + s - d2) 0) as [Hneg|Hnn].
      - pose proof (Zdigits2_nonneg q). lia.
      - assert (H2k : 2 ^ (d1 - 1 + s - d2) <= q).
        { destruct (Z_lt_le_dec q (2 ^ (d1 - 1 + s - d2))) as [Hlt|Hle];
            [exfalso|assumption].
          destruct (digits2_pos_bounds mx) as [Hlo1 _].
          destruct (digits2_pos_bounds my) as [_ Hhi2].
          fold d1 in Hlo1. fold d2 in Hhi2.
          assert (Hm'lo : 2 ^ (d1 - 1 + s) <= m').
          { rewrite Hm', Z.pow_add_r by (unfold d1; lia).
            apply Z.mul_le_mono_nonneg_r; lia. }
          assert (Hsplit : 2 ^ (d1 - 1 + s) = 2 ^ (d1 - 1 + s - d2) * 2 ^ d2).
          { rewrite <- Z.pow_add_r by (unfold d2; lia). f_equal. lia. }
          assert (Hup : m' < 2 ^ (d1 - 1 + s - d2) * 2 ^ d2) by nia.
          lia. }
        pose proof (Zdigits2_ge q (d1 - 1 + s - d2) Hq Hnn H2k). lia. }
    assert (He'1 : e' <= fexp64 (d1 + ex - (d2 + ey))) by (unfold e'; lia).
    assert (Hmono : fexp64 (d1 + ex - (d2 + ey)) <= fexp64 (Zdigits2 q + e')).
    { apply fexp64_mono. unfold s in Hdig. lia. }
    lia.
  - rewrite <- Hval, <- dyadic_mul. apply dyadic_le_same. nia.
  - intros Hl. apply new_location_exact in Hl.
    rewrite <- Hval, <- dyadic_mul. apply dyadic_lt_same. nia.
Qed.

(** The quotient of a number that is not negative by a positive number is
    at most a number whose product with the divisor is above the
    dividend. *)
Lemma SFdiv_le (x : spec_float) (mc : positive) (ec : Z) (mB : positive) (eB : Z) :
  valid_binary x = true -> nonneg_finite x ->
  SpecFloat.bounded prec emax mB eB = true ->
  (SF2R x <= dyadic (Zpos mB) eB * dyadic (Zpos mc) ec)%R ->
  nonneg_finite (SF64div x (S754_finite false mc ec))
  /\ SFleb (SF64div x (S754_finite false mc ec)) (S754_finite false mB eB) = true.
Proof.
  intros Vx Nx HB Hle.
  destruct x as [sx|sx| |[|] mx ex]; simpl in Nx; try contradiction.
  - split; [exact I|reflexivity].
  - unfold SF64div, SFdiv. simpl xorb. simpl SF2R in Hle.
    pose proof (SFdiv_core_binary_spec mx ex mc ec) as Hcore.
    destruct (SFdiv_core_binary prec emax (Zpos mx) ex (Zpos mc) ec) as [[q e'] l].
    destruct Hcore as (Hq & Hfexp & Hval & Hstrict).
    pose proof (dyadic_pos (Zpos mc) ec ltac:(lia)) as Hcpos.
    assert (Hr : SFleb (binary_round_aux prec emax false q e' l)
                   (S754_finite false mB eB) = true).
    { apply binary_round_aux_le; try assumption.
      - apply (Rmult_le_reg_r (dyadic (Zpos mc) ec)); [assumption|lra].
      - intros Hl. specialize (Hstrict Hl).
        apply (Rmult_lt_reg_r (dyadic (Zpos mc) ec)); [assumption|lra]. }
    split; [|assumption].
    apply (nonneg_of_sign_le _ (S754_finite false mB eB));
      [apply binary_round_aux_sign; assumption|exact I|assumption].
Qed.

End Binary64.

(** ** Ranges of primitive floats *)

Module FloatRange.
Import FloatValue Binary64.

Lemma pos_finite_nonneg (x : spec_float) : pos_finite x -> nonneg_finite x.
Proof. destruct x as [s|s| |[|] m e]; simpl; tauto. Qed.

Lemma representable_float (c : float) :
  pos_finite (Prim2SF c) -> representable (SF2R (Prim2SF c)).
Proof.
  intros Hc. pose proof (Prim2SF_valid c) as Hv.
  destruct (Prim2SF c) as [s|s| |[|] m e]; simpl in Hc; try contradiction.
  exists m, e. split; [exact Hv|reflexivity].
Qed.

(** The value of a mantissa that is an integer scaled to its exponent. *)
Lemma dyadic_int (m e n : Z) :
  (e <= 0)%Z -> m = (n * 2 ^ (- e))%Z -> dyadic m e = IZR n.
Proof.
  intros He ->. replace (- e)%Z with (0 - e)%Z by lia.
  rewrite <- (dyadic_shift n e 0) by lia.
  unfold dyadic, bpow. simpl. ring.
Qed.

(** The value of a float constant that is an integer. *)
Ltac float_value c :=
  let x := eval vm_compute in (Prim2SF c) in
  change (Prim2SF c) with x; simpl SF2R; apply dyadic_int;
  [lia | vm_compute; reflexivity].

Lemma value_1 : SF2R (Prim2SF 1) = 1%R.
Proof. float_value 1%float. Qed.

Lemma value_20 : SF2R (Prim2SF 20) = 20%R.
Proof. float_value 20%float. Qed.

Lemma value_80 : SF2R (Prim2SF 80) = 80%R.
Proof. float_value 80%float. Qed.

Lemma value_100 : SF2R (Prim2SF 100) = 100%R.
Proof. float_value 100%float. Qed.

(** From comparisons to a range and back. *)
Lemma leb_zero_nonneg_ext (x : float) :
  PrimFloat.leb 0 x = true -> nonneg_ext (Prim2SF x).
Proof.
  rewrite leb_spec. change (Prim2SF 0) with (S754_zero false).
  destruct (Prim2SF x) as [s|[|]| |[|] m e]; simpl; try discriminate; tauto.
Qed.

Lemma leb_in_range (x b : float) :
  PrimFloat.leb 0 x = true -> PrimFloat.leb x b = true ->
  nonneg_finite (Prim2SF b) ->
  in_range x (SF2R (Prim2SF b)).
Proof.
  intros H0 Hb Nb. apply leb_zero_nonneg_ext in H0.
  rewrite leb_spec in Hb.
  assert (Nx : nonneg_finite (Prim2SF x)).
  { destruct (Prim2SF x) as [s|[|]| |[|] m e]; simpl in H0; try contradiction;
      try exact I.
    destruct (Prim2SF b) as [sb|sb| |[|] mb eb]; simpl in Nb; try contradiction;
      discriminate Hb. }
  split; [assumption|].
  apply SFleb_SF2R; try assumption; apply Prim2SF_valid.
Qed.

Lemma in_range_leb (x b : float) :
  pos_finite (Prim2SF b) ->
  in_range x (SF2R (Prim2SF b)) ->
  PrimFloat.leb 0 x = true /\ PrimFloat.leb x b = true.
Proof.
  intros Pb [Nx Hv]. rewrite !leb_spec. change (Prim2SF 0) with (S754_zero false).
  split.
  - destruct (Prim2SF x) as [s|s| |[|] m e]; simpl in Nx; try contradiction;
      reflexivity.
  - apply SFleb_SF2R; try assumption; try apply Prim2SF_valid.
    now apply pos_finite_nonneg.
Qed.

(** The operations on ranges. *)
Lemma in_range_add (a b : float) (A B : R) :
  in_range a A -> in_range b B -> representable (A + B) ->
  in_range (a + b) (A + B).
Proof.
  intros [Na Ha] [Nb Hb] (m & e & Hm & Hr).
  destruct (SFadd_le (Prim2SF a) (Prim2SF b) m e) as [Nr Hle];
    try assumption; try apply Prim2SF_valid; [lra|].
  unfold in_range. rewrite add_spec. split; [assumption|].
  rewrite <- Hr.
  apply (SFleb_SF2R _ (S754_finite false m e)) in Hle; try assumption;
    try exact I.
  rewrite <- add_spec. apply Prim2SF_valid.
Qed.

Lemma in_range_mul (a c : float) (A : R) :
  in_range a A -> pos_finite (Prim2SF c) ->
  representable (A * SF2R (Prim2SF c)) ->
  in_range (a * c) (A * SF2R (Prim2SF c)).
Proof.
  intros [Na Ha] Pc (m & e & Hm & Hr).
  pose proof (Prim2SF_valid c) as Vc.
  unfold in_range. rewrite mul_spec.
  destruct (Prim2SF c) as [s|s| |[|] mc ec] eqn:Ec; simpl in Pc;
    try contradiction.
  simpl SF2R in *.
  pose proof (dyadic_pos (Zpos mc) ec ltac:(lia)) as Hcpos.
  destruct (SFmul_le (Prim2SF a) mc ec m e) as [Nr Hle];
    try assumption; try apply Prim2SF_valid.
  { rewrite Hr. apply Rmult_le_compat_r; lra. }
  split; [assumption|]. rewrite <- Hr.
  apply (SFleb_SF2R _ (S754_finite false m e)) in Hle; try assumption;
    try exact I.
  rewrite <- Ec, <- mul_spec. apply Prim2SF_valid.
Qed.

Lemma in_range_div (a c : float) (A B : R) :
  in_range a A -> pos_finite (Prim2SF c) ->
  representable B -> (A <= B * SF2R (Prim2SF c))%R ->
  in_range (a / c) B.
Proof.
  intros [Na Ha] Pc (m & e & Hm & Hr) HAB.
  unfold in_range. rewrite div_spec.
  destruct (Prim2SF c) as [s|s| |[|] mc ec] eqn:Ec; simpl in Pc;
    try contradiction.
  simpl SF2R in *.
  destruct (SFdiv_le (Prim2SF a) mc ec m e) as [Nr Hle];
    try assumption; try apply Prim2SF_valid.
  { rewrite Hr. lra. }
  split; [assumption|]. rewrite <- Hr.
  apply (SFleb_SF2R _ (S754_finite false m e)) in Hle; try assumption;
    try exact I.
  rewrite <- Ec, <- div_spec. apply Prim2SF_valid.
Qed.

Lemma in_range_sub (c z : float) (A : R) :
  pos_finite (Prim2SF c) -> in_range z A -> (A < SF2R (Prim2SF c))%R ->
  in_range (c - z) (SF2R (Prim2SF c)).
Proof.
  intros Pc [Nz Hz] HA.
  pose proof (Prim2SF_valid c) as Vc.
  unfold in_range. rewrite sub_spec.
  destruct (Prim2SF c) as [s|s| |[|] mc ec] eqn:Ec; simpl in Pc;
    try contradiction.
  simpl SF2R in *.
  pose proof (SF2R_nonneg _ Nz) as Hz0.
  destruct (SFsub_le mc ec (Prim2SF z) mc ec) as [Nr Hle];
    try assumption; try apply Prim2SF_valid; try lra.
  split; [assumption|].
  apply (SFleb_SF2R _ (S754_finite false mc ec)) in Hle; try assumption;
    try exact I.
  rewrite <- Ec, <- sub_spec. apply Prim2SF_valid.
Qed.

End FloatRange.

(** ** Quality scoring *)

Module QualityProperties.
Import Py Quality ScoringSpec FloatOrder Examples.
Local Open Scope float_scope.

(** C1, as stated, fails: on the example metrics the overall score is not
    at least 90 and the grade is not extra virgin. *)
Lemma example_metrics_not_extra_virgin :
  ~ (geb (calculate_overall_score example_metrics) 90 = true
     /\ determine_quality_grade example_metrics = EXTRA_VIRGIN).
Proof.
  intros [Hscore _].
  vm_compute in Hscore.
  discriminate Hscore.
Qed.

(** C1, amended: on the example metrics the sub-scores are 90, 90, 84 and
    100 - (0.1 / 0.22) * 20, the overall score is their mean
    88.72727272727272, which is at least 80 and below 90, and the grade is
    virgin. *)
Theorem example_metrics_score_and_grade :
  sub_scores example_metrics = [90; 90; 84; 100 - (0.1 / 0.22) * 20]
  /\ calculate_overall_score example_metrics = 88.72727272727272
  /\ geb (calculate_overall_score example_metrics) 80 = true
  /\ (calculate_overall_score example_metrics <? 90) = true
  /\ determine_quality_grade example_metrics = VIRGIN.
Proof.
  assert (Hs : calculate_overall_score example_metrics = 88.72727272727272)
    by (vm_compute; reflexivity).
  split; [vm_compute; reflexivity|].
  split; [exact Hs|].
  unfold determine_quality_grade. rewrite Hs.
  repeat split; vm_compute; reflexivity.
Qed.

(** C2, as stated, fails: metrics in which [delta_k] is present get no
    [delta_k] entry. *)
Lemma check_compliance_misses_delta_k :
  is_Some (metric delta_k_metrics DELTA_K)
  /\ check_compliance extra_virgin_threshold delta_k_metrics
       !! indicator_value DELTA_K = None.
Proof.
  split.
  - exists 0.01. reflexivity.
  - vm_compute. reflexivity.
Qed.

(** C2, amended: the mapping has, for each of the six indicators acidity,
    peroxide_value, k232, k270, flavor and aroma, one entry exactly when
    the indicator is present, and the entry is the comparison with the
    bound of the threshold; it never has an entry for delta_k, nor for any
    other key. *)
Theorem check_compliance_entries (t : QualityThreshold) (m : QualityMetrics) :
  (forall i, i <> DELTA_K ->
     check_compliance t m !! indicator_value i
     = match metric m i with Some v => complies t i v | None => None end)
  /\ check_compliance t m !! indicator_value DELTA_K = None
  /\ (forall k, is_Some (check_compliance t m !! k) ->
        exists i, i <> DELTA_K /\ k = indicator_value i /\ is_Some (metric m i)).
Proof.
  destruct m as [a p k2 k7 dk fl ar ts].
  split; [|split].
  - intros i Hi. unfold check_compliance. simpl.
    destruct i; try (now destruct Hi); simpl;
      destruct a, p, k2, k7, fl, ar; vm_compute; reflexivity.
  - unfold check_compliance. simpl.
    destruct a, p, k2, k7, fl, ar; vm_compute; reflexivity.
  - intros k Hk.
    assert (Hpresent : forall i, i <> DELTA_K ->
              is_Some (check_compliance t {| acidity := a; peroxide_value := p;
                          k232 := k2; k270 := k7; delta_k := dk;
                          flavor_score := fl; aroma_score := ar;
                          timestamp := ts |} !! indicator_value i) ->
              is_Some (metric {| acidity := a; peroxide_value := p;
                          k232 := k2; k270 := k7; delta_k := dk;
                          flavor_score := fl; aroma_score := ar;
                          timestamp := ts |} i)).
    { intros i Hi [b Hb].
      destruct i; try (now destruct Hi); simpl;
        destruct a, p, k2, k7, fl, ar; try (eexists; reflexivity);
        vm_compute in Hb; discriminate Hb. }
    destruct (decide (k = indicator_value ACIDITY)) as [->|N1];
      [exists ACIDITY; auto using Hpresent with congruence|].
    destruct (decide (k = indicator_value PEROXIDE_VALUE)) as [->|N2];
      [exists PEROXIDE_VALUE; auto using Hpresent with congruence|].
    destruct (decide (k = indicator_value K232)) as [->|N3];
      [exists K232; auto using Hpresent with congruence|].
    destruct (decide (k = indicator_value K270)) as [->|N4];
      [exists K270; auto using Hpresent with congruence|].
    destruct (decide (k = indicator_value FLAVOR)) as [->|N5];
      [exists FLAVOR; auto using Hpresent with congruence|].
    destruct (decide (k = indicator_value AROMA)) as [->|N6];
      [exists AROMA; auto using Hpresent with congruence|].
    exfalso. simpl in *.
    unfold check_compliance in Hk. simpl in Hk.
    destruct a, p, k2, k7, fl, ar;
      rewrite ?lookup_insert_ne, lookup_empty in Hk by congruence;
      destruct Hk as [? Hk]; discriminate Hk.
Qed.

(** The code builds the list of sub-scores that the specification
    describes. *)
Lemma scores_are_sub_scores (m : QualityMetrics) :
  calculate_overall_score m = mean (sub_scores m).
Proof.
  destruct m as [a p k2 k7 dk fl ar ts].
  unfold calculate_overall_score, sub_scores, mean, sub_score, piecewise,
    interpolate, clamp0, decrease, append; simpl.
  destruct a as [a|], p as [p|], k2 as [k2|], k7 as [k7|], dk as [dk|],
    fl as [fl|], ar as [ar|]; simpl;
    repeat match goal with
           | |- context [PrimFloat.leb ?x ?t] => destruct (PrimFloat.leb x t); simpl
           end;
    reflexivity.
Qed.

(** The clamp gives a number that is not negative. *)
Lemma clamp0_nonneg (x : float) : (0 <=? clamp0 x) = true.
Proof.
  unfold clamp0, max.
  destruct (0 <? x) eqn:Hx.
  - now apply ltb_leb.
  - reflexivity.
Qed.

(** C3: the overall score is the mean of the sub-scores of the present
    indicators (0.0 when there is none); a chemical sub-score is
    [100 - (v / threshold) * 20] at or below the threshold, which is 100
    at 0 and 80 at the threshold, and above it [80 - (v - threshold) * rate]
    clamped at 0, which is never negative and is 0 for acidity 5.0; a
    sensory score is its own sub-score. *)
Theorem calculate_overall_score_is_mean (m : QualityMetrics) :
  calculate_overall_score m = mean (sub_scores m)
  /\ ((forall i, i <> DELTA_K -> metric m i = None) ->
      calculate_overall_score m = 0)
  /\ (forall i threshold rate, chemical_rule i = Some (threshold, rate) ->
        piecewise threshold rate 0 = 100
        /\ piecewise threshold rate threshold = 80
        /\ (forall v, (v <=? threshold) = true ->
              sub_score i v = Some (100 - (v / threshold) * 20))
        /\ (forall v, (v <=? threshold) = false ->
              sub_score i v = Some (max 0 (80 - (v - threshold) * rate))
              /\ (0 <=? max 0 (80 - (v - threshold) * rate)) = true))
  /\ sub_score ACIDITY 5.0 = Some 0
  /\ (forall v, sub_score FLAVOR v = Some v /\ sub_score AROMA v = Some v).
Proof.
  split; [apply scores_are_sub_scores|].
  split.
  { intros Hnone. rewrite scores_are_sub_scores.
    pose proof (Hnone ACIDITY ltac:(discriminate)) as H1.
    pose proof (Hnone PEROXIDE_VALUE ltac:(discriminate)) as H2.
    pose proof (Hnone K232 ltac:(discriminate)) as H3.
    pose proof (Hnone K270 ltac:(discriminate)) as H4.
    pose proof (Hnone FLAVOR ltac:(discriminate)) as H5.
    pose proof (Hnone AROMA ltac:(discriminate)) as H6.
    simpl in H1, H2, H3, H4, H5, H6.
    unfold sub_scores. simpl. rewrite H1, H2, H3, H4, H5, H6.
    destruct (delta_k m); reflexivity. }
  split.
  { intros i threshold rate Hrule.
    destruct i; simpl in Hrule; inversion Hrule; subst threshold rate; clear Hrule.
    all: split; [vm_compute; reflexivity|].
    all: split; [vm_compute; reflexivity|].
    all: split; intros v Hv; unfold sub_score, chemical_rule, piecewise,
           interpolate, decrease; rewrite Hv; [reflexivity|].
    all: split; [reflexivity|apply clamp0_nonneg]. }
  split; [vm_compute; reflexivity|].
  intros v. split; reflexivity.
Qed.

(** C4: the grade is extra virgin from 90 on, virgin from 80 to below 90,
    lampante from 60 to below 80, refined in every other case, and never
    unknown. *)
Theorem determine_quality_grade_thresholds (m : QualityMetrics) :
  let s := calculate_overall_score m in
  (geb s 90 = true -> determine_quality_grade m = EXTRA_VIRGIN)
  /\ (geb s 80 = true /\ (s <? 90) = true -> determine_quality_grade m = VIRGIN)
  /\ (geb s 60 = true /\ (s <? 80) = true -> determine_quality_grade m = LAMPANTE)
  /\ (geb s 90 = false
      /\ ~ (geb s 80 = true /\ (s <? 90) = true)
      /\ ~ (geb s 60 = true /\ (s <? 80) = true) ->
      determine_quality_grade m = REFINED)
  /\ determine_quality_grade m <> UNKNOWN.
Proof.
  intros s. unfold determine_quality_grade. fold s. unfold geb.
  split; [intros ->; reflexivity|].
  split.
  { intros [H80 H90]. apply ltb_not_leb in H90. now rewrite H90, H80. }
  split.
  { intros [H60 H80]. apply ltb_not_leb in H80 as H80'.
    assert (H90 : (90 <=? s) = false).
    { destruct (90 <=? s) eqn:E; [|reflexivity].
      exfalso.
      assert (H89 : (80 <=? 90) = true) by reflexivity.
      pose proof (leb_trans 80 90 s H89 E). congruence. }
    now rewrite H90, H80', H60. }
  split.
  { intros (H90 & N80 & N60). rewrite H90.
    destruct (80 <=? s) eqn:E80.
    { exfalso. apply N80. split; [reflexivity|].
      exact (not_leb_ltb 80 90 s E80 eq_refl H90). }
    destruct (60 <=? s) eqn:E60.
    { exfalso. apply N60. split; [reflexivity|].
      exact (not_leb_ltb 60 80 s E60 eq_refl E80). }
    reflexivity. }
  destruct (90 <=? s), (80 <=? s), (60 <=? s); discriminate.
Qed.

(** Each grade but unknown is reached. *)
Example grades_reached :
  determine_quality_grade no_metrics = REFINED
  /\ determine_quality_grade example_metrics = VIRGIN
  /\ determine_quality_grade
       {| acidity := Some 0.1; peroxide_value := None; k232 := None;
          k270 := None; delta_k := None; flavor_score := None;
          aroma_score := None; timestamp := None |} = EXTRA_VIRGIN
  /\ determine_quality_grade
       {| acidity := Some 1.0; peroxide_value := None; k232 := None;
          k270 := None; delta_k := None; flavor_score := None;
          aroma_score := None; timestamp := None |} = LAMPANTE.
Proof. repeat split; vm_compute; reflexivity. Qed.

End QualityProperties.

(** ** The range of the overall score *)

Module QualityRange.
Import Py Quality ScoringSpec FloatOrder FloatValue Binary64 FloatRange Examples
  QualityProperties.

(** A number that is not below a positive number it is compared with is
    above it. *)
Lemma SFleb_false_ltb (v t : spec_float) :
  nonneg_ext v -> pos_finite t -> SFleb v t = false -> SFltb t v = true.
Proof.
  intros Nv Pt. unfold SFleb, SFltb. rewrite (SFcompare_swap v t).
  destruct v as [sv|[|]| |[|] mv ev]; simpl in Nv; try contradiction;
    destruct t as [st|st| |[|] mt et]; simpl in Pt; try contradiction;
    try (simpl; congruence).
  destruct (SFcompare (S754_finite false mv ev) (S754_finite false mt et))
    as [[]|] eqn:E; simpl; try congruence.
  discriminate E.
Qed.

Lemma in_range_zero (B : R) : (0 <= B)%R -> in_range 0 B.
Proof. intros HB. split; [exact I|exact HB]. Qed.

(** The sub-score of a chemical indicator that is not negative lies
    between 0 and 100, whatever the positive threshold and rate. *)
Lemma piecewise_in_range (threshold rate v : float) :
  pos_finite (Prim2SF threshold) -> pos_finite (Prim2SF rate) ->
  PrimFloat.leb 0 v = true ->
  in_range (piecewise threshold rate v) 100.
Proof.
  intros Pt Pr Hv. unfold piecewise.
  destruct (PrimFloat.leb v threshold) eqn:Hle.
  - (* at or below the threshold *)
    unfold interpolate.
    assert (H1 : in_range (v / threshold) 1).
    { apply (in_range_div v threshold (SF2R (Prim2SF threshold)) 1).
      - apply leb_in_range; try assumption. now apply pos_finite_nonneg.
      - assumption.
      - rewrite <- value_1. now apply representable_float.
      - lra. }
    assert (H2 : in_range (v / threshold * 20) 20).
    { replace 20%R with (1 * SF2R (Prim2SF 20))%R by (rewrite value_20; lra).
      apply in_range_mul; [assumption|exact I|].
      replace (1 * SF2R (Prim2SF 20))%R with (SF2R (Prim2SF 20)) by lra.
      now apply representable_float. }
    rewrite <- value_100. apply (in_range_sub 100 _ 20); [exact I|assumption|].
    rewrite value_100. lra.
  - (* above the threshold *)
    unfold clamp0, decrease, max.
    set (w := (80 - (v - threshold) * rate)%float).
    assert (Hw : (nonneg_finite (Prim2SF w)
                  /\ SFleb (Prim2SF w) (Prim2SF 80) = true)
                 \/ SFltb (S754_zero false) (Prim2SF w) = false).
    { pose proof (leb_zero_nonneg_ext v Hv) as Nv.
      rewrite leb_spec in Hle.
      pose proof (SFleb_false_ltb _ _ Nv Pt Hle) as Hgt.
      pose proof (Prim2SF_valid threshold) as Vt.
      assert (N1 : nonneg_ext (Prim2SF (v - threshold))).
      { rewrite sub_spec.
        destruct (Prim2SF threshold) as [s|s| |[|] mt et]; simpl in Pt;
          try contradiction.
        apply SFsub_pos_ext; try assumption. apply Prim2SF_valid. }
      assert (N2 : nonneg_ext (Prim2SF ((v - threshold) * rate))).
      { rewrite mul_spec.
        destruct (Prim2SF rate) as [s|s| |[|] mr er]; simpl in Pr;
          try contradiction.
        now apply SFmul_ext. }
      unfold w. rewrite sub_spec.
      pose proof (Prim2SF_valid 80) as V80.
      destruct (Prim2SF 80) as [s|s| |[|] m80 e80] eqn:E80;
        try discriminate E80.
      apply SFsub_const_ext; try assumption. apply Prim2SF_valid. }
    rewrite ltb_spec. change (Prim2SF 0) with (S754_zero false).
    destruct Hw as [[Nw Hw]|Hw].
    + destruct (SFltb (S754_zero false) (Prim2SF w));
        [|apply in_range_zero; lra].
      split; [assumption|].
      apply SFleb_SF2R in Hw; try assumption; try apply Prim2SF_valid;
        try exact I.
      rewrite value_80 in Hw. lra.
    + rewrite Hw. apply in_range_zero. lra.
Qed.

(** The float of a length from 1 to 6. *)
Lemma len_value {A : Type} (xs : list A) :
  (1 <= List.length xs <= 6)%nat ->
  pos_finite (Prim2SF (len xs))
  /\ SF2R (Prim2SF (len xs)) = INR (List.length xs).
Proof.
  intros Hk. unfold len.
  destruct (List.length xs) as [|[|[|[|[|[|[|k]]]]]]]; try lia;
    (split; [vm_compute; exact I|]); simpl INR.
  - transitivity (IZR 1); [float_value (PrimFloat.of_uint63 (Uint63.of_Z (Z.of_nat 1)))|lra].
  - transitivity (IZR 2); [float_value (PrimFloat.of_uint63 (Uint63.of_Z (Z.of_nat 2)))|lra].
  - transitivity (IZR 3); [float_value (PrimFloat.of_uint63 (Uint63.of_Z (Z.of_nat 3)))|lra].
  - transitivity (IZR 4); [float_value (PrimFloat.of_uint63 (Uint63.of_Z (Z.of_nat 4)))|lra].
  - transitivity (IZR 5); [float_value (PrimFloat.of_uint63 (Uint63.of_Z (Z.of_nat 5)))|lra].
  - transitivity (IZR 6); [float_value (PrimFloat.of_uint63 (Uint63.of_Z (Z.of_nat 6)))|lra].
Qed.

(** The multiples of 100 up to 600 are numbers of the format. *)
Lemma representable_hundreds (k : nat) :
  (1 <= k <= 6)%nat -> representable (100 * INR k).
Proof.
  intros Hk.
  destruct k as [|[|[|[|[|[|[|k]]]]]]]; try lia; simpl INR.
  - replace (100 * 1)%R with (SF2R (Prim2SF 100));
      [apply representable_float; exact I|].
    transitivity (IZR 100); [float_value 100%float|lra].
  - replace (100 * (1 + 1))%R with (SF2R (Prim2SF 200));
      [apply representable_float; exact I|].
    transitivity (IZR 200); [float_value 200%float|lra].
  - replace (100 * (1 + 1 + 1))%R with (SF2R (Prim2SF 300));
      [apply representable_float; exact I|].
    transitivity (IZR 300); [float_value 300%float|lra].
  - replace (100 * (1 + 1 + 1 + 1))%R with (SF2R (Prim2SF 400));
      [apply representable_float; exact I|].
    transitivity (IZR 400); [float_value 400%float|lra].
  - replace (100 * (1 + 1 + 1 + 1 + 1))%R with (SF2R (Prim2SF 500));
      [apply representable_float; exact I|].
    transitivity (IZR 500); [float_value 500%float|lra].
  - replace (100 * (1 + 1 + 1 + 1 + 1 + 1))%R with (SF2R (Prim2SF 600));
      [apply representable_float; exact I|].
    transitivity (IZR 600); [float_value 600%float|lra].
Qed.

(** Adding up to six numbers between 0 and 100 to a sum of [j] of them. *)
Lemma fold_add_in_range (xs : list float) (acc : float) (j : nat) :
  in_range acc (100 * INR j) ->
  Forall (fun x => in_range x 100) xs ->
  (j + List.length xs <= 6)%nat ->
  in_range (fold_left PrimFloat.add xs acc) (100 * INR (j + List.length xs)).
Proof.
  revert acc j. induction xs as [|x xs IH]; intros acc j Hacc Hxs Hlen.
  - simpl. now rewrite Nat.add_0_r.
  - apply Forall_cons_1 in Hxs as [Hx Hxs]. simpl in *.
    replace (j + S (List.length xs))%nat with (S j + List.length xs)%nat by lia.
    apply IH; [|assumption|lia].
    rewrite S_INR.
    replace (100 * (INR j + 1))%R with (100 * INR j + 100)%R by lra.
    apply in_range_add; try assumption.
    replace (100 * INR j + 100)%R with (100 * INR (S j))%R
      by (rewrite S_INR; lra).
    apply representable_hundreds. lia.
Qed.

(** The mean of up to six numbers between 0 and 100. *)
Lemma mean_in_range (xs : list float) :
  Forall (fun x => in_range x 100) xs -> (List.length xs <= 6)%nat ->
  in_range (mean xs) 100.
Proof.
  intros Hxs Hlen. unfold mean.
  destruct xs as [|x xs']; [apply in_range_zero; lra|].
  set (xs := x :: xs') in *.
  assert (Hk : (1 <= List.length xs <= 6)%nat) by (unfold xs in *; simpl in *; lia).
  destruct (len_value xs Hk) as [Plen Vlen].
  apply (in_range_div (sum xs) (len xs) (100 * INR (List.length xs)) 100).
  - unfold sum. apply (fold_add_in_range xs 0 0); try assumption.
    apply in_range_zero. simpl. lra.
  - assumption.
  - rewrite <- value_100. apply representable_float. exact I.
  - rewrite Vlen. lra.
Qed.

Lemma Forall_omap_intro {A B : Type} (f : A -> option B) (P : B -> Prop)
    (l : list A) :
  (forall a b, f a = Some b -> P b) -> Forall P (omap f l).
Proof.
  intros H. induction l as [|a l IH]; simpl; [constructor|].
  destruct (f a) as [b|] eqn:E; [constructor; eauto|assumption].
Qed.

(** C10: when every present chemical indicator is not negative and every
    present sensory score lies between 0 and 100, the overall score lies
    between 0 and 100. *)
Theorem calculate_overall_score_range (m : QualityMetrics) :
  (forall i v, i = ACIDITY \/ i = PEROXIDE_VALUE \/ i = K232 \/ i = K270 ->
     metric m i = Some v -> PrimFloat.leb 0 v = true) ->
  (forall i v, i = FLAVOR \/ i = AROMA -> metric m i = Some v ->
     PrimFloat.leb 0 v = true /\ PrimFloat.leb v 100 = true) ->
  PrimFloat.leb 0 (calculate_overall_score m) = true
  /\ PrimFloat.leb (calculate_overall_score m) 100 = true.
Proof.
  intros Hchem Hsens.
  apply in_range_leb; [exact I|]. rewrite value_100.
  rewrite scores_are_sub_scores.
  apply mean_in_range.
  - unfold sub_scores. apply Forall_omap_intro. intros i x Hx.
    destruct (metric m i) as [v|] eqn:Ev; [|discriminate Hx].
    destruct i; simpl in Hx; try discriminate Hx; injection Hx as <-.
    + apply piecewise_in_range; try exact I. apply (Hchem ACIDITY); tauto.
    + apply piecewise_in_range; try exact I.
      apply (Hchem PEROXIDE_VALUE); tauto.
    + apply piecewise_in_range; try exact I. apply (Hchem K232); tauto.
    + apply piecewise_in_range; try exact I. apply (Hchem K270); tauto.
    + destruct (Hsens FLAVOR v (or_introl eq_refl) Ev) as [H0 H100].
      rewrite <- value_100. apply leb_in_range; try assumption. exact I.
    + destruct (Hsens AROMA v (or_intror eq_refl) Ev) as [H0 H100].
      rewrite <- value_100. apply leb_in_range; try assumption. exact I.
  - unfold sub_scores, indicators. simpl.
    destruct (acidity m), (peroxide_value m), (k232 m), (k270 m), (delta_k m),
      (flavor_score m), (aroma_score m); simpl; lia.
Qed.

(** C10, witness: the hypotheses of the range hold of metrics with every
    indicator present. *)
Lemma calculate_overall_score_range_witness :
  PrimFloat.leb 0 (calculate_overall_score full_metrics) = true
  /\ PrimFloat.leb (calculate_overall_score full_metrics) 100 = true.
Proof.
  apply calculate_overall_score_range.
  - intros i v Hi Hv. destruct Hi as [-> | [-> | [-> | ->]]]; simpl in Hv;
      injection Hv as <-; reflexivity.
  - intros i v Hi Hv. destruct Hi as [-> | ->]; simpl in Hv;
      injection Hv as <-; split; reflexivity.
Defined.

End QualityRange.

(** ** Spectral data *)

Module SpectrumProperties.
Import Py Spectrum.

(** Sequences of one length that is not zero pass the validation. *)
Lemma new_SpectralData_ok (w i : list float) (t : SpectroscopyType)
    (ex em : option float) (mc : option (gmap string string)) :
  List.length w = List.length i -> 0 < List.length w ->
  new_SpectralData w i t ex em mc
  = Ok {| wavelengths := w; intensities := i; spectroscopy_type := t;
          excitation_wavelength := ex; emission_wavelength := em;
          measurement_conditions := mc |}.
Proof.
  intros Heq Hpos. unfold new_SpectralData, __post_init__; simpl.
  rewrite <- Heq, Nat.eqb_refl; simpl.
  destruct (Nat.eqb_spec (List.length w) 0); [lia|reflexivity].
Qed.

(** C8: the constructor succeeds on sequences of equal length that are not
    empty, raises exactly when the lengths differ or both are empty, and
    what it returns has as many wavelengths as intensities, and at least
    one. *)
Theorem new_SpectralData_validates (w i : list float) (t : SpectroscopyType)
    (ex em : option float) (mc : option (gmap string string)) :
  (List.length w = List.length i /\ 0 < List.length w ->
     new_SpectralData w i t ex em mc
     = Ok {| wavelengths := w; intensities := i; spectroscopy_type := t;
             excitation_wavelength := ex; emission_wavelength := em;
             measurement_conditions := mc |})
  /\ ((exists msg, new_SpectralData w i t ex em mc = Raise (ValueError msg))
      <-> List.length w <> List.length i \/ (w = [] /\ i = []))
  /\ (forall sd, new_SpectralData w i t ex em mc = Ok sd ->
        List.length (wavelengths sd) = List.length (intensities sd)
        /\ 0 < List.length (wavelengths sd)).
Proof.
  unfold new_SpectralData, __post_init__; simpl.
  destruct (Nat.eqb_spec (List.length w) (List.length i)) as [Heq|Hne]; simpl.
  - destruct (Nat.eqb_spec (List.length w) 0) as [Hz|Hnz]; simpl.
    + split; [lia|]. split.
      * split; [|eauto].
        intros _. right.
        rewrite Hz in Heq. symmetry in Heq.
        now apply length_zero_iff_nil in Hz, Heq.
      * discriminate.
    + split; [reflexivity|]. split.
      * split; [intros [? H]; discriminate H|].
        intros [H|[-> _]]; [contradiction|]. now destruct Hnz.
      * intros sd [= <-]; simpl. lia.
  - split; [intros [H _]; contradiction|]. split.
    + split; eauto.
    + discriminate.
Qed.

(** Both validation errors occur, and so does a successful construction. *)
Example new_SpectralData_cases :
  new_SpectralData [300; 310]%float [1]%float FLUORESCENCE None None None
  = Raise (ValueError "Wavelengths and intensities must have the same length")
  /\ new_SpectralData [] [] FLUORESCENCE None None None
     = Raise (ValueError "Spectral data cannot be empty")
  /\ is_ok (new_SpectralData [300; 310]%float [1; 2]%float RAMAN None None None)
     = true.
Proof. repeat split. Qed.

End SpectrumProperties.

(** ** Strategy selection *)

Module FactoryProperties.
Import Py Spectrum Factory.
Local Open Scope string_scope.

(** C9, as stated, fails: a path that contains both substrings contains
    ["Absorption"] and yet selects the fluorescence strategy. *)
Lemma path_with_both_substrings :
  contains "Absorption" "data/Fluorescence/Absorption_1.csv" = true
  /\ create_strategy_from_file _strategies "data/Fluorescence/Absorption_1.csv"
     = Ok (instantiate FluorescenceStrategy)
  /\ instantiate FluorescenceStrategy <> instantiate AbsorptionStrategy.
Proof.
  split; [reflexivity|]. split; [reflexivity|]. discriminate.
Qed.

(** C9, amended: by type, fluorescence and absorption select their
    strategy and every other type raises a [ValueError] whose message
    names the type; by path, ["Fluorescence"]
    selects fluorescence, ["Absorption"] without ["Fluorescence"] selects
    absorption, and neither selects fluorescence. *)
Theorem create_strategy_selection :
  create_strategy _strategies FLUORESCENCE = Ok (instantiate FluorescenceStrategy)
  /\ create_strategy _strategies ABSORPTION = Ok (instantiate AbsorptionStrategy)
  /\ (forall t, t <> FLUORESCENCE -> t <> ABSORPTION ->
        create_strategy _strategies t
        = Raise (ValueError ("Unsupported spectroscopy type: " ++ SpectroscopyType_str t)))
  /\ create_strategy _strategies RAMAN
     = Raise (ValueError "Unsupported spectroscopy type: SpectroscopyType.RAMAN")
  /\ (forall file_path, contains "Fluorescence" file_path = true ->
        create_strategy_from_file _strategies file_path
        = Ok (instantiate FluorescenceStrategy))
  /\ (forall file_path, contains "Absorption" file_path = true ->
        contains "Fluorescence" file_path = false ->
        create_strategy_from_file _strategies file_path
        = Ok (instantiate AbsorptionStrategy))
  /\ (forall file_path, contains "Fluorescence" file_path = false ->
        contains "Absorption" file_path = false ->
        create_strategy_from_file _strategies file_path
        = Ok (instantiate FluorescenceStrategy)).
Proof.
  assert (HF : create_strategy _strategies FLUORESCENCE
               = Ok (instantiate FluorescenceStrategy)) by reflexivity.
  assert (HA : create_strategy _strategies ABSORPTION
               = Ok (instantiate AbsorptionStrategy)) by reflexivity.
  split; [exact HF|]. split; [exact HA|].
  split.
  { intros t HnF HnA. unfold create_strategy, _strategies.
    rewrite !lookup_insert_ne, lookup_empty by congruence. reflexivity. }
  split; [reflexivity|].
  unfold create_strategy_from_file.
  split; [intros p ->; exact HF|].
  split; [intros p -> ->; exact HA|].
  intros p -> ->; exact HF.
Qed.

(** The strategies the factory returns carry their spectroscopy type. *)
Example created_strategy_types :
  strategy_type (instantiate FluorescenceStrategy) = FLUORESCENCE
  /\ strategy_type (instantiate AbsorptionStrategy) = ABSORPTION
  /\ create_strategy_from_file _strategies "x/Absorption/a.csv"
     = Ok (instantiate AbsorptionStrategy)
  /\ create_strategy (register_strategy _strategies RAMAN AbsorptionStrategy) RAMAN
     = Ok (instantiate AbsorptionStrategy).
Proof. repeat split. Qed.

End FactoryProperties.

(** ** Aging step *)

Module BaseProperties.
Import Py Measurement Base NamingSpec.
Local Open Scope string_scope.

(** C7, as stated, fails: a name with the tokens AS3 and AS1 contains AS3
    and is mapped to step 1. *)
Lemma name_with_two_tokens :
  contains (token 3) "AS3_AS1.csv" = true
  /\ _extract_aging_step "AS3_AS1.csv" = STEP_1
  /\ STEP_1 <> step_of 3.
Proof.
  split; [reflexivity|]. split; [reflexivity|]. discriminate.
Qed.

(** C7, amended: the step is that of the smallest digit d for which the
    name contains the token AS d, and step 0 when it contains no such
    token; ["2023_AS3_sample.csv"] is mapped to step 3. *)
Theorem _extract_aging_step_smallest_digit (filename : string) :
  (forall d, d <= 9 ->
     contains (token d) filename = true ->
     (forall d', d' < d -> contains (token d') filename = false) ->
     _extract_aging_step filename = step_of d
     /\ step_value (_extract_aging_step filename) = d)
  /\ ((forall d, d <= 9 -> contains (token d) filename = false) ->
      _extract_aging_step filename = STEP_0)
  /\ _extract_aging_step "2023_AS3_sample.csv" = STEP_3.
Proof.
  split; [|split; [|reflexivity]].
  - intros d Hd Hin Hmin.
    assert (Hv : step_value (step_of d) = d)
      by (do 10 (destruct d as [|d]; [reflexivity|]); lia).
    enough (H : _extract_aging_step filename = step_of d)
      by (rewrite H; split; [reflexivity|exact Hv]).
    clear Hv. unfold _extract_aging_step.
    assert (H0 : 0 < d -> contains "AS0" filename = false) by exact (Hmin 0).
    assert (H1 : 1 < d -> contains "AS1" filename = false) by exact (Hmin 1).
    assert (H2 : 2 < d -> contains "AS2" filename = false) by exact (Hmin 2).
    assert (H3 : 3 < d -> contains "AS3" filename = false) by exact (Hmin 3).
    assert (H4 : 4 < d -> contains "AS4" filename = false) by exact (Hmin 4).
    assert (H5 : 5 < d -> contains "AS5" filename = false) by exact (Hmin 5).
    assert (H6 : 6 < d -> contains "AS6" filename = false) by exact (Hmin 6).
    assert (H7 : 7 < d -> contains "AS7" filename = false) by exact (Hmin 7).
    assert (H8 : 8 < d -> contains "AS8" filename = false) by exact (Hmin 8).
    clear Hmin.
    do 10 (destruct d as [|d];
           [ change (contains "AS0" filename = true) in Hin
             || change (contains "AS1" filename = true) in Hin
             || change (contains "AS2" filename = true) in Hin
             || change (contains "AS3" filename = true) in Hin
             || change (contains "AS4" filename = true) in Hin
             || change (contains "AS5" filename = true) in Hin
             || change (contains "AS6" filename = true) in Hin
             || change (contains "AS7" filename = true) in Hin
             || change (contains "AS8" filename = true) in Hin
             || change (contains "AS9" filename = true) in Hin;
             rewrite ?H0, ?H1, ?H2, ?H3, ?H4, ?H5, ?H6, ?H7, ?H8 by lia;
             rewrite Hin; reflexivity
           | ]).
    lia.
  - intros Hnone. unfold _extract_aging_step.
    pose proof (Hnone 0 ltac:(lia)) as H0. pose proof (Hnone 1 ltac:(lia)) as H1.
    pose proof (Hnone 2 ltac:(lia)) as H2. pose proof (Hnone 3 ltac:(lia)) as H3.
    pose proof (Hnone 4 ltac:(lia)) as H4. pose proof (Hnone 5 ltac:(lia)) as H5.
    pose proof (Hnone 6 ltac:(lia)) as H6. pose proof (Hnone 7 ltac:(lia)) as H7.
    pose proof (Hnone 8 ltac:(lia)) as H8. pose proof (Hnone 9 ltac:(lia)) as H9.
    change (token 0) with "AS0" in H0. change (token 1) with "AS1" in H1.
    change (token 2) with "AS2" in H2. change (token 3) with "AS3" in H3.
    change (token 4) with "AS4" in H4. change (token 5) with "AS5" in H5.
    change (token 6) with "AS6" in H6. change (token 7) with "AS7" in H7.
    change (token 8) with "AS8" in H8. change (token 9) with "AS9" in H9.
    now rewrite H0, H1, H2, H3, H4, H5, H6, H7, H8, H9.
Qed.

End BaseProperties.

(** ** Strings *)

Module StrProperties.
Import Py NamingSpec.
Local Open Scope string_scope.

(** A prefix is not longer than the string. *)
Lemma startswith_length (p s : string) :
  startswith p s = true -> String.length p <= String.length s.
Proof.
  revert s. induction p as [|a p IH]; intros [|b s]; simpl; try lia; try discriminate.
  intros H. apply andb_true_iff in H as [_ H]. apply IH in H. lia.
Qed.

Lemma drop_length (n : nat) (s : string) :
  String.length (drop n s) = String.length s - n.
Proof.
  revert s. induction n as [|n IH]; intros [|c s]; simpl; try lia. apply IH.
Qed.

(** The two parts of a partition and the separator make up the length. *)
Lemma partition_length (sep s before after : string) :
  partition sep s = Some (before, after) ->
  String.length s = String.length before + String.length sep + String.length after.
Proof.
  revert before after. induction s as [|c s IH]; intros before after; simpl.
  - destruct (startswith sep "") eqn:E; [|discriminate].
    intros [= <- <-]. apply startswith_length in E.
    rewrite drop_length. simpl in *. lia.
  - destruct (startswith sep (String c s)) eqn:E.
    + intros [= <- <-]. apply startswith_length in E.
      rewrite drop_length. simpl in *. lia.
    + destruct (partition sep s) as [[b a]|]; [|discriminate].
      intros [= <- <-]. simpl. rewrite (IH b a eq_refl). lia.
Qed.

(** The text before the first occurrence and the text after it, with the
    separator between them, are the string. *)
Lemma startswith_drop (p s : string) :
  startswith p s = true -> p ++ drop (String.length p) s = s.
Proof.
  revert s. induction p as [|a p IH]; intros [|b s]; simpl; try discriminate; auto.
  intros H. apply andb_true_iff in H as [Hab H].
  apply Ascii.eqb_eq in Hab. subst b.
  change (String a (p ++ drop (String.length p) s) = String a s).
  f_equal. now apply IH.
Qed.

Lemma partition_concat (sep s before after : string) :
  partition sep s = Some (before, after) -> before ++ sep ++ after = s.
Proof.
  revert before after. induction s as [|c s IH]; intros before after; simpl.
  - destruct (startswith sep "") eqn:E; [|discriminate].
    intros [= <- <-]. simpl. now apply startswith_drop.
  - destruct (startswith sep (String c s)) eqn:E.
    + intros [= <- <-]. simpl. now apply startswith_drop.
    + destruct (partition sep s) as [[b a]|]; [|discriminate].
      intros [= <- <-].
      change (String c (b ++ sep ++ a) = String c s).
      f_equal. exact (IH b a eq_refl).
Qed.

(** [sub in s] holds exactly when the partition finds an occurrence. *)
Lemma contains_partition (sub s : string) :
  contains sub s = match partition sub s with Some _ => true | None => false end.
Proof.
  induction s as [|c s IH]; simpl.
  - destruct (startswith sub ""); reflexivity.
  - destruct (startswith sub (String c s)); simpl; [reflexivity|].
    rewrite IH. destruct (partition sub s) as [[b a]|]; reflexivity.
Qed.

(** Whatever the fuel, the first part of a split is the first segment. *)
Lemma split_fuel_head (fuel : nat) (sep s : string) :
  exists tl, split_fuel fuel sep s = first_segment sep s :: tl.
Proof.
  unfold first_segment.
  destruct fuel; simpl; destruct (partition sep s) as [[b a]|]; eauto.
Qed.

(** The length of the string is enough fuel: more fuel gives the same
    list. *)
Lemma split_fuel_enough (sep s : string) (fuel : nat) :
  sep <> "" -> String.length s <= fuel ->
  split_fuel fuel sep s = split_fuel (String.length s) sep s.
Proof.
  intros Hsep.
  remember (String.length s) as n eqn:Hn.
  revert s Hn fuel. induction n as [n IH] using lt_wf_ind.
  intros s Hn fuel Hfuel.
  destruct fuel as [|fuel], n as [|n]; try lia; simpl.
  - reflexivity.
  - destruct (partition sep s) as [[b a]|] eqn:E; [|reflexivity].
    apply partition_length in E. destruct sep; [contradiction|]. simpl in E. lia.
  - destruct (partition sep s) as [[b a]|] eqn:E; [|reflexivity].
    f_equal. apply partition_length in E as El.
    assert (Hlen : String.length a < S n).
    { destruct sep; [contradiction|]. simpl in El. lia. }
    rewrite (IH (String.length a) Hlen a eq_refl fuel) by lia.
    symmetry. apply (IH (String.length a) Hlen a eq_refl n). lia.
Qed.

End StrProperties.

(** ** Excitation wavelength *)

Module ExcitationProperties.
Import Py Fluorescence NamingSpec StrProperties.
Local Open Scope string_scope.

(** C6, as stated, fails: in a header with a second marker the text after
    the first marker does not parse, and the result is not the default. *)
Lemma header_with_two_markers :
  contains "EX_" "EX_350EX_" = true
  /\ trailing_text "EX_" "EX_350EX_" = Some "350EX_"
  /\ float_of_str "350EX_" = None
  /\ _extract_excitation_wavelength "EX_350EX_" = 350%float
  /\ PrimFloat.eqb 350 300.0 = false.
Proof. repeat split; vm_compute; reflexivity. Qed.

(** C6, amended: when the marker is absent the result is the default
    300.0; when it is present, the text between its first occurrence and
    its next occurrence (or the end of the header) is parsed, and the
    result is the number parsed, or the default when that text does not
    parse.  That text is the whole trailing text when the marker does not
    occur again.  ["N0_EX_350.00"] gives 350.0 and a header without the
    marker gives 300.0. *)
Theorem _extract_excitation_wavelength_segment (column_name : string) :
  _extract_excitation_wavelength column_name
  = match trailing_text "EX_" column_name with
    | None => 300.0%float
    | Some after =>
        match float_of_str (first_segment "EX_" after) with
        | Some x => x
        | None => 300.0%float
        end
    end
  /\ (contains "EX_" column_name = false <-> trailing_text "EX_" column_name = None)
  /\ (forall after, contains "EX_" after = false -> first_segment "EX_" after = after)
  /\ _extract_excitation_wavelength "N0_EX_350.00" = 350.0%float
  /\ _extract_excitation_wavelength "N0_350.00" = 300.0%float.
Proof.
  split; [|split; [|split; [|split; vm_compute; reflexivity]]].
  - unfold _extract_excitation_wavelength, trailing_text.
    rewrite contains_partition.
    destruct (partition "EX_" column_name) as [[before after]|] eqn:E;
      [|reflexivity].
    unfold split.
    destruct column_name as [|c rest]; [discriminate E|].
    change (String.length (String c rest)) with (S (String.length rest)).
    simpl split_fuel. simpl in E. rewrite E.
    destruct (split_fuel_head (String.length rest) "EX_" after) as [tl ->].
    simpl. unfold float_.
    destruct (float_of_str (first_segment "EX_" after)); reflexivity.
  - unfold trailing_text. rewrite contains_partition.
    destruct (partition "EX_" column_name) as [[before after]|];
      split; intros H; try reflexivity; discriminate H.
  - intros after. unfold first_segment. rewrite contains_partition.
    destruct (partition "EX_" after) as [[b a]|]; [discriminate|reflexivity].
Qed.

(** A header with no text after the marker, and one with text that is no
    number, give the default. *)
Example default_excitation_wavelength :
  _extract_excitation_wavelength "N0_EX_" = 300.0%float
  /\ _extract_excitation_wavelength "N0_EX_abc" = 300.0%float.
Proof. split; vm_compute; reflexivity. Qed.

(** The white space around the number is skipped, U+00A0 included; the
    separators U+001C..U+001F are not white space for [float], so a header
    with one of them before the number gives the default; the message of
    the error shows the text between quotes. *)
Example excitation_wavelength_white_space :
  _extract_excitation_wavelength "N0_EX_ 350.00 " = 350.0%float
  /\ float_of_str (String "160" "7") = Some 7%float
  /\ float_of_str (String "028" "7") = None
  /\ float_of_str (String "031" "7") = None
  /\ _extract_excitation_wavelength ("EX_" ++ String "028" "7") = 300.0%float
  /\ float_ "abc" = Raise (ValueError "could not convert string to float: 'abc'")
  /\ float_ (String "028" "7")
     = Raise (ValueError "could not convert string to float: '\x1c7'").
Proof. repeat split; vm_compute; reflexivity. Qed.

End ExcitationProperties.

(** ** Spectrum extraction *)

Module ExtractionProperties.
Import Py Spectrum Fluorescence ExtractionSpec Examples.

(** [range(start, stop, 2)] from an even start. *)
Lemma range_fuel_even (fuel a stop : nat) :
  stop - 2 * a <= fuel ->
  range_fuel fuel (2 * a) stop 2
  = map (fun k => 2 * k) (seq a ((stop - 2 * a + 1) / 2)).
Proof.
  revert a. induction fuel as [|fuel IH]; intros a Hn.
  - replace (stop - 2 * a) with 0 by lia. reflexivity.
  - change (range_fuel (S fuel) (2 * a) stop 2)
      with (if 2 * a <? stop
            then 2 * a :: range_fuel fuel (2 * a + 2) stop 2 else []).
    destruct (Nat.ltb_spec (2 * a) stop) as [Hlt|Hge].
    + replace (2 * a + 2) with (2 * S a) by lia.
      rewrite (IH (S a)) by lia.
      destruct (Nat.eq_dec (stop - 2 * a) 1) as [H1|H1].
      * rewrite H1. replace (stop - 2 * S a) with 0 by lia. reflexivity.
      * replace (stop - 2 * a + 1) with (1 * 2 + (stop - 2 * S a + 1)) by lia.
        rewrite Nat.div_add_l by lia. reflexivity.
    + replace (stop - 2 * a) with 0 by lia. reflexivity.
Qed.

(** The loop runs over the pair indices. *)
Lemma range_pair_indices (df : DataFrame) :
  range 0 (shape1 df - 1) 2 = pair_indices df.
Proof.
  unfold range, pair_indices.
  change (range_fuel (shape1 df - 1) 0 (shape1 df - 1) 2)
    with (range_fuel (shape1 df - 1) (2 * 0) (shape1 df - 1) 2).
  rewrite (range_fuel_even (shape1 df - 1) 0 (shape1 df - 1)) by lia.
  f_equal. f_equal.
  destruct (shape1 df) as [|n]; [reflexivity|].
  replace (S n - 1 - 2 * 0 + 1) with (S n) by lia. reflexivity.
Qed.

(** Selecting by the mask of the rows with no missing value keeps the
    rows that the filter over the rows keeps. *)
Lemma select_valid_mask (xs ys : list cell) :
  let valid_mask := map negb (zip_with orb (map isna xs) (map isna ys)) in
  let rows := List.filter (fun row => negb (isna (fst row)) && negb (isna (snd row)))
                (combine xs ys) in
  select xs valid_mask = map fst rows /\ select ys valid_mask = map snd rows.
Proof.
  revert ys. induction xs as [|x xs IH]; intros [|y ys]; simpl; auto.
  destruct (IH ys) as [IH1 IH2]. simpl in IH1, IH2.
  rewrite negb_orb.
  destruct (negb (isna x) && negb (isna y)); simpl; rewrite IH1, IH2; auto.
Qed.

(** A cast that succeeds keeps the number of cells. *)
Lemma astype_float_length (cs : list cell) (xs : list float) :
  astype_float cs = Ok xs -> List.length xs = List.length cs.
Proof.
  revert xs. induction cs as [|[x|s] cs IH]; intros xs; simpl.
  - now intros [= <-].
  - destruct (astype_float cs) as [ys|]; simpl; [|discriminate].
    intros [= <-]. simpl. now rewrite (IH ys eq_refl).
  - destruct (float_ s); simpl; [|discriminate].
    destruct (astype_float cs) as [ys|]; simpl; [|discriminate].
    intros [= <-]. simpl. now rewrite (IH ys eq_refl).
Qed.

(** The extraction of a pair of columns casts the rows in which neither
    value is missing. *)
Lemma _extract_spectrum_rows (df : DataFrame) (i : nat)
    (wavelength_col intensity_col : Series) :
  df !! i = Some wavelength_col -> df !! (i + 1) = Some intensity_col ->
  _extract_spectrum df i
  = bind (astype_float (map fst (kept_rows wavelength_col intensity_col)))
      (fun wavelengths =>
       bind (astype_float (map snd (kept_rows wavelength_col intensity_col)))
         (fun intensities => Ok (wavelengths, intensities))).
Proof.
  intros Hw Hi. unfold _extract_spectrum, index, shape1.
  pose proof (lookup_lt_Some _ _ _ Hi) as Hlt.
  destruct (Nat.leb_spec (List.length df) (i + 1)) as [Hle|_]; [lia|].
  rewrite Hw, Hi. simpl.
  destruct (select_valid_mask (values wavelength_col) (values intensity_col))
    as [-> ->].
  reflexivity.
Qed.

(** One turn of the loop appends the record of the pair, when it has
    one. *)
Lemma load_pair_record (df : DataFrame) (acc : list SpectralData) (i : nat) :
  i + 1 < shape1 df ->
  load_pair df acc i = acc ++ option_list (pair_record df i).
Proof.
  intros Hi. unfold load_pair, _extract_spectrum, pair_record, index, shape1 in *.
  destruct (Nat.leb_spec (List.length df) (i + 1)) as [Hle|_]; [lia|].
  destruct (df !! i) as [wl|] eqn:Ewl; simpl;
    [|apply lookup_ge_None in Ewl; lia].
  destruct (df !! (i + 1)) as [int|] eqn:Eint; simpl;
    [|apply lookup_ge_None in Eint; lia].
  destruct (select_valid_mask (values wl) (values int)) as [-> ->].
  fold (kept_rows wl int).
  destruct (astype_float (map fst (kept_rows wl int))) as [ws|] eqn:Ew; simpl;
    [|now rewrite app_nil_r].
  destruct (astype_float (map snd (kept_rows wl int))) as [ints|] eqn:Ei; simpl;
    [|destruct ws; now rewrite app_nil_r].
  destruct ws as [|w ws]; simpl; [now rewrite app_nil_r|].
  apply astype_float_length in Ew, Ei. rewrite !length_map in Ew, Ei.
  rewrite SpectrumProperties.new_SpectralData_ok; [reflexivity| |simpl; lia].
  now rewrite Ew, Ei.
Qed.

Lemma fold_load_pair (df : DataFrame) (idxs : list nat) (acc : list SpectralData) :
  Forall (fun i => i + 1 < shape1 df) idxs ->
  fold_left (load_pair df) idxs acc = acc ++ omap (pair_record df) idxs.
Proof.
  revert acc. induction idxs as [|i idxs IH]; intros acc His; simpl.
  - now rewrite app_nil_r.
  - apply Forall_cons_1 in His as [Hi His].
    rewrite (IH _ His), (load_pair_record df acc i Hi).
    destruct (pair_record df i); simpl; [|now rewrite app_nil_r].
    now rewrite <- app_assoc.
Qed.

(** C5: the loader returns, in increasing column order, the records of the
    pairs of columns (even index i, index i + 1) that have one, and the
    record of a pair holds the rows of the pair in which neither value is
    missing, cast to float, which is what the extraction of the pair
    returns; a pair has a record when every cast succeeds and a row is
    left.  The pair [300, 310, 320] / [1.0, 2.0, NaN] gives arrays of
    length 2. *)
Theorem load_data_pairs (df : DataFrame) :
  load_data (Ok df) = omap (pair_record df) (pair_indices df)
  /\ (forall i sd, pair_record df i = Some sd ->
        exists wavelength_col intensity_col,
          df !! i = Some wavelength_col /\ df !! (i + 1) = Some intensity_col
          /\ astype_float (map fst (kept_rows wavelength_col intensity_col))
             = Ok (wavelengths sd)
          /\ astype_float (map snd (kept_rows wavelength_col intensity_col))
             = Ok (intensities sd))
  /\ (forall i, In i (pair_indices df) <-> Nat.even i = true /\ i + 1 < shape1 df)
  /\ (forall j k a b, pair_indices df !! j = Some a ->
        pair_indices df !! k = Some b -> j < k -> a < b)
  /\ (forall i wavelength_col intensity_col,
        df !! i = Some wavelength_col -> df !! (i + 1) = Some intensity_col ->
        _extract_spectrum df i
        = bind (astype_float (map fst (kept_rows wavelength_col intensity_col)))
            (fun wavelengths =>
             bind (astype_float (map snd (kept_rows wavelength_col intensity_col)))
               (fun intensities => Ok (wavelengths, intensities))))
  /\ _extract_spectrum example_frame 0 = Ok ([300; 310], [1.0; 2.0])%float
  /\ map (fun sd => (wavelengths sd, intensities sd)) (load_data (Ok example_frame))
     = [([300; 310], [1.0; 2.0])]%float.
Proof.
  split; [|split; [|split; [|split; [|split; [|split]]]]].
  - unfold load_data. rewrite range_pair_indices.
    apply (fold_load_pair df (pair_indices df) []).
    apply Forall_forall. intros i Hi. unfold pair_indices in Hi.
    apply list_elem_of_In, in_map_iff in Hi as (k & <- & Hk). apply in_seq in Hk.
    pose proof (Nat.div_mod_eq (shape1 df) 2).
    pose proof (Nat.mod_upper_bound (shape1 df) 2). lia.
  - intros i sd. unfold pair_record.
    destruct (df !! i) as [wl|]; [|discriminate].
    destruct (df !! (i + 1)) as [int|]; [|discriminate].
    simpl.
    destruct (astype_float (map fst (kept_rows wl int))) as [[|w ws]|] eqn:Ew;
      try discriminate.
    destruct (astype_float (map snd (kept_rows wl int))) as [ints|] eqn:Ei;
      [|discriminate].
    intros [= <-]. simpl. exists wl, int. auto.
  - intros i. unfold pair_indices. rewrite in_map_iff.
    pose proof (Nat.div_mod_eq (shape1 df) 2) as Hdiv.
    pose proof (Nat.mod_upper_bound (shape1 df) 2 ltac:(lia)) as Hmod.
    split.
    + intros (k & <- & Hk). apply in_seq in Hk.
      rewrite Nat.even_mul. split; [reflexivity|lia].
    + intros [Heven Hi]. apply Nat.even_spec in Heven as [k ->].
      exists k. split; [reflexivity|]. apply in_seq. lia.
  - intros j k a b Ha Hb Hjk. unfold pair_indices in Ha, Hb.
    apply list_lookup_fmap_Some in Ha as (a' & -> & Ha).
    apply list_lookup_fmap_Some in Hb as (b' & -> & Hb).
    apply lookup_seq in Ha as [-> _]. apply lookup_seq in Hb as [-> _]. lia.
  - apply _extract_spectrum_rows.
  - vm_compute. reflexivity.
  - vm_compute. reflexivity.
Qed.

(** A pair with text that does not cast fails as a whole and is skipped;
    the pairs after it are still read, and text in a dropped row is never
    cast; a last column without a partner is not read; a failed read gives
    no record. *)
Example load_data_skips :
  map (fun sd => (wavelengths sd, intensities sd))
    (load_data (Ok [ {| name := "a"; values := [Text "300"; Text "error"] |};
                     {| name := "b"; values := [Num 1; Num 2] |};
                     {| name := "c"; values := [Text "400"; Text "410"; Text "oops"] |};
                     {| name := "d"; values := [Num 3; Num 4; Num nan] |};
                     {| name := "e"; values := [Num 5; Num 6; Num 7] |} ]%float))
  = [([400; 410], [3; 4])]%float
  /\ load_data (Raise (ValueError "unreadable")) = [].
Proof. split; vm_compute; reflexivity. Qed.

(** Text with a separator U+001C before the number does not cast, and the
    pair is skipped; an index with no column after it is out of bounds. *)
Example load_data_skips_separator :
  load_data (Ok [ {| name := "a"; values := [Text (String "028" "7")] |};
                  {| name := "b"; values := [Num 1] |} ]%float) = []
  /\ map (fun sd => (wavelengths sd, intensities sd))
       (load_data (Ok [ {| name := "a"; values := [Text " 7"] |};
                        {| name := "b"; values := [Num 1] |} ]%float))
     = [([7], [1])]%float
  /\ _extract_spectrum example_frame 1
     = Raise (ValueError "Column index 1 out of bounds")%string.
Proof. repeat split; vm_compute; reflexivity. Qed.

End ExtractionProperties.

(** ** Not-a-number *)

Module FloatNaN.
Local Open Scope float_scope.

(** A number compares equal to itself unless it is a NaN. *)
Lemma SFcompare_refl (x : spec_float) :
  x <> S754_nan -> SFcompare x x = Some Eq.
Proof.
  destruct x as [s|s| |s m e]; simpl; try congruence; intros _.
  - now destruct s.
  - change (PosDef.Pos.compare_cont Eq m m) with (Pos.compare m m).
    destruct s, (Z.compare_spec e e), (Pos.compare_spec m m); simpl;
      try reflexivity; lia.
Qed.

Lemma is_nan_Prim2SF (x : float) :
  PrimFloat.is_nan x = true <-> Prim2SF x = S754_nan.
Proof.
  unfold PrimFloat.is_nan. rewrite FloatAxioms.eqb_spec. unfold SFeqb. split.
  - intros H. destruct (Prim2SF x) as [s|s| |s m e] eqn:E; try reflexivity;
      rewrite SFcompare_refl in H by discriminate; discriminate H.
  - intros ->. reflexivity.
Qed.

(** There is one NaN. *)
Lemma is_nan_eq (x : float) : PrimFloat.is_nan x = true <-> x = nan.
Proof.
  rewrite is_nan_Prim2SF. split.
  - intros H. rewrite <- (SF2Prim_Prim2SF x), H. reflexivity.
  - intros ->. reflexivity.
Qed.

(** A NaN operand makes the result of an operation a NaN. *)
Lemma add_nan_r (x : float) : x + nan = nan.
Proof.
  apply is_nan_eq, is_nan_Prim2SF. rewrite add_spec.
  change (Prim2SF nan) with S754_nan. now destruct (Prim2SF x) as [[]|[]| |].
Qed.

Lemma add_nan_l (x : float) : nan + x = nan.
Proof.
  apply is_nan_eq, is_nan_Prim2SF. rewrite add_spec. reflexivity.
Qed.

Lemma sub_nan_r (x : float) : x - nan = nan.
Proof.
  apply is_nan_eq, is_nan_Prim2SF. rewrite sub_spec.
  change (Prim2SF nan) with S754_nan. now destruct (Prim2SF x) as [[]|[]| |].
Qed.

Lemma sub_nan_l (x : float) : nan - x = nan.
Proof.
  apply is_nan_eq, is_nan_Prim2SF. rewrite sub_spec. reflexivity.
Qed.

Lemma div_nan_l (x : float) : nan / x = nan.
Proof.
  apply is_nan_eq, is_nan_Prim2SF. rewrite div_spec. reflexivity.
Qed.

Lemma div_nan_r (x : float) : x / nan = nan.
Proof.
  apply is_nan_eq, is_nan_Prim2SF. rewrite div_spec.
  change (Prim2SF nan) with S754_nan. now destruct (Prim2SF x) as [[]|[]| |].
Qed.

(** A NaN compares with nothing. *)
Lemma leb_nan_l (x : float) : (nan <=? x) = false.
Proof. rewrite leb_spec. reflexivity. Qed.

Lemma leb_nan_r (x : float) : (x <=? nan) = false.
Proof.
  rewrite leb_spec. change (Prim2SF nan) with S754_nan.
  now destruct (Prim2SF x) as [[]|[]| |[]].
Qed.

Lemma ltb_nan_l (x : float) : (nan <? x) = false.
Proof. rewrite ltb_spec. reflexivity. Qed.

Lemma ltb_nan_r (x : float) : (x <? nan) = false.
Proof.
  rewrite ltb_spec. change (Prim2SF nan) with S754_nan.
  now destruct (Prim2SF x) as [[]|[]| |[]].
Qed.

Lemma eqb_nan_r (x : float) : (x =? nan) = false.
Proof.
  rewrite FloatAxioms.eqb_spec. change (Prim2SF nan) with S754_nan.
  now destruct (Prim2SF x) as [[]|[]| |[]].
Qed.

Lemma eqb_nan_l (x : float) : (nan =? x) = false.
Proof. rewrite FloatAxioms.eqb_spec. reflexivity. Qed.

(** What compares with something is no NaN. *)
Lemma leb_not_nan (x y : float) :
  (x <=? y) = true -> PrimFloat.is_nan x = false /\ PrimFloat.is_nan y = false.
Proof.
  intros H. split.
  - destruct (PrimFloat.is_nan x) eqn:E; [|reflexivity].
    apply is_nan_eq in E. subst x. now rewrite leb_nan_l in H.
  - destruct (PrimFloat.is_nan y) eqn:E; [|reflexivity].
    apply is_nan_eq in E. subst y. now rewrite leb_nan_r in H.
Qed.

(** The sum of a list that holds a NaN is a NaN. *)
Lemma fold_add_nan (xs : list float) : fold_left PrimFloat.add xs nan = nan.
Proof.
  induction xs as [|x xs IH]; simpl; [reflexivity|].
  now rewrite add_nan_l.
Qed.

Lemma sum_nan (xs : list float) (acc : float) :
  In nan xs -> fold_left PrimFloat.add xs acc = nan.
Proof.
  revert acc. induction xs as [|x xs IH]; intros acc; simpl; [contradiction|].
  intros [->|H].
  - rewrite add_nan_r. apply fold_add_nan.
  - now apply IH.
Qed.

End FloatNaN.

(** ** Acceptance of an assessment *)

Module AssessmentProperties.
Import Py Quality Assessment FloatOrder Examples Samples.
Local Open Scope float_scope.

(** A score of at least [b] is at least any [a] below [b]. *)
Lemma geb_weaken (s a b : float) :
  (a <=? b) = true -> geb s b = true -> geb s a = true.
Proof. unfold geb. intros Hab Hb. exact (leb_trans a b s Hab Hb). Qed.

(** The grade, from the three comparisons of the score. *)
Lemma determine_quality_grade_cases (m : QualityMetrics) :
  let s := calculate_overall_score m in
  (geb s 90 = true /\ geb s 80 = true /\ geb s 60 = true
   /\ determine_quality_grade m = EXTRA_VIRGIN)
  \/ (geb s 90 = false /\ geb s 80 = true /\ geb s 60 = true
      /\ determine_quality_grade m = VIRGIN)
  \/ (geb s 90 = false /\ geb s 80 = false /\ geb s 60 = true
      /\ determine_quality_grade m = LAMPANTE)
  \/ (geb s 90 = false /\ geb s 80 = false /\ geb s 60 = false
      /\ determine_quality_grade m = REFINED).
Proof.
  intros s. unfold determine_quality_grade. fold s.
  destruct (geb s 90) eqn:E90.
  { left. pose proof (geb_weaken s 80 90 eq_refl E90) as E80.
    pose proof (geb_weaken s 60 90 eq_refl E90) as E60. auto. }
  destruct (geb s 80) eqn:E80.
  { right; left. pose proof (geb_weaken s 60 80 eq_refl E80) as E60. auto. }
  destruct (geb s 60) eqn:E60; auto 10.
Qed.

(** X1.  An assessment whose grade is the one its metrics determine is
    acceptable for a minimum grade exactly when the overall score reaches
    the threshold of that grade: 90 for extra virgin, 80 for virgin (the
    default), 60 for lampante, and always for refined and unknown. *)
Theorem is_acceptable_quality_of_score (a : SpectralQualityAssessment)
    (min_grade : QualityGrade) :
  quality_grade a = determine_quality_grade (quality_metrics a) ->
  is_acceptable_quality a min_grade
  = match min_grade with
    | EXTRA_VIRGIN => geb (calculate_overall_score (quality_metrics a)) 90
    | VIRGIN => geb (calculate_overall_score (quality_metrics a)) 80
    | LAMPANTE => geb (calculate_overall_score (quality_metrics a)) 60
    | REFINED | UNKNOWN => true
    end.
Proof.
  intros Hg. unfold is_acceptable_quality. rewrite Hg.
  destruct (determine_quality_grade_cases (quality_metrics a))
    as [H|[H|[H|H]]]; destruct H as (-> & -> & -> & ->);
    destruct min_grade; reflexivity.
Qed.

Lemma is_acceptable_quality_of_score_witness :
  is_acceptable_quality example_assessment default_min_grade
  = geb (calculate_overall_score example_metrics) 80.
Proof.
  apply (is_acceptable_quality_of_score example_assessment default_min_grade).
  reflexivity.
Defined.

(** X2.  The acceptance compares ranks: a grade is acceptable for itself, what
    is acceptable for a minimum grade is acceptable for every lower one,
    everything is acceptable for unknown, only extra virgin is acceptable
    for extra virgin, and an unknown grade is acceptable for no other
    minimum grade, the default among them. *)
Theorem is_acceptable_quality_order (a : SpectralQualityAssessment) :
  is_acceptable_quality a (quality_grade a) = true
  /\ (forall g g', (grade_hierarchy g' <= grade_hierarchy g)%Z ->
        is_acceptable_quality a g = true -> is_acceptable_quality a g' = true)
  /\ is_acceptable_quality a UNKNOWN = true
  /\ (is_acceptable_quality a EXTRA_VIRGIN = true <-> quality_grade a = EXTRA_VIRGIN)
  /\ (quality_grade a = UNKNOWN ->
        forall g, g <> UNKNOWN -> is_acceptable_quality a g = false)
  /\ (quality_grade a = UNKNOWN -> is_acceptable_quality a default_min_grade = false).
Proof.
  unfold is_acceptable_quality.
  split; [apply Z.leb_refl|].
  split; [intros g g' Hg H; apply Z.leb_le in H; apply Z.leb_le; lia|].
  split; [now destruct (quality_grade a)|].
  split; [destruct (quality_grade a); simpl; split; intros H;
            (reflexivity || discriminate H)|].
  split; [intros -> g Hg; destruct g; try reflexivity; congruence|].
  intros ->. reflexivity.
Qed.

(** X3.  A higher overall score never gives a lower grade. *)
Theorem determine_quality_grade_monotone (m1 m2 : QualityMetrics) :
  (calculate_overall_score m1 <=? calculate_overall_score m2) = true ->
  (grade_hierarchy (determine_quality_grade m1)
   <= grade_hierarchy (determine_quality_grade m2))%Z.
Proof.
  intros Hle.
  assert (Hup : forall b, geb (calculate_overall_score m1) b = true ->
                          geb (calculate_overall_score m2) b = true).
  { intros b Hb. unfold geb in *. exact (leb_trans _ _ _ Hb Hle). }
  destruct (determine_quality_grade_cases m1) as [H|[H|[H|H]]];
    destruct H as (A90 & A80 & A60 & ->);
    destruct (determine_quality_grade_cases m2) as [K|[K|[K|K]]];
    destruct K as (B90 & B80 & B60 & ->); simpl; try lia.
  all: try (apply Hup in A90; congruence).
  all: try (apply Hup in A80; congruence).
  all: try (apply Hup in A60; congruence).
Qed.

Lemma determine_quality_grade_monotone_witness :
  (grade_hierarchy (determine_quality_grade full_metrics)
   <= grade_hierarchy (determine_quality_grade example_metrics))%Z.
Proof.
  apply (determine_quality_grade_monotone full_metrics example_metrics).
  vm_compute. reflexivity.
Defined.

End AssessmentProperties.

(** ** What the score reads, and what a NaN does to it *)

Module ScoreInputProperties.
Import Py Quality FloatOrder FloatNaN Variation Examples.
Local Open Scope float_scope.

(** Neither the score, nor the grade, nor the compliance with a threshold
    reads [delta_k]. *)
Theorem delta_k_is_never_read (m : QualityMetrics) (t : QualityThreshold)
    (d : option float) :
  calculate_overall_score (with_metric m DELTA_K d) = calculate_overall_score m
  /\ determine_quality_grade (with_metric m DELTA_K d) = determine_quality_grade m
  /\ check_compliance t (with_metric m DELTA_K d) = check_compliance t m.
Proof. destruct m; repeat split. Qed.

(** The score is a NaN as soon as a sensory score is one. *)
Lemma sensory_nan_score (m : QualityMetrics) :
  flavor_score m = Some nan \/ aroma_score m = Some nan ->
  calculate_overall_score m = nan.
Proof.
  intros H.
  destruct m as [a p k2 k7 dk fl ar ts]. simpl in H.
  unfold calculate_overall_score, append; simpl.
  repeat match goal with
         | |- context [match ?o with Some _ => _ | None => _ end] =>
             is_var o; destruct o; simpl
         | |- context [PrimFloat.leb ?x ?t] => destruct (PrimFloat.leb x t); simpl
         end;
    destruct H as [H|H]; try discriminate H; injection H as ->.
  all: unfold sum; rewrite sum_nan by (simpl; tauto); apply div_nan_l.
Qed.

(** X4.  A NaN has two effects.  A sensory score that is a NaN makes the
    overall score a NaN, and the grade is then refined.  A chemical value
    that is a NaN gets the sub-score 0, as the value plus infinity does:
    the score is the one of the metrics with plus infinity in its place,
    and it is 0 when nothing else is present. *)
Theorem nan_in_the_metrics (m : QualityMetrics) :
  (flavor_score m = Some nan \/ aroma_score m = Some nan ->
     calculate_overall_score m = nan /\ determine_quality_grade m = REFINED)
  /\ (forall i, i = ACIDITY \/ i = PEROXIDE_VALUE \/ i = K232 \/ i = K270 ->
        metric m i = Some nan ->
        calculate_overall_score m
        = calculate_overall_score (with_metric m i (Some infinity)))
  /\ (forall i, i = ACIDITY \/ i = PEROXIDE_VALUE \/ i = K232 \/ i = K270 ->
        calculate_overall_score (with_metric no_metrics i (Some nan)) = 0
        /\ determine_quality_grade (with_metric no_metrics i (Some nan)) = REFINED).
Proof.
  split; [|split].
  - intros H. apply sensory_nan_score in H.
    split; [exact H|]. unfold determine_quality_grade. rewrite H. reflexivity.
  - intros i Hi Hm. destruct m as [a p k2 k7 dk fl ar ts].
    destruct Hi as [-> | [-> | [-> | ->]]]; simpl in Hm; subst; reflexivity.
  - intros i Hi.
    destruct Hi as [-> | [-> | [-> | ->]]]; split; vm_compute; reflexivity.
Qed.

(** The entry of the compliance for a key, written with one test per
    key. *)
Lemma check_compliance_lookup (t : QualityThreshold) (m : QualityMetrics)
    (k : string) :
  check_compliance t m !! k
  = if decide (k = "acidity"%string) then
      (fun v => v <=? max_acidity t) <$> acidity m
    else if decide (k = "peroxide_value"%string) then
      (fun v => v <=? max_peroxide_value t) <$> peroxide_value m
    else if decide (k = "k232"%string) then
      (fun v => v <=? max_k232 t) <$> k232 m
    else if decide (k = "k270"%string) then
      (fun v => v <=? max_k270 t) <$> k270 m
    else if decide (k = "flavor"%string) then
      (fun v => geb v (min_flavor_score t)) <$> flavor_score m
    else if decide (k = "aroma"%string) then
      (fun v => geb v (min_aroma_score t)) <$> aroma_score m
    else None.
Proof.
  destruct m as [a p k2 k7 dk fl ar ts]. unfold check_compliance; simpl.
  repeat (destruct (decide _) as [-> | ?]);
    destruct a, p, k2, k7, fl, ar; simpl;
    rewrite ?lookup_insert_ne by congruence;
    rewrite ?lookup_insert, ?lookup_empty; reflexivity.
Qed.

(** X5.  A threshold with looser bounds (higher maxima, lower minima) keeps
    every entry of the compliance that is [True]; and an indicator that is
    a NaN never complies. *)
Theorem check_compliance_looser (t1 t2 : QualityThreshold) (m : QualityMetrics)
    (k : string) :
  (max_acidity t1 <=? max_acidity t2) = true ->
  (max_peroxide_value t1 <=? max_peroxide_value t2) = true ->
  (max_k232 t1 <=? max_k232 t2) = true ->
  (max_k270 t1 <=? max_k270 t2) = true ->
  (min_flavor_score t2 <=? min_flavor_score t1) = true ->
  (min_aroma_score t2 <=? min_aroma_score t1) = true ->
  check_compliance t1 m !! k = Some true ->
  check_compliance t2 m !! k = Some true.
Proof.
  intros H1 H2 H3 H4 H5 H6. rewrite !check_compliance_lookup.
  repeat (destruct (decide _) as [-> | ?]); try discriminate;
    match goal with
    | |- context [_ <$> ?o] => destruct o as [v|]; simpl; try discriminate
    end;
    intros [= H]; f_equal; unfold geb in *; eauto using leb_trans.
Qed.

Lemma check_compliance_looser_witness :
  check_compliance
    {| grade := VIRGIN; max_acidity := 2.0; max_peroxide_value := 20;
       max_k232 := 2.6; max_k270 := 0.25; min_flavor_score := 3.5;
       min_aroma_score := 3.5 |} example_metrics !! "k270"%string = Some true.
Proof.
  apply (check_compliance_looser extra_virgin_threshold); try reflexivity.
Defined.

End ScoreInputProperties.

(** ** Reductions of an array *)

Module NumpyProperties.
Import Py Numpy FloatOrder FloatNaN.
Local Open Scope float_scope.

(** Two numbers, neither a NaN, compare one way or the other. *)
Lemma SFcompare_None (x y : spec_float) :
  SFcompare x y = None -> x = S754_nan \/ y = S754_nan.
Proof.
  destruct x as [sx|sx| |sx mx ex], y as [sy|sy| |sy my ey]; simpl; auto;
    try discriminate;
    try (destruct sx; discriminate);
    try (destruct sy; discriminate);
    try (destruct sx, sy; discriminate).
Qed.

Lemma leb_total (a b : float) :
  PrimFloat.is_nan a = false -> PrimFloat.is_nan b = false ->
  (a <=? b) = false -> (b <=? a) = true.
Proof.
  intros Na Nb. rewrite !leb_spec. unfold SFleb.
  rewrite (SFcompare_swap (Prim2SF a) (Prim2SF b)).
  destruct (SFcompare (Prim2SF a) (Prim2SF b)) as [[]|] eqn:E; simpl;
    try congruence.
  apply SFcompare_None in E as [E|E]; apply is_nan_Prim2SF in E; congruence.
Qed.

Lemma leb_refl (a : float) : PrimFloat.is_nan a = false -> (a <=? a) = true.
Proof.
  intros Na. rewrite leb_spec. unfold SFleb. rewrite SFcompare_refl; [reflexivity|].
  intros E. apply is_nan_Prim2SF in E. congruence.
Qed.

(** The reductions keep a NaN, and get one from the first NaN item. *)
Lemma minimum_nan_l (b : float) : minimum nan b = nan.
Proof.
  unfold minimum. change (PrimFloat.is_nan nan) with true.
  now rewrite orb_true_r.
Qed.

Lemma maximum_nan_l (b : float) : maximum nan b = nan.
Proof.
  unfold maximum. change (PrimFloat.is_nan nan) with true.
  now rewrite orb_true_r.
Qed.

Lemma fold_minimum_nan (xs : list float) : fold_left minimum xs nan = nan.
Proof.
  induction xs as [|x xs IH]; simpl; [reflexivity|].
  now rewrite minimum_nan_l.
Qed.

Lemma fold_maximum_nan (xs : list float) : fold_left maximum xs nan = nan.
Proof.
  induction xs as [|x xs IH]; simpl; [reflexivity|].
  now rewrite maximum_nan_l.
Qed.

Lemma minimum_nan_r (a : float) : minimum a nan = nan.
Proof.
  unfold minimum. rewrite leb_nan_r. simpl.
  destruct (PrimFloat.is_nan a) eqn:E; [now apply is_nan_eq|reflexivity].
Qed.

Lemma maximum_nan_r (a : float) : maximum a nan = nan.
Proof.
  unfold maximum. rewrite leb_nan_l. simpl.
  destruct (PrimFloat.is_nan a) eqn:E; [now apply is_nan_eq|reflexivity].
Qed.

Lemma fold_minimum_In_nan (xs : list float) (acc : float) :
  In nan xs -> fold_left minimum xs acc = nan.
Proof.
  revert acc. induction xs as [|x xs IH]; intros acc; simpl; [contradiction|].
  intros [->|H]; [|now apply IH].
  rewrite minimum_nan_r. apply fold_minimum_nan.
Qed.

Lemma fold_maximum_In_nan (xs : list float) (acc : float) :
  In nan xs -> fold_left maximum xs acc = nan.
Proof.
  revert acc. induction xs as [|x xs IH]; intros acc; simpl; [contradiction|].
  intros [->|H]; [|now apply IH].
  rewrite maximum_nan_r. apply fold_maximum_nan.
Qed.

(** Without a NaN, the reduction is an item that compares before (after)
    every item. *)
Lemma fold_minimum_spec (xs : list float) (acc : float) :
  PrimFloat.is_nan acc = false ->
  Forall (fun x => PrimFloat.is_nan x = false) xs ->
  let r := fold_left minimum xs acc in
  (r = acc \/ In r xs) /\ (r <=? acc) = true
  /\ Forall (fun x => (r <=? x) = true) xs.
Proof.
  revert acc. induction xs as [|x xs IH]; intros acc Na Hxs; simpl.
  - split; [now left|]. split; [now apply leb_refl|constructor].
  - apply Forall_cons_1 in Hxs as [Nx Hxs].
    assert (Hm : minimum acc x = if acc <=? x then acc else x).
    { unfold minimum. now rewrite Na, orb_false_r. }
    rewrite Hm. clear Hm. destruct (acc <=? x) eqn:E.
    + destruct (IH acc Na Hxs) as (Hin & Hle & Hall).
      split; [tauto|]. split; [exact Hle|].
      constructor; [exact (leb_trans _ _ _ Hle E)|exact Hall].
    + destruct (IH x Nx Hxs) as (Hin & Hle & Hall).
      split; [destruct Hin as [Hin|Hin]; [right; left; congruence|tauto]|].
      pose proof (leb_total acc x Na Nx E) as Hxa.
      split; [exact (leb_trans _ _ _ Hle Hxa)|].
      constructor; assumption.
Qed.

Lemma fold_maximum_spec (xs : list float) (acc : float) :
  PrimFloat.is_nan acc = false ->
  Forall (fun x => PrimFloat.is_nan x = false) xs ->
  let r := fold_left maximum xs acc in
  (r = acc \/ In r xs) /\ (acc <=? r) = true
  /\ Forall (fun x => (x <=? r) = true) xs.
Proof.
  revert acc. induction xs as [|x xs IH]; intros acc Na Hxs; simpl.
  - split; [now left|]. split; [now apply leb_refl|constructor].
  - apply Forall_cons_1 in Hxs as [Nx Hxs].
    assert (Hm : maximum acc x = if x <=? acc then acc else x).
    { unfold maximum. now rewrite Na, orb_false_r. }
    rewrite Hm. clear Hm. destruct (x <=? acc) eqn:E.
    + destruct (IH acc Na Hxs) as (Hin & Hle & Hall).
      split; [tauto|]. split; [exact Hle|].
      constructor; [exact (leb_trans _ _ _ E Hle)|exact Hall].
    + destruct (IH x Nx Hxs) as (Hin & Hle & Hall).
      split; [destruct Hin as [Hin|Hin]; [right; left; congruence|tauto]|].
      pose proof (leb_total x acc Nx Na E) as Hxa.
      split; [exact (leb_trans _ _ _ Hxa Hle)|].
      constructor; assumption.
Qed.

(** The reductions of an array that is not empty. *)
Lemma amin_amax_ok (a : list float) :
  a <> [] -> exists lo hi, amin a = Ok lo /\ amax a = Ok hi.
Proof. destruct a as [|x a]; [congruence|]. intros _. simpl. eauto. Qed.

Lemma amin_amax_no_nan (a : list float) (lo hi : float) :
  Forall (fun x => PrimFloat.is_nan x = false) a ->
  amin a = Ok lo -> amax a = Ok hi ->
  In lo a /\ In hi a
  /\ Forall (fun x => (lo <=? x) = true /\ (x <=? hi) = true) a.
Proof.
  destruct a as [|x a]; [discriminate|]. intros Hall. simpl.
  intros [= <-] [= <-].
  apply Forall_cons_1 in Hall as [Nx Hall].
  destruct (fold_minimum_spec a x Nx Hall) as (Hin & Hle & Hmin).
  destruct (fold_maximum_spec a x Nx Hall) as (Hin' & Hle' & Hmax).
  split; [simpl; intuition congruence|].
  split; [simpl; intuition congruence|].
  constructor; [tauto|].
  apply Forall_forall. intros y Hy.
  rewrite Forall_forall in Hmin, Hmax. auto.
Qed.

Lemma amin_amax_nan (a : list float) :
  In nan a -> amin a = Ok nan /\ amax a = Ok nan.
Proof.
  destruct a as [|x a]; [contradiction|]. simpl. intros [->|H].
  - now rewrite fold_minimum_nan, fold_maximum_nan.
  - now rewrite fold_minimum_In_nan, fold_maximum_In_nan.
Qed.

(** The reductions of an array whose items are all the same. *)
Lemma fold_minimum_constant (xs : list float) (c : float) :
  Forall (fun x => x = c) xs -> fold_left minimum xs c = c.
Proof.
  induction 1 as [|x xs -> _ IH]; simpl; [reflexivity|].
  replace (minimum c c) with c; [exact IH|].
  unfold minimum. now destruct (_ || _).
Qed.

Lemma fold_maximum_constant (xs : list float) (c : float) :
  Forall (fun x => x = c) xs -> fold_left maximum xs c = c.
Proof.
  induction 1 as [|x xs -> _ IH]; simpl; [reflexivity|].
  replace (maximum c c) with c; [exact IH|].
  unfold maximum. now destruct (_ || _).
Qed.

Lemma amin_amax_constant (a : list float) (c : float) :
  a <> [] -> Forall (fun x => x = c) a -> amin a = Ok c /\ amax a = Ok c.
Proof.
  destruct a as [|x a]; [congruence|]. intros _ H.
  apply Forall_cons_1 in H as [-> H]. simpl.
  now rewrite fold_minimum_constant, fold_maximum_constant.
Qed.

End NumpyProperties.

(** ** Ranges and normalisation of spectral data *)

Module SpectralDataProperties.
Import Py Numpy Spectrum FloatNaN NumpyProperties SpectrumProperties Samples.
Local Open Scope float_scope.

(** What the constructor returns is its arguments, of one length that is
    not zero. *)
Lemma new_SpectralData_inv (w i : list float) (t : SpectroscopyType)
    (ex em : option float) (mc : option (gmap string string)) (sd : SpectralData) :
  new_SpectralData w i t ex em mc = Ok sd ->
  sd = {| wavelengths := w; intensities := i; spectroscopy_type := t;
          excitation_wavelength := ex; emission_wavelength := em;
          measurement_conditions := mc |}
  /\ List.length w = List.length i /\ (0 < List.length w)%nat.
Proof.
  unfold new_SpectralData, __post_init__; simpl.
  destruct (Nat.eqb_spec (List.length w) (List.length i)) as [Heq|Hne]; simpl;
    [|discriminate].
  destruct (Nat.eqb_spec (List.length w) 0) as [Hz|Hnz]; simpl; [discriminate|].
  intros [= <-]. repeat split; [assumption|lia].
Qed.

(** The range of an array that is not empty. *)
Lemma range_spec (a : list float) :
  a <> [] ->
  exists lo hi, amin a = Ok lo /\ amax a = Ok hi
    /\ (Forall (fun x => PrimFloat.is_nan x = false) a ->
          In lo a /\ In hi a
          /\ Forall (fun x => (lo <=? x) = true /\ (x <=? hi) = true) a)
    /\ (In nan a -> lo = nan /\ hi = nan).
Proof.
  intros Ha. destruct (amin_amax_ok a Ha) as (lo & hi & Hlo & Hhi).
  exists lo, hi. split; [exact Hlo|]. split; [exact Hhi|]. split.
  - intros Hall. now apply amin_amax_no_nan.
  - intros Hnan. destruct (amin_amax_nan a Hnan) as [H1 H2].
    rewrite H1 in Hlo. rewrite H2 in Hhi. split; congruence.
Qed.

(** X6.  For a record that the constructor returned, the two ranges have a
    value and the number of points is at least one and is the number of
    intensities.  When no wavelength is a NaN, the ends of the wavelength
    range are wavelengths of the record and every wavelength lies between
    them; when a wavelength is a NaN, both ends are NaN.  The same holds
    for the intensities. *)
Theorem ranges_of_spectral_data (w i : list float) (t : SpectroscopyType)
    (ex em : option float) (mc : option (gmap string string)) (sd : SpectralData) :
  new_SpectralData w i t ex em mc = Ok sd ->
  (1 <= data_points sd)%nat
  /\ data_points sd = List.length (intensities sd)
  /\ (exists lo hi, wavelength_range sd = Ok (lo, hi)
        /\ (Forall (fun x => PrimFloat.is_nan x = false) (wavelengths sd) ->
              In lo (wavelengths sd) /\ In hi (wavelengths sd)
              /\ Forall (fun x => (lo <=? x) = true /\ (x <=? hi) = true)
                   (wavelengths sd))
        /\ (In nan (wavelengths sd) -> lo = nan /\ hi = nan))
  /\ (exists lo hi, intensity_range sd = Ok (lo, hi)
        /\ (Forall (fun x => PrimFloat.is_nan x = false) (intensities sd) ->
              In lo (intensities sd) /\ In hi (intensities sd)
              /\ Forall (fun x => (lo <=? x) = true /\ (x <=? hi) = true)
                   (intensities sd))
        /\ (In nan (intensities sd) -> lo = nan /\ hi = nan)).
Proof.
  intros H. apply new_SpectralData_inv in H as (-> & Hlen & Hpos).
  unfold data_points, wavelength_range, intensity_range; simpl.
  split; [lia|]. split; [exact Hlen|].
  assert (Hw : w <> []) by (intros ->; simpl in Hpos; lia).
  assert (Hi : i <> []) by (intros ->; simpl in Hlen, Hpos; lia).
  split.
  - destruct (range_spec w Hw) as (lo & hi & -> & -> & H1 & H2).
    exists lo, hi. simpl. auto.
  - destruct (range_spec i Hi) as (lo & hi & -> & -> & H1 & H2).
    exists lo, hi. simpl. auto.
Qed.

Lemma ranges_of_spectral_data_witness :
  (1 <= data_points example_spectral_data)%nat
  /\ wavelength_range example_spectral_data = Ok (300, 320)
  /\ intensity_range example_spectral_data = Ok (1, 3).
Proof.
  pose proof (ranges_of_spectral_data [300; 310; 320] [1; 3; 2] FLUORESCENCE
                (Some 350) None None example_spectral_data eq_refl)
    as (Hn & _ & _ & _).
  split; [exact Hn|]. split; reflexivity.
Defined.

(** The two ranges have no value on arrays that are empty, which the
    constructor refuses. *)
Example ranges_of_empty_arrays :
  forall t ex em mc,
    is_ok (wavelength_range
             {| wavelengths := []; intensities := []; spectroscopy_type := t;
                excitation_wavelength := ex; emission_wavelength := em;
                measurement_conditions := mc |}) = false.
Proof. reflexivity. Qed.

Section Normalize.

Variables (mean std : list float -> float).

(** The normalised record that [normalize] builds from new intensities. *)
Lemma normalize_result (sd : SpectralData) (ys : list float) :
  List.length (wavelengths sd) = List.length (intensities sd) ->
  (0 < List.length (wavelengths sd))%nat ->
  List.length ys = List.length (intensities sd) ->
  new_SpectralData (wavelengths sd) ys (spectroscopy_type sd)
    (excitation_wavelength sd) (emission_wavelength sd)
    (measurement_conditions sd)
  = Ok {| wavelengths := wavelengths sd; intensities := ys;
          spectroscopy_type := spectroscopy_type sd;
          excitation_wavelength := excitation_wavelength sd;
          emission_wavelength := emission_wavelength sd;
          measurement_conditions := measurement_conditions sd |}.
Proof. intros H1 H2 H3. apply new_SpectralData_ok; lia. Qed.

(** X7.  A method other than ["minmax"] and ["zscore"] raises, whatever the
    record.  On a record that the constructor returned, the two methods
    return a record with the same wavelengths, type and metadata and as
    many intensities: for ["minmax"], each intensity [x] becomes
    [(x - lo) / (hi - lo)] where [(lo, hi)] is the intensity range, and for
    ["zscore"], [(x - mean) / std]. *)
Theorem normalize_result_shape (w i : list float) (t : SpectroscopyType)
    (ex em : option float) (mc : option (gmap string string))
    (sd : SpectralData) (method : string) :
  new_SpectralData w i t ex em mc = Ok sd ->
  (method <> "minmax"%string -> method <> "zscore"%string ->
     normalize mean std sd method
     = Raise (ValueError ("Unknown normalization method: " ++ method)))
  /\ (exists lo hi, intensity_range sd = Ok (lo, hi)
        /\ normalize mean std sd "minmax"
           = Ok {| wavelengths := w;
                   intensities := map (fun x => (x - lo) / (hi - lo)) i;
                   spectroscopy_type := t; excitation_wavelength := ex;
                   emission_wavelength := em; measurement_conditions := mc |})
  /\ normalize mean std sd "zscore"
     = Ok {| wavelengths := w;
             intensities := map (fun x => (x - mean i) / std i) i;
             spectroscopy_type := t; excitation_wavelength := ex;
             emission_wavelength := em; measurement_conditions := mc |}
  /\ (forall sd', normalize mean std sd method = Ok sd' ->
        wavelengths sd' = wavelengths sd
        /\ data_points sd' = data_points sd
        /\ List.length (intensities sd') = data_points sd
        /\ spectroscopy_type sd' = spectroscopy_type sd
        /\ excitation_wavelength sd' = excitation_wavelength sd
        /\ emission_wavelength sd' = emission_wavelength sd
        /\ measurement_conditions sd' = measurement_conditions sd).
Proof.
  intros H. apply new_SpectralData_inv in H as (-> & Hlen & Hpos).
  assert (Hi : i <> []) by (intros ->; simpl in Hlen, Hpos; lia).
  destruct (amin_amax_ok i Hi) as (lo & hi & Hlo & Hhi).
  assert (Hminmax :
    normalize mean std
      {| wavelengths := w; intensities := i; spectroscopy_type := t;
         excitation_wavelength := ex; emission_wavelength := em;
         measurement_conditions := mc |} "minmax"
    = Ok {| wavelengths := w;
            intensities := map (fun x => (x - lo) / (hi - lo)) i;
            spectroscopy_type := t; excitation_wavelength := ex;
            emission_wavelength := em; measurement_conditions := mc |}).
  { unfold normalize; simpl. rewrite Hlo, Hhi; simpl. rewrite map_map.
    apply new_SpectralData_ok; [now rewrite length_map|exact Hpos]. }
  assert (Hzscore :
    normalize mean std
      {| wavelengths := w; intensities := i; spectroscopy_type := t;
         excitation_wavelength := ex; emission_wavelength := em;
         measurement_conditions := mc |} "zscore"
    = Ok {| wavelengths := w;
            intensities := map (fun x => (x - mean i) / std i) i;
            spectroscopy_type := t; excitation_wavelength := ex;
            emission_wavelength := em; measurement_conditions := mc |}).
  { unfold normalize; simpl. rewrite map_map.
    apply new_SpectralData_ok; [now rewrite length_map|exact Hpos]. }
  split; [|split; [|split]].
  - intros N1 N2. unfold normalize.
    apply String.eqb_neq in N1, N2. now rewrite N1, N2.
  - exists lo, hi. split; [|exact Hminmax].
    unfold intensity_range; simpl. now rewrite Hlo, Hhi.
  - exact Hzscore.
  - intros sd'.
    destruct (String.eqb_spec method "minmax") as [->|N1].
    { rewrite Hminmax. intros [= <-]. unfold data_points; simpl.
      rewrite length_map. repeat split; auto. }
    destruct (String.eqb_spec method "zscore") as [->|N2].
    { rewrite Hzscore. intros [= <-]. unfold data_points; simpl.
      rewrite length_map. repeat split; auto. }
    unfold normalize. apply String.eqb_neq in N1, N2. rewrite N1, N2.
    discriminate.
Qed.

(** The difference of a number with itself is zero, or a NaN. *)
Lemma sub_diag_cases (c : float) :
  Prim2SF (c - c) = S754_zero false \/ Prim2SF (c - c) = S754_nan.
Proof.
  rewrite sub_spec.
  destruct (Prim2SF c) as [[]|[]| |s m e]; simpl; auto.
  left.
  replace (cond_Zopp s (Z.pos (fst (shl_align m e (IntDef.Z.min e e))))
           - cond_Zopp s (Z.pos (fst (shl_align m e (IntDef.Z.min e e)))))%Z
    with 0%Z by (symmetry; apply Z.sub_diag).
  reflexivity.
Qed.

Lemma sub_diag_div (c : float) : (c - c) / (c - c) = nan.
Proof.
  apply is_nan_eq, is_nan_Prim2SF. rewrite div_spec.
  destruct (sub_diag_cases c) as [-> | ->]; reflexivity.
Qed.

(** X8.  A record whose intensities are all the same number [c], a single
    point among them, is normalised by ["minmax"] into intensities that
    are all NaN: the range has width zero and nothing guards the
    division. *)
Theorem normalize_flat_spectrum (w i : list float) (t : SpectroscopyType)
    (ex em : option float) (mc : option (gmap string string))
    (sd : SpectralData) (c : float) :
  new_SpectralData w i t ex em mc = Ok sd ->
  Forall (fun x => x = c) i ->
  normalize mean std sd "minmax"
  = Ok {| wavelengths := w; intensities := map (fun _ => nan) i;
          spectroscopy_type := t; excitation_wavelength := ex;
          emission_wavelength := em; measurement_conditions := mc |}.
Proof.
  intros H Hc. apply new_SpectralData_inv in H as (-> & Hlen & Hpos).
  assert (Hi : i <> []) by (intros ->; simpl in Hlen, Hpos; lia).
  destruct (amin_amax_constant i c Hi Hc) as [Hlo Hhi].
  assert (Hmap : map (fun x => (x - c) / (c - c)) i = map (fun _ => nan) i).
  { clear -Hc. induction Hc as [|y l -> _ IH]; simpl; [reflexivity|].
    now rewrite sub_diag_div, IH. }
  unfold normalize; simpl. rewrite Hlo, Hhi; simpl. rewrite map_map, Hmap.
  apply new_SpectralData_ok; [now rewrite length_map|exact Hpos].
Qed.

End Normalize.

Lemma normalize_result_shape_witness :
  normalize (fun _ => 2) (fun _ => 1) example_spectral_data "zscore"
  = Ok {| wavelengths := [300; 310; 320]; intensities := [-1; 1; 0];
          spectroscopy_type := FLUORESCENCE; excitation_wavelength := Some 350;
          emission_wavelength := None; measurement_conditions := None |}.
Proof.
  pose proof (normalize_result_shape (fun _ => 2) (fun _ => 1)
                [300; 310; 320] [1; 3; 2] FLUORESCENCE (Some 350) None None
                example_spectral_data "zscore" eq_refl) as (_ & _ & H & _).
  exact H.
Defined.

Lemma normalize_flat_spectrum_witness :
  normalize (fun _ => 2) (fun _ => 0) flat_spectral_data "minmax"
  = Ok {| wavelengths := [300; 310; 320]; intensities := [nan; nan; nan];
          spectroscopy_type := ABSORPTION; excitation_wavelength := None;
          emission_wavelength := None; measurement_conditions := None |}.
Proof.
  apply (normalize_flat_spectrum (fun _ => 2) (fun _ => 0)
           [300; 310; 320] [2; 2; 2] ABSORPTION None None None
           flat_spectral_data 2 eq_refl).
  repeat constructor.
Defined.

(** The ["minmax"] normalisation of the example: the smallest intensity
    becomes 0 and the largest 1. *)
Example normalize_example :
  normalize (fun _ => 0) (fun _ => 1) example_spectral_data "minmax"
  = Ok {| wavelengths := [300; 310; 320]; intensities := [0; 1; 0.5];
          spectroscopy_type := FLUORESCENCE; excitation_wavelength := Some 350;
          emission_wavelength := None; measurement_conditions := None |}.
Proof. reflexivity. Qed.

End SpectralDataProperties.

(** ** Measurements and sessions *)

Module MeasurementProperties.
Import Py Spectrum Measurement FloatNaN Samples.
Local Open Scope string_scope.

(** The loop over the spectra succeeds exactly when every spectrum has
    the type. *)
Lemma check_spectra_ok (t : SpectroscopyType) (l : list Spectrum) :
  check_spectra t l = Ok tt
  <-> Forall (fun s => Spectrum_spectroscopy_type s = t) l.
Proof.
  induction l as [|s l IH]; simpl.
  - split; [constructor|reflexivity].
  - destruct (bool_decide_reflect (Spectrum_spectroscopy_type s = t)) as [E|E];
      simpl.
    + rewrite IH. split; [now constructor|].
      intros H. now apply Forall_cons_1 in H as [_ H].
    + split; [discriminate|].
      intros H. now apply Forall_cons_1 in H as [H _].
Qed.

Lemma check_spectra_raise (t : SpectroscopyType) (l : list Spectrum) :
  check_spectra t l = Raise (ValueError "All spectra must have the same spectroscopy type")
  <-> Exists (fun s => Spectrum_spectroscopy_type s <> t) l.
Proof.
  induction l as [|s l IH]; simpl.
  - split; [discriminate|]. intros H. now apply Exists_nil in H.
  - destruct (bool_decide_reflect (Spectrum_spectroscopy_type s = t)) as [E|E];
      simpl.
    + rewrite IH. split; [now right|].
      intros H. apply Exists_cons in H as [H|H]; [contradiction|exact H].
    + split; [now left|reflexivity].
Qed.

Lemma check_spectra_cases (t : SpectroscopyType) (l : list Spectrum) :
  check_spectra t l = Ok tt
  \/ check_spectra t l
     = Raise (ValueError "All spectra must have the same spectroscopy type").
Proof.
  induction l as [|s l IH]; simpl; [now left|].
  destruct (negb _); [now right|exact IH].
Qed.

(** The two ways of the constructor of a measurement. *)
Lemma new_Measurement_ok (measurement_id : string) (step : AgingStep)
    (t : SpectroscopyType) (l : list Spectrum)
    (md : option (gmap string Any)) (ts : option Z) :
  l <> [] -> Forall (fun s => Spectrum_spectroscopy_type s = t) l ->
  new_Measurement measurement_id step t l md ts
  = Ok {| measurement_id := measurement_id; aging_step := step;
          spectroscopy_type := t; spectra := l; metadata := md;
          timestamp := ts |}.
Proof.
  intros Hne Hall. unfold new_Measurement, __post_init__; simpl.
  destruct l as [|s l]; [congruence|].
  apply check_spectra_ok in Hall. now rewrite Hall.
Qed.

Lemma new_Measurement_inv (measurement_id : string) (step : AgingStep)
    (t : SpectroscopyType) (l : list Spectrum)
    (md : option (gmap string Any)) (ts : option Z) (m : Measurement) :
  new_Measurement measurement_id step t l md ts = Ok m ->
  m = {| measurement_id := measurement_id; aging_step := step;
         spectroscopy_type := t; spectra := l; metadata := md;
         timestamp := ts |}
  /\ l <> [] /\ Forall (fun s => Spectrum_spectroscopy_type s = t) l.
Proof.
  unfold new_Measurement, __post_init__; simpl.
  destruct l as [|s l]; [discriminate|].
  destruct (check_spectra t (s :: l)) as [[]|e] eqn:E; simpl; [|discriminate].
  intros [= <-]. split; [reflexivity|]. split; [discriminate|].
  now apply check_spectra_ok.
Qed.

(** X9.  The constructor of a measurement returns its arguments exactly when
    there is a spectrum and every spectrum has the type of the
    measurement; without a spectrum it raises the first error, and with a
    spectrum of another type the second one.  What it returns has at
    least one spectrum, and spectra of its own type only. *)
Theorem new_Measurement_validates (measurement_id : string) (step : AgingStep)
    (t : SpectroscopyType) (l : list Spectrum)
    (md : option (gmap string Any)) (ts : option Z) :
  (new_Measurement measurement_id step t l md ts
   = Ok {| measurement_id := measurement_id; aging_step := step;
           spectroscopy_type := t; spectra := l; metadata := md;
           timestamp := ts |}
   <-> l <> [] /\ Forall (fun s => Spectrum_spectroscopy_type s = t) l)
  /\ (new_Measurement measurement_id step t l md ts
      = Raise (ValueError "Measurement must contain at least one spectrum")
      <-> l = [])
  /\ (new_Measurement measurement_id step t l md ts
      = Raise (ValueError "All spectra must have the same spectroscopy type")
      <-> Exists (fun s => Spectrum_spectroscopy_type s <> t) l)
  /\ (forall m, new_Measurement measurement_id step t l md ts = Ok m ->
        (1 <= spectrum_count m)%nat
        /\ Forall (fun s => Spectrum_spectroscopy_type s = spectroscopy_type m)
             (spectra m)).
Proof.
  unfold new_Measurement, __post_init__; simpl.
  destruct l as [|s l].
  { simpl. split; [split; [discriminate|intros [H _]; congruence]|].
    split; [split; auto|].
    split; [split; [discriminate|intros H; now apply Exists_nil in H]|].
    discriminate. }
  pose proof (check_spectra_ok t (s :: l)) as Hok.
  pose proof (check_spectra_raise t (s :: l)) as Hraise.
  destruct (check_spectra_cases t (s :: l)) as [E|E]; rewrite E in *; simpl.
  - split; [split; [intros _; split; [discriminate|now apply Hok]|reflexivity]|].
    split; [split; discriminate|].
    split; [split; [discriminate|intros H; apply Hraise in H; discriminate H]|].
    intros m [= <-]. unfold spectrum_count; simpl.
    split; [lia|now apply Hok].
  - split; [split; [discriminate|intros [_ H]; apply Hok in H; discriminate H]|].
    split; [split; discriminate|].
    split; [|discriminate].
    split; [intros _; now apply Hraise|reflexivity].
Qed.

(** X10.  The lookup by name returns the first spectrum of that name, and
    nothing exactly when no spectrum has the name. *)
Theorem get_spectrum_by_name_first (m : Measurement) (name : string) :
  (forall s, get_spectrum_by_name m name = Some s
     <-> exists i, spectra m !! i = Some s /\ measurement_name s = name
         /\ forall j s', (j < i)%nat -> spectra m !! j = Some s' ->
              measurement_name s' <> name)
  /\ (get_spectrum_by_name m name = None
      <-> Forall (fun s => measurement_name s <> name) (spectra m)).
Proof.
  unfold get_spectrum_by_name. generalize (spectra m) as l. intros l.
  split.
  - induction l as [|x l IH]; intros s; simpl.
    + split; [discriminate|]. intros (i & H & _). discriminate H.
    + destruct (String.eqb_spec (measurement_name x) name) as [E|E].
      * split.
        -- intros [= <-]. exists 0%nat. split; [reflexivity|].
           split; [exact E|]. intros j s' Hj. lia.
        -- intros (i & Hi & Hn & Hfirst). destruct i as [|i].
           ++ simpl in Hi. exact Hi.
           ++ exfalso. apply (Hfirst 0%nat x); [lia|reflexivity|exact E].
      * rewrite IH. split.
        -- intros (i & Hi & Hn & Hfirst). exists (S i).
           split; [exact Hi|]. split; [exact Hn|].
           intros [|j] s' Hj Hs'; simpl in Hs'.
           ++ injection Hs' as <-. exact E.
           ++ apply (Hfirst j s'); [lia|exact Hs'].
        -- intros (i & Hi & Hn & Hfirst). destruct i as [|i].
           ++ simpl in Hi. injection Hi as <-. contradiction.
           ++ exists i. split; [exact Hi|]. split; [exact Hn|].
              intros j s' Hj Hs'. apply (Hfirst (S j) s'); [lia|exact Hs'].
  - induction l as [|x l IH]; simpl.
    + split; [constructor|reflexivity].
    + destruct (String.eqb_spec (measurement_name x) name) as [E|E].
      * split; [discriminate|]. intros H.
        apply Forall_cons_1 in H as [H _]. contradiction.
      * rewrite IH. split; [now constructor|].
        intros H. now apply Forall_cons_1 in H as [_ H].
Qed.

(** Of two spectra of one name, the lookup returns the first. *)
Example get_spectrum_by_name_duplicate :
  get_spectrum_by_name
    {| measurement_id := "S"; aging_step := STEP_3;
       spectroscopy_type := FLUORESCENCE;
       spectra := [example_spectrum; second_spectrum];
       metadata := None; timestamp := None |} "spectrum_0"
  = Some example_spectrum.
Proof. reflexivity. Qed.

(** A comparison with a zero does not read its sign. *)
Lemma eqb_zero_sign (e : float) :
  PrimFloat.eqb e 0%float = PrimFloat.eqb e (-0)%float.
Proof.
  rewrite !FloatAxioms.eqb_spec. unfold SFeqb.
  change (Prim2SF 0) with (S754_zero false).
  change (Prim2SF (-0)) with (S754_zero true).
  now destruct (Prim2SF e) as [[]|[]| |[]].
Qed.

(** X11.  The selection by excitation wavelength returns, in their order, the
    spectra whose excitation wavelength is a number equal to the query.
    It returns nothing for a query that is a NaN; a spectrum without
    excitation wavelength, or with a NaN for one, is returned for no
    query; and the queries 0.0 and -0.0 return the same spectra. *)
Theorem get_spectra_by_excitation_matches (m : Measurement) (x : float) :
  (forall s, In s (get_spectra_by_excitation m x)
     <-> In s (spectra m)
         /\ exists e, excitation_wavelength (spectral_data s) = Some e
                      /\ PrimFloat.eqb e x = true)
  /\ sublist (get_spectra_by_excitation m x) (spectra m)
  /\ (PrimFloat.is_nan x = true -> get_spectra_by_excitation m x = [])
  /\ (forall s, In s (get_spectra_by_excitation m x) ->
        excitation_wavelength (spectral_data s) <> None
        /\ excitation_wavelength (spectral_data s) <> Some nan)
  /\ get_spectra_by_excitation m 0%float = get_spectra_by_excitation m (-0)%float.
Proof.
  unfold get_spectra_by_excitation.
  assert (Hin : forall s, In s (List.filter
              (fun spectrum => optional_float_eq
                 (excitation_wavelength (spectral_data spectrum)) x) (spectra m))
     <-> In s (spectra m)
         /\ exists e, excitation_wavelength (spectral_data s) = Some e
                      /\ PrimFloat.eqb e x = true).
  { intros s. rewrite filter_In. unfold optional_float_eq.
    destruct (excitation_wavelength (spectral_data s)) as [e|].
    - split; intros [H1 H2]; (split; [exact H1|]).
      + now exists e.
      + destruct H2 as (e' & [= <-] & H2). exact H2.
    - split; intros [H1 H2]; [discriminate H2|].
      destruct H2 as (e' & H2 & _). discriminate H2. }
  split; [exact Hin|].
  split.
  { generalize (spectra m) as l. induction l as [|s l IH]; simpl.
    - constructor.
    - destruct (optional_float_eq _ _); now constructor. }
  split.
  { intros Hx. apply is_nan_eq in Hx. subst x.
    generalize (spectra m) as l. induction l as [|s l IH]; simpl; [reflexivity|].
    unfold optional_float_eq at 1.
    destruct (excitation_wavelength (spectral_data s)) as [e|]; [|exact IH].
    now rewrite eqb_nan_r. }
  split.
  { intros s Hs. apply Hin in Hs as (_ & e & -> & He).
    split; [discriminate|]. intros [= ->]. now rewrite eqb_nan_l in He. }
  apply List.filter_ext. intros s. unfold optional_float_eq.
  destruct (excitation_wavelength (spectral_data s)); [|reflexivity].
  apply eqb_zero_sign.
Qed.

(** X12.  The selections of a session by aging step, and by type, split its
    measurements: each measurement is in the selection of its own step
    (type) and in no other, and the sizes of the selections add up to the
    number of measurements. *)
Theorem session_selections_partition (s : ExperimentSession) :
  (forall m step, In m (get_measurements_by_aging_step s step)
     <-> In m (measurements s) /\ aging_step m = step)
  /\ (forall m t, In m (get_measurements_by_type s t)
        <-> In m (measurements s) /\ spectroscopy_type m = t)
  /\ list_sum (map (fun step => List.length (get_measurements_by_aging_step s step))
                [STEP_0; STEP_1; STEP_2; STEP_3; STEP_4;
                 STEP_5; STEP_6; STEP_7; STEP_8; STEP_9])
     = measurement_count s
  /\ list_sum (map (fun t => List.length (get_measurements_by_type s t))
                [FLUORESCENCE; ABSORPTION; RAMAN])
     = measurement_count s.
Proof.
  unfold get_measurements_by_aging_step, get_measurements_by_type,
    measurement_count.
  generalize (measurements s) as l. intros l.
  split; [|split; [|split]].
  - intros m step. rewrite filter_In, bool_decide_eq_true. reflexivity.
  - intros m t. rewrite filter_In, bool_decide_eq_true. reflexivity.
  - induction l as [|a l IH]; [reflexivity|].
    simpl in *. destruct (aging_step a); simpl; lia.
  - induction l as [|a l IH]; [reflexivity|].
    simpl in *. destruct (spectroscopy_type a); simpl; lia.
Qed.

End MeasurementProperties.

(** ** What the loaders return *)

Module LoaderProperties.
Import Py Spectrum Fluorescence ExtractionSpec FloatNaN Variation Examples Samples.
Import ExtractionProperties.
Local Open Scope string_scope.

(** The loader returns the records of the pairs of columns. *)
Lemma load_data_omap (df : DataFrame) :
  load_data (Ok df) = omap (pair_record df) (pair_indices df).
Proof.
  unfold load_data. rewrite range_pair_indices.
  apply (fold_load_pair df (pair_indices df) []).
  apply Forall_forall. intros i Hi. unfold pair_indices in Hi.
  apply list_elem_of_In, in_map_iff in Hi as (k & <- & Hk). apply in_seq in Hk.
  pose proof (Nat.div_mod_eq (shape1 df) 2).
  pose proof (Nat.mod_upper_bound (shape1 df) 2). lia.
Qed.

(** The record of a pair, with the rows it is made of. *)
Lemma pair_record_inv (df : DataFrame) (i : nat) (sd : SpectralData) :
  pair_record df i = Some sd ->
  exists wavelength_col intensity_col,
    df !! i = Some wavelength_col /\ df !! (i + 1) = Some intensity_col
    /\ astype_float (map fst (kept_rows wavelength_col intensity_col))
       = Ok (wavelengths sd)
    /\ astype_float (map snd (kept_rows wavelength_col intensity_col))
       = Ok (intensities sd)
    /\ wavelengths sd <> []
    /\ spectroscopy_type sd = FLUORESCENCE
    /\ excitation_wavelength sd
       = Some (_extract_excitation_wavelength (name wavelength_col))
    /\ emission_wavelength sd = None
    /\ measurement_conditions sd = None.
Proof.
  unfold pair_record.
  destruct (df !! i) as [wl|]; [|discriminate].
  destruct (df !! (i + 1)) as [int|]; [|discriminate].
  simpl.
  destruct (astype_float (map fst (kept_rows wl int))) as [[|w ws]|] eqn:Ew;
    try discriminate.
  destruct (astype_float (map snd (kept_rows wl int))) as [ints|] eqn:Ei;
    [|discriminate].
  intros [= <-]. simpl. exists wl, int. repeat split; auto; discriminate.
Qed.

Lemma omap_length_le {A B : Type} (f : A -> option B) (l : list A) :
  List.length (omap f l) <= List.length l.
Proof.
  induction l as [|a l IH]; [reflexivity|].
  change (omap f (a :: l))
    with (match f a with Some y => y :: omap f l | None => omap f l end).
  destruct (f a); simpl; lia.
Qed.

(** A record of the loader, as the constructor returned it. *)
Lemma load_data_record_inv (read_csv : result DataFrame) (sd : SpectralData) :
  In sd (load_data read_csv) ->
  List.length (wavelengths sd) = List.length (intensities sd)
  /\ 1 <= List.length (wavelengths sd)
  /\ spectroscopy_type sd = FLUORESCENCE
  /\ is_Some (excitation_wavelength sd)
  /\ emission_wavelength sd = None.
Proof.
  intros Hin. destruct read_csv as [df|e]; [|contradiction].
  rewrite load_data_omap in Hin.
  apply list_elem_of_In, list_elem_of_omap in Hin as (i & _ & Hi).
  apply pair_record_inv in Hi
    as (wl & int & _ & _ & Hw & Hint & Hne & Ht & Hex & Hem & Hmc).
  apply astype_float_length in Hw, Hint. rewrite !length_map in Hw, Hint.
  split; [congruence|].
  split; [destruct (wavelengths sd); [congruence|simpl; lia]|].
  split; [exact Ht|]. split; [rewrite Hex; eauto|exact Hem].
Qed.

(** X13.  Whatever the table, every record that the fluorescence loader returns
    would pass the validation of the constructor again: it has as many
    wavelengths as intensities, and at least one.  It is a fluorescence
    record with an excitation wavelength and no emission wavelength.
    There are at most as many records as pairs of columns, and none after
    a failed read. *)
Theorem load_data_records (read_csv : result DataFrame) :
  (forall sd, In sd (load_data read_csv) ->
     List.length (wavelengths sd) = List.length (intensities sd)
     /\ 1 <= List.length (wavelengths sd)
     /\ spectroscopy_type sd = FLUORESCENCE
     /\ is_Some (excitation_wavelength sd)
     /\ emission_wavelength sd = None
     /\ new_SpectralData (wavelengths sd) (intensities sd) (spectroscopy_type sd)
          (excitation_wavelength sd) (emission_wavelength sd)
          (measurement_conditions sd) = Ok sd)
  /\ (forall df, read_csv = Ok df ->
        List.length (load_data read_csv) <= shape1 df / 2)
  /\ (forall e, read_csv = Raise e -> load_data read_csv = []).
Proof.
  split; [|split].
  - intros sd Hin.
    destruct (load_data_record_inv read_csv sd Hin) as (Hlen & Hpos & Ht & Hex & Hem).
    repeat (split; [assumption|]).
    rewrite SpectrumProperties.new_SpectralData_ok by first [exact Hlen|lia].
    now destruct sd.
  - intros df ->. rewrite load_data_omap.
    etransitivity; [apply omap_length_le|].
    unfold pair_indices. now rewrite length_map, length_seq.
  - intros e ->. reflexivity.
Qed.

(** The cast of cells that are numbers is these numbers. *)
Lemma astype_float_numbers (cs : list cell) (xs : list float) :
  Forall (fun c => exists x, c = Num x) cs ->
  astype_float cs = Ok xs -> map Num xs = cs.
Proof.
  revert xs. induction cs as [|c cs IH]; intros xs Hall; simpl.
  - now intros [= <-].
  - apply Forall_cons_1 in Hall as [[x ->] Hall].
    destruct (astype_float cs) as [ys|]; simpl; [|discriminate].
    intros [= <-]. simpl. now rewrite (IH ys Hall eq_refl).
Qed.

(** X14.  In a table of numbers (no column read as text), the loader drops each
    row with a missing value and keeps no NaN: no wavelength and no
    intensity of a record is a NaN. *)
Theorem load_data_of_numbers (df : DataFrame) :
  Forall (fun column => Forall (fun c => exists x, c = Num x) (values column)) df ->
  Forall (fun sd =>
            Forall (fun x => PrimFloat.is_nan x = false) (wavelengths sd)
            /\ Forall (fun x => PrimFloat.is_nan x = false) (intensities sd))
    (load_data (Ok df)).
Proof.
  intros Hdf. apply Forall_forall. intros sd Hin.
  rewrite load_data_omap in Hin.
  apply list_elem_of_omap in Hin as (i & _ & Hi).
  apply pair_record_inv in Hi as (wl & int & Hwl & Hint & Hw & Hi & _).
  rewrite Forall_forall in Hdf.
  pose proof (Hdf wl (list_elem_of_lookup_2 _ _ _ Hwl)) as Nwl.
  pose proof (Hdf int (list_elem_of_lookup_2 _ _ _ Hint)) as Nint.
  assert (Hrows : Forall (fun row => (exists x, fst row = Num x)
                                     /\ (exists y, snd row = Num y)
                                     /\ isna (fst row) = false
                                     /\ isna (snd row) = false)
                    (kept_rows wl int)).
  { unfold kept_rows. apply Forall_forall. intros [a b] Hab.
    apply list_elem_of_In, filter_In in Hab as [Hab Hna]. simpl in *.
    apply andb_true_iff in Hna as [Ha Hb].
    apply negb_true_iff in Ha, Hb.
    pose proof (in_combine_l _ _ _ _ Hab) as Hal.
    pose proof (in_combine_r _ _ _ _ Hab) as Hbl.
    rewrite Forall_forall in Nwl, Nint.
    repeat split; auto using list_elem_of_In;
      [apply Nwl|apply Nint]; now apply list_elem_of_In. }
  split.
  - apply astype_float_numbers in Hw.
    2:{ apply Forall_fmap. eapply Forall_impl; [exact Hrows|].
        intros row (H & _). exact H. }
    apply Forall_forall. intros x Hx.
    assert (Hin' : Num x ∈ map fst (kept_rows wl int)).
    { rewrite <- Hw. now apply list_elem_of_fmap_2. }
    apply list_elem_of_fmap in Hin' as (row & Hrow & Hin').
    rewrite Forall_forall in Hrows.
    destruct (Hrows row Hin') as (_ & _ & Hna & _).
    rewrite <- Hrow in Hna. exact Hna.
  - apply astype_float_numbers in Hi.
    2:{ apply Forall_fmap. eapply Forall_impl; [exact Hrows|].
        intros row (_ & H & _). exact H. }
    apply Forall_forall. intros x Hx.
    assert (Hin' : Num x ∈ map snd (kept_rows wl int)).
    { rewrite <- Hi. now apply list_elem_of_fmap_2. }
    apply list_elem_of_fmap in Hin' as (row & Hrow & Hin').
    rewrite Forall_forall in Hrows.
    destruct (Hrows row Hin') as (_ & _ & _ & Hna).
    rewrite <- Hrow in Hna. exact Hna.
Qed.

Lemma load_data_of_numbers_witness :
  Forall (fun sd =>
            Forall (fun x => PrimFloat.is_nan x = false) (wavelengths sd)
            /\ Forall (fun x => PrimFloat.is_nan x = false) (intensities sd))
    (load_data (Ok numeric_frame)).
Proof.
  apply (load_data_of_numbers numeric_frame).
  repeat constructor; eauto.
Defined.

(** The table of numbers gives two records, the first of one row; the
    header ["N0_EX_nan"] gives a NaN for excitation wavelength; the last
    column is not read. *)
Example load_data_numeric_frame :
  map (fun sd => (wavelengths sd, intensities sd, excitation_wavelength sd))
    (load_data (Ok numeric_frame))
  = [([400], [5], Some 300); ([400; 410], [7; 8], Some nan)]%float.
Proof. vm_compute. reflexivity. Qed.

(** One turn of the loop of the absorption loader does what the turn of
    the fluorescence loader does, up to the type and the excitation
    wavelength of the record. *)
Lemma absorption_load_pair (df : DataFrame) (acc : list SpectralData) (i : nat) :
  Absorption.load_pair df (map as_absorption acc) i
  = map as_absorption (load_pair df acc i).
Proof.
  unfold Absorption.load_pair, load_pair.
  change (Absorption._extract_spectrum df i) with (_extract_spectrum df i).
  destruct (_extract_spectrum df i) as [[ws ints]|e] eqn:E; simpl; [|reflexivity].
  destruct (0 <? List.length ws)%nat eqn:Hpos; [|reflexivity].
  assert (Hcol : exists column, index df i = Ok column).
  { unfold _extract_spectrum in E.
    destruct (shape1 df <=? i + 1)%nat; [discriminate E|].
    destruct (index df i) as [column|]; [eauto|discriminate E]. }
  destruct Hcol as [column ->]. simpl.
  unfold new_SpectralData, __post_init__; simpl.
  destruct (negb (List.length ws =? List.length ints)%nat); simpl; [reflexivity|].
  destruct (List.length ws =? 0)%nat; simpl; [reflexivity|].
  unfold append. now rewrite map_app.
Qed.

(** X15.  On one table, the absorption loader returns the records of the
    fluorescence loader, with the same wavelengths and intensities in the
    same order, typed as absorption and without excitation wavelength. *)
Theorem absorption_load_data (read_csv : result DataFrame) :
  Absorption.load_data read_csv = map as_absorption (load_data read_csv).
Proof.
  destruct read_csv as [df|e]; [|reflexivity].
  unfold Absorption.load_data, load_data.
  change (@nil SpectralData) with (map as_absorption []) at 1.
  generalize (@nil SpectralData) as acc.
  induction (range 0 (shape1 df - 1) 2) as [|i idxs IH]; intros acc; simpl;
    [reflexivity|].
  rewrite absorption_load_pair. apply IH.
Qed.

End LoaderProperties.

(** ** Metadata, validation and measurements of a strategy *)

Module StrategyProperties.
Import Py Spectrum FloatNaN NumpyProperties StrProperties NamingSpec Samples.
Import LoaderProperties.
Local Open Scope string_scope.

(** One cut of a split, with the split of the rest. *)
Lemma split_fuel_unfold (sep s : string) :
  sep <> "" ->
  split_fuel (String.length s) sep s
  = match partition sep s with
    | None => [s]
    | Some (before, after) => before :: split_fuel (String.length after) sep after
    end.
Proof.
  intros Hsep. destruct s as [|c s].
  - destruct (partition sep "") as [[b a]|] eqn:E.
    + apply partition_length in E. destruct sep; [contradiction|].
      simpl in E. lia.
    + simpl. simpl in E. now rewrite E.
  - change (String.length (String c s)) with (S (String.length s)).
    change (split_fuel (S (String.length s)) sep (String c s))
      with (match partition sep (String c s) with
            | None => [String c s]
            | Some (before, after) =>
                before :: split_fuel (String.length s) sep after
            end).
    destruct (partition sep (String c s)) as [[b a]|] eqn:E; [|reflexivity].
    f_equal. apply partition_length in E.
    apply split_fuel_enough; [exact Hsep|].
    destruct sep; [contradiction|]. simpl in E. lia.
Qed.

(** The extraction of the metadata never raises. *)
Lemma extract_metadata_ok (now : string) (file_path : Pathlib.Path) :
  exists metadata, Fluorescence.extract_metadata now file_path = Ok metadata.
Proof.
  unfold Fluorescence.extract_metadata.
  rewrite contains_partition.
  destruct (partition "_" (Pathlib.name file_path)) as [[date rest]|] eqn:E1;
    [|eauto].
  unfold split. rewrite split_fuel_unfold, E1 by discriminate.
  rewrite split_fuel_unfold by discriminate.
  destruct (partition "_" rest) as [[time rest']|] eqn:E2; [|simpl; eauto].
  destruct (split_fuel_head (String.length rest') "_" rest') as [tl ->].
  simpl. eauto.
Qed.

(** X16.  The metadata of a fluorescence file.  The call never raises.  The
    five entries [file_path], [file_name], [spectroscopy_type],
    [timestamp] and [aging_step] are always there, the last one being the
    value of the aging step read in the name.  The entries [date], [time]
    and [sample_code] are there together, exactly when the name has two
    underscores: they are the text before the first one, the text between
    the first and the second, and the text from the second to the third
    (or to the end).  There is no other entry. *)
Theorem extract_metadata_entries (now : string) (file_path : Pathlib.Path) :
  exists metadata,
    Fluorescence.extract_metadata now file_path = Ok metadata
    /\ metadata !! "file_path" = Some (AnyStr (Pathlib.str file_path))
    /\ metadata !! "file_name" = Some (AnyStr (Pathlib.name file_path))
    /\ metadata !! "spectroscopy_type" = Some (AnyStr "fluorescence")
    /\ metadata !! "timestamp" = Some (AnyStr now)
    /\ metadata !! "aging_step"
       = Some (AnyInt (Measurement.step_value
                         (Base._extract_aging_step (Pathlib.name file_path))))
    /\ match partition "_" (Pathlib.name file_path) with
       | Some (date, rest) =>
           match partition "_" rest with
           | Some (time, rest') =>
               metadata !! "date" = Some (AnyStr date)
               /\ metadata !! "time" = Some (AnyStr time)
               /\ metadata !! "sample_code"
                  = Some (AnyStr (first_segment "_" rest'))
           | None =>
               metadata !! "date" = None /\ metadata !! "time" = None
               /\ metadata !! "sample_code" = None
           end
       | None =>
           metadata !! "date" = None /\ metadata !! "time" = None
           /\ metadata !! "sample_code" = None
       end
    /\ (forall k, is_Some (metadata !! k) ->
          In k ["file_path"; "file_name"; "spectroscopy_type"; "timestamp";
                "aging_step"; "date"; "time"; "sample_code"]).
Proof.
  unfold Fluorescence.extract_metadata.
  rewrite contains_partition.
  set (base := <["aging_step" := _]> _).
  assert (Hbase : forall k, is_Some (base !! k) ->
            In k ["file_path"; "file_name"; "spectroscopy_type"; "timestamp";
                  "aging_step"]).
  { intros k. unfold base.
    rewrite !lookup_insert_is_Some', lookup_empty, <- not_eq_None_Some.
    simpl. intuition congruence. }
  assert (Hin : forall k, In k ["file_path"; "file_name"; "spectroscopy_type";
                                "timestamp"; "aging_step"] ->
                In k ["file_path"; "file_name"; "spectroscopy_type"; "timestamp";
                      "aging_step"; "date"; "time"; "sample_code"]).
  { simpl. intuition. }
  destruct (partition "_" (Pathlib.name file_path)) as [[date rest]|] eqn:E1.
  2:{ exists base. repeat split; auto. }
  unfold split. rewrite split_fuel_unfold, E1 by discriminate.
  rewrite split_fuel_unfold by discriminate.
  destruct (partition "_" rest) as [[time rest']|] eqn:E2.
  2:{ exists base. repeat split; auto. }
  destruct (split_fuel_head (String.length rest') "_" rest') as [tl ->].
  simpl. eexists. split; [reflexivity|].
  repeat split; try reflexivity.
  intros k. rewrite !lookup_insert_is_Some'.
  intros [<-|[<-|[<-|H]]]; simpl; auto 10.
  apply Hbase in H. now apply Hin.
Qed.

(** The name of the example gives a date, a time and a sample code; a
    name with one underscore gives none. *)
Example extract_metadata_example :
  (fun metadata => (metadata !! "date", metadata !! "time", metadata !! "sample_code",
                    metadata !! "aging_step"))
    <$> (match Fluorescence.extract_metadata "now" example_path with
         | Ok metadata => Some metadata
         | Raise _ => None
         end)
  = Some (Some (AnyStr "2023"), Some (AnyStr "1201"), Some (AnyStr "S1"),
          Some (AnyInt 3))
  /\ (fun metadata => (metadata !! "date", metadata !! "time", metadata !! "sample_code"))
       <$> (match Fluorescence.extract_metadata "now"
                    {| Pathlib.str := "AS1_a.csv"; Pathlib.name := "AS1_a.csv";
                       Pathlib.stem := "AS1_a" |} with
            | Ok metadata => Some metadata
            | Raise _ => None
            end)
     = Some (None, None, None).
Proof. split; vm_compute; reflexivity. Qed.

End StrategyProperties.

(** ** Validation of loaded records *)

Module ValidationProperties.
Import Py Numpy Spectrum FloatNaN NumpyProperties Samples.
Import Fluorescence.
Local Open Scope float_scope.

(** What the validation of one record prints, from its wavelength range. *)
Lemma validate_record_printed (data : SpectralData) (r : float * float) :
  wavelength_range data = Ok r ->
  validate_record data
  = Ok ((if (fst r <? 200) || (1000 <? snd r) then [WavelengthRangeWarning r]
         else [])
        ++ (if any_negative (intensities data) then [NegativeIntensitiesWarning]
            else [])
        ++ (if any_isnan (intensities data) then [NaNValuesWarning] else [])).
Proof.
  intros Hr. unfold validate_record. rewrite Hr. simpl.
  destruct (fst r <? 200); simpl; [reflexivity|].
  destruct (1000 <? snd r); reflexivity.
Qed.

Lemma absorption_validate_record_printed (data : SpectralData) (r : float * float) :
  wavelength_range data = Ok r ->
  Absorption.validate_record data
  = Ok ((if (fst r <? 100) || (1000 <? snd r) then [WavelengthRangeWarning r]
         else [])
        ++ (if any_negative (intensities data) then [NegativeIntensitiesWarning]
            else [])).
Proof.
  intros Hr. unfold Absorption.validate_record. rewrite Hr. simpl.
  destruct (fst r <? 100); simpl; [reflexivity|].
  destruct (1000 <? snd r); reflexivity.
Qed.

Lemma wavelength_range_ok (data : SpectralData) :
  wavelengths data <> [] -> exists r, wavelength_range data = Ok r.
Proof.
  intros H. destruct (amin_amax_ok _ H) as (lo & hi & Hlo & Hhi).
  exists (lo, hi). unfold wavelength_range. now rewrite Hlo, Hhi.
Qed.

(** A range with an end that compares with something holds no NaN. *)
Lemma compared_range_not_nan (a : list float) (lo hi b c : float) :
  amin a = Ok lo -> amax a = Ok hi ->
  (lo <? b) = true \/ (c <? hi) = true ->
  PrimFloat.is_nan lo = false /\ PrimFloat.is_nan hi = false.
Proof.
  intros Hlo Hhi Hout.
  assert (Hnn : ~ In nan a).
  { intros Hnan. destruct (amin_amax_nan a Hnan) as [H1 H2].
    rewrite H1 in Hlo. rewrite H2 in Hhi.
    injection Hlo as <-. injection Hhi as <-.
    destruct Hout as [H|H]; [now rewrite ltb_nan_l in H|now rewrite ltb_nan_r in H]. }
  assert (Hall : Forall (fun x => PrimFloat.is_nan x = false) a).
  { apply Forall_forall. intros x Hx.
    destruct (PrimFloat.is_nan x) eqn:E; [|reflexivity].
    apply is_nan_eq in E. subst x. now apply list_elem_of_In in Hx. }
  destruct (amin_amax_no_nan a lo hi Hall Hlo Hhi) as (H1 & H2 & _).
  rewrite Forall_forall in Hall.
  split; apply Hall; now apply list_elem_of_In.
Qed.

(** The loop prints the warnings of each record. *)
Lemma validate_records_printed (l : list SpectralData) :
  Forall (fun data => wavelengths data <> []) l ->
  exists printed,
    validate_records l = Ok printed
    /\ (forall r, In (WavelengthRangeWarning r) printed
          <-> exists data, In data l /\ wavelength_range data = Ok r
                /\ ((fst r <? 200) = true \/ (1000 <? snd r) = true))
    /\ (In NegativeIntensitiesWarning printed
          <-> exists data x, In data l /\ In x (intensities data) /\ (x <? 0) = true)
    /\ (In NaNValuesWarning printed
          <-> exists data, In data l /\ In nan (intensities data)).
Proof.
  induction 1 as [|data l Hdata Hl (printed & Hp & Hrange & Hneg & Hnan)].
  { exists []. split; [reflexivity|]. simpl. split; [|split].
    - intros r. split; [contradiction|]. intros (d & [] & _).
    - split; [contradiction|]. intros (d & x & [] & _).
    - split; [contradiction|]. intros (d & [] & _). }
  destruct (wavelength_range_ok data Hdata) as [r Hr].
  simpl validate_records. rewrite (validate_record_printed data r Hr), Hp.
  simpl bind. eexists. split; [reflexivity|].
  split; [|split].
  - intros r'. rewrite !in_app_iff, Hrange. split.
    + intros [[H|[H|H]]|(d & Hd & Hdr & Hout)].
      * destruct ((fst r <? 200) || (1000 <? snd r)) eqn:E; [|contradiction].
        destruct H as [[= <-]|[]]. exists data. split; [now left|].
        split; [exact Hr|]. now apply orb_true_iff in E.
      * destruct (any_negative _); [|contradiction].
        destruct H as [H|[]]. discriminate H.
      * destruct (any_isnan _); [|contradiction].
        destruct H as [H|[]]. discriminate H.
      * exists d. split; [now right|]. auto.
    + intros (d & [<-|Hd] & Hdr & Hout).
      * left. left. rewrite Hr in Hdr. injection Hdr as <-.
        apply orb_true_iff in Hout. rewrite Hout. now left.
      * right. exists d. auto.
  - rewrite !in_app_iff, Hneg. split.
    + intros [[H|[H|H]]|(d & x & Hd & Hx & Hlt)].
      * destruct (_ || _); [|contradiction]. destruct H as [H|[]]. discriminate H.
      * unfold any_negative in H.
        destruct (existsb _ _) eqn:E; [|contradiction].
        apply existsb_exists in E as (x & Hx & Hlt).
        exists data, x. split; [now left|]. auto.
      * destruct (any_isnan _); [|contradiction]. destruct H as [H|[]]. discriminate H.
      * exists d, x. split; [now right|]. auto.
    + intros (d & x & [<-|Hd] & Hx & Hlt).
      * left. right. left. unfold any_negative.
        replace (existsb _ _) with true; [now left|].
        symmetry. apply existsb_exists. eauto.
      * right. exists d, x. auto.
  - rewrite !in_app_iff, Hnan. split.
    + intros [[H|[H|H]]|(d & Hd & Hx)].
      * destruct (_ || _); [|contradiction]. destruct H as [H|[]]. discriminate H.
      * destruct (any_negative _); [|contradiction]. destruct H as [H|[]]. discriminate H.
      * unfold any_isnan in H.
        destruct (existsb _ _) eqn:E; [|contradiction].
        apply existsb_exists in E as (x & Hx & Hn). apply is_nan_eq in Hn. subst x.
        exists data. split; [now left|]. exact Hx.
      * exists d. split; [now right|]. exact Hx.
    + intros (d & [<-|Hd] & Hx).
      * left. right. right. unfold any_isnan.
        replace (existsb _ _) with true; [now left|].
        symmetry. apply existsb_exists. exists nan. split; [exact Hx|reflexivity].
      * right. exists d. auto.
Qed.

Lemma absorption_validate_records_ok (l : list SpectralData) :
  Forall (fun data => wavelengths data <> []) l ->
  exists printed, Absorption.validate_records l = Ok printed.
Proof.
  induction 1 as [|data l Hdata Hl (printed & Hp)]; [now exists []|].
  destruct (wavelength_range_ok data Hdata) as [r Hr].
  simpl. rewrite (absorption_validate_record_printed data r Hr), Hp.
  simpl. eauto.
Qed.

Lemma validate_data_ok (l : list SpectralData) :
  Forall (fun data => wavelengths data <> []) l -> l <> [] ->
  exists printed, validate_data l = Ok (printed, true).
Proof.
  intros Hl Hne.
  destruct (validate_records_printed l Hl) as (printed & Hp & _).
  exists printed. destruct l; [congruence|].
  unfold validate_data. now rewrite Hp.
Qed.

(** X17.  On records whose arrays are not empty, as the constructor and the
    loaders return them, the validation of both strategies never raises
    and never rejects a record for its values: it returns [False] for
    the empty list and [True] for every other list.  The fluorescence one
    prints the range warning exactly for the records whose smallest
    wavelength is below 200 or whose largest is above 1000 (so never for
    a record with a NaN wavelength), the warning on negative intensities
    exactly when an intensity is below 0, and the warning on NaN exactly
    when an intensity is a NaN. *)
Theorem validate_data_only_warns (l : list SpectralData) :
  Forall (fun data => wavelengths data <> []) l ->
  (exists printed,
     validate_data l = Ok (printed, match l with [] => false | _ :: _ => true end)
     /\ (forall r, In (WavelengthRangeWarning r) printed
           <-> exists data, In data l /\ wavelength_range data = Ok r
                 /\ ((fst r <? 200) = true \/ (1000 <? snd r) = true))
     /\ (forall r, In (WavelengthRangeWarning r) printed ->
           PrimFloat.is_nan (fst r) = false /\ PrimFloat.is_nan (snd r) = false)
     /\ (In NegativeIntensitiesWarning printed
           <-> exists data x, In data l /\ In x (intensities data) /\ (x <? 0) = true)
     /\ (In NaNValuesWarning printed
           <-> exists data, In data l /\ In nan (intensities data)))
  /\ (exists printed,
        Absorption.validate_data l
        = Ok (printed, match l with [] => false | _ :: _ => true end)).
Proof.
  intros Hl. split.
  - destruct (validate_records_printed l Hl) as (printed & Hp & Hrange & Hneg & Hnan).
    exists printed. split.
    { destruct l; [simpl in Hp; injection Hp as <-; reflexivity|].
      unfold validate_data. now rewrite Hp. }
    split; [exact Hrange|]. split; [|split; assumption].
    intros r Hr. apply Hrange in Hr as (data & Hd & Hdr & Hout).
    unfold wavelength_range in Hdr.
    destruct (amin (wavelengths data)) as [lo|] eqn:Elo; [|discriminate Hdr].
    destruct (amax (wavelengths data)) as [hi|] eqn:Ehi; [|discriminate Hdr].
    simpl in Hdr. injection Hdr as <-. simpl in *.
    exact (compared_range_not_nan _ lo hi 200 1000 Elo Ehi Hout).
  - destruct (absorption_validate_records_ok l Hl) as (printed & Hp).
    exists printed.
    destruct l; [simpl in Hp; injection Hp as <-; reflexivity|].
    unfold Absorption.validate_data. now rewrite Hp.
Qed.

Lemma validate_data_only_warns_witness :
  (exists printed, validate_data [example_spectral_data] = Ok (printed, true))
  /\ (exists printed, Absorption.validate_data [example_spectral_data] = Ok (printed, true)).
Proof.
  destruct (validate_data_only_warns [example_spectral_data]) as [H1 H2].
  { repeat constructor. discriminate. }
  split; [|exact H2].
  destruct H1 as (printed & H & _). now exists printed.
Defined.

(** A record far outside the expected range, with a negative intensity
    and a NaN, is still valid, with three warnings; a record with a NaN
    wavelength gets no range warning. *)
Example validate_data_warnings :
  validate_data
    [ {| wavelengths := [5000; 6000]; intensities := [-1; nan];
         spectroscopy_type := FLUORESCENCE; excitation_wavelength := None;
         emission_wavelength := None; measurement_conditions := None |} ]
  = Ok ([WavelengthRangeWarning (5000, 6000); NegativeIntensitiesWarning;
         NaNValuesWarning], true)
  /\ validate_data
       [ {| wavelengths := [5000; nan]; intensities := [1; 2];
            spectroscopy_type := FLUORESCENCE; excitation_wavelength := None;
            emission_wavelength := None; measurement_conditions := None |} ]
     = Ok ([], true)
  /\ validate_data [] = Ok ([], false).
Proof. repeat split. Qed.

End ValidationProperties.

(** ** The measurement of a file *)

Module CreationProperties.
Import Py Spectrum Measurement Base Samples.
Import MeasurementProperties LoaderProperties ValidationProperties.
Local Open Scope string_scope.

(** The names of the spectra tell their indices apart. *)
Lemma append_inj (p a b : string) : p ++ a = p ++ b -> a = b.
Proof.
  induction p as [|c p IH]; [exact (fun H => H)|].
  change (String c (p ++ a) = String c (p ++ b) -> a = b).
  intros [= H]. now apply IH.
Qed.

Lemma spectrum_name_inj (i j : nat) :
  "spectrum_" ++ str_of_nat i = "spectrum_" ++ str_of_nat j -> i = j.
Proof. intros H. apply append_inj in H. exact (pretty_nat_inj _ _ H). Qed.

(** The spectra that the loop builds, from the index [k] on. *)
Lemma imap_spectrum_at_lookup (p : Pathlib.Path) (md : gmap string Any)
    (l : list SpectralData) (i : nat) :
  imap (spectrum_at p md) l !! i = spectrum_at p md i <$> l !! i.
Proof. apply list_lookup_imap. Qed.

Lemma find_by_name_from (p : Pathlib.Path) (md : gmap string Any)
    (l : list SpectralData) (k i : nat) :
  List.find (fun s => String.eqb (measurement_name s)
                        ("spectrum_" ++ str_of_nat (k + i)))
    (imap (fun j => spectrum_at p md (k + j)) l)
  = imap (fun j => spectrum_at p md (k + j)) l !! i.
Proof.
  revert k i. induction l as [|sd l IH]; intros k i; [reflexivity|].
  change (imap (fun j => spectrum_at p md (k + j)) (sd :: l))
    with (spectrum_at p md (k + 0) sd
          :: imap ((fun j => spectrum_at p md (k + j)) ∘ S) l).
  rewrite (imap_ext _ (fun j => spectrum_at p md (S k + j)))
    by (intros j x _; simpl; f_equal; lia).
  cbn [List.find].
  change (measurement_name (spectrum_at p md (k + 0) sd))
    with ("spectrum_" ++ str_of_nat (k + 0)).
  destruct i as [|i].
  - now rewrite String.eqb_refl.
  - destruct (String.eqb_spec ("spectrum_" ++ str_of_nat (k + 0))
                ("spectrum_" ++ str_of_nat (k + S i))) as [E|_].
    { apply spectrum_name_inj in E. lia. }
    replace (k + S i) with (S k + i) by lia.
    change ((spectrum_at p md (k + 0) sd
             :: imap (fun j => spectrum_at p md (S k + j)) l) !! S i)
      with (imap (fun j => spectrum_at p md (S k + j)) l !! i).
    apply IH.
Qed.

Lemma find_by_name_none (p : Pathlib.Path) (md : gmap string Any)
    (l : list SpectralData) (name : string) :
  (forall i, i < List.length l -> name <> "spectrum_" ++ str_of_nat i) ->
  List.find (fun s => String.eqb (measurement_name s) name)
    (imap (spectrum_at p md) l) = None.
Proof.
  intros Hname.
  destruct (List.find _ _) as [s|] eqn:E; [|reflexivity].
  exfalso. apply find_some in E as [Hin E].
  apply list_elem_of_In, elem_of_lookup_imap_1 in Hin as (i & sd & -> & Hi).
  apply String.eqb_eq in E. simpl in E.
  apply (Hname i); [now apply lookup_lt_Some in Hi|congruence].
Qed.

Lemma imap_spectrum_at_types (p : Pathlib.Path) (md : gmap string Any)
    (t : SpectroscopyType) (l : list SpectralData) :
  Forall (fun s => Spectrum_spectroscopy_type s = t) (imap (spectrum_at p md) l)
  <-> Forall (fun sd => Spectrum.spectroscopy_type sd = t) l.
Proof.
  rewrite !Forall_lookup. split.
  - intros H i sd Hi. apply (H i (spectrum_at p md i sd)).
    now rewrite imap_spectrum_at_lookup, Hi.
  - intros H i s. rewrite imap_spectrum_at_lookup.
    destruct (l !! i) as [sd|] eqn:Hi; [|discriminate].
    intros [= <-]. exact (H i sd Hi).
Qed.

Lemma imap_not_nil {A B : Type} (f : nat -> A -> B) (l : list A) :
  imap f l <> [] <-> l <> [].
Proof. destruct l; simpl; split; congruence. Qed.

(** X18.  For any strategy, [create_measurement] returns a measurement exactly
    when the loader returns records without raising, the validation
    returns [True], the metadata are extracted without raising, there is a
    record, and every record has the type of the strategy.  The
    measurement then has the stem of the path for identifier, the aging
    step read in the name, the type of the strategy, one spectrum per
    record in the order of the records, and the metadata.  In every other
    case the result is [None]. *)
Theorem create_measurement_result (S : SpectroscopyStrategy)
    (file_path : Pathlib.Path) (m : Measurement) :
  @create_measurement S file_path = Some m
  <-> exists records md,
        @load_data S file_path = Ok records
        /\ @validate_data S records = Ok true
        /\ @extract_metadata S file_path = Ok md
        /\ records <> []
        /\ Forall (fun sd => Spectrum.spectroscopy_type sd
                             = @Base.spectroscopy_type S) records
        /\ m = {| measurement_id := Pathlib.stem file_path;
                  aging_step := _extract_aging_step (Pathlib.name file_path);
                  Measurement.spectroscopy_type := @Base.spectroscopy_type S;
                  spectra := imap (spectrum_at file_path md) records;
                  metadata := Some md;
                  Measurement.timestamp := None |}.
Proof.
  unfold create_measurement. split.
  - destruct (load_data file_path) as [records|]; simpl; [|discriminate].
    destruct (validate_data records) as [[|]|] eqn:Ev; simpl; try discriminate.
    destruct (extract_metadata file_path) as [md|]; simpl; [|discriminate].
    destruct (new_Measurement _ _ _ _ _ _) as [m'|] eqn:E; simpl; [|discriminate].
    intros [= <-]. apply new_Measurement_inv in E as (-> & Hne & Hall).
    exists records, md. repeat split; auto.
    + now apply imap_not_nil in Hne.
    + now apply imap_spectrum_at_types in Hall.
  - intros (records & md & -> & Hv & -> & Hne & Hall & ->). simpl.
    rewrite Hv. simpl.
    rewrite new_Measurement_ok; [reflexivity| |].
    + now apply imap_not_nil.
    + now apply imap_spectrum_at_types.
Qed.

(** X19.  In a measurement that [create_measurement] returned, whatever the
    strategy, the spectrum at index [i] is named ["spectrum_i"], and the
    lookup by that name returns it; the lookup by any other name returns
    nothing.  Each spectrum carries the aging step and the identifier of
    the measurement and has its type, and there is at least one. *)
Theorem created_spectra_by_name (S : SpectroscopyStrategy)
    (file_path : Pathlib.Path) (m : Measurement) :
  @create_measurement S file_path = Some m ->
  (forall i, get_spectrum_by_name m ("spectrum_" ++ str_of_nat i) = spectra m !! i)
  /\ (forall name,
        (forall i, i < spectrum_count m -> name <> "spectrum_" ++ str_of_nat i) ->
        get_spectrum_by_name m name = None)
  /\ (forall i s, spectra m !! i = Some s ->
        measurement_name s = "spectrum_" ++ str_of_nat i
        /\ Spectrum.aging_step s = Some (step_value (aging_step m))
        /\ sample_id s = Some (measurement_id m)
        /\ Spectrum_spectroscopy_type s = Measurement.spectroscopy_type m)
  /\ 1 <= spectrum_count m.
Proof.
  unfold create_measurement.
  destruct (load_data file_path) as [records|]; simpl; [|discriminate].
  destruct (validate_data records) as [[|]|]; simpl; try discriminate.
  destruct (extract_metadata file_path) as [md|]; simpl; [|discriminate].
  destruct (new_Measurement _ _ _ _ _ _) as [m'|] eqn:E; simpl; [|discriminate].
  intros [= <-]. apply new_Measurement_inv in E as (-> & Hne & Hall).
  unfold get_spectrum_by_name, spectrum_count; simpl.
  split; [|split; [|split]].
  - intros i. exact (find_by_name_from file_path md records 0 i).
  - intros name Hname. apply find_by_name_none.
    intros i Hi. apply Hname. now rewrite length_imap.
  - intros i s. rewrite imap_spectrum_at_lookup.
    destruct (records !! i) as [sd|] eqn:Hi; [|discriminate].
    intros [= <-]. repeat split.
    rewrite Forall_lookup in Hall.
    apply (Hall i). now rewrite imap_spectrum_at_lookup, Hi.
  - rewrite length_imap. apply imap_not_nil in Hne.
    destruct records; [congruence|simpl; lia].
Qed.

Lemma created_spectra_by_name_witness :
  exists m,
    @create_measurement (Fluorescence.FluorescenceStrategy example_read_csv "now")
      example_path = Some m
    /\ get_spectrum_by_name m ("spectrum_" ++ str_of_nat 0) = spectra m !! 0
    /\ 1 <= spectrum_count m.
Proof.
  destruct (@create_measurement
              (Fluorescence.FluorescenceStrategy example_read_csv "now")
              example_path) as [m|] eqn:E; [|vm_compute in E; discriminate E].
  exists m. split; [reflexivity|].
  destruct (created_spectra_by_name _ _ _ E) as (H1 & _ & _ & H4).
  split; [exact (H1 0)|exact H4].
Defined.

(** X20.  With the fluorescence strategy, [create_measurement] returns [None]
    exactly when the loader returns no record (a file that cannot be
    read, or in which no pair of columns has a record), and otherwise the
    fluorescence measurement of all the records of the loader: neither the
    validation, nor the metadata, nor the constructor of the measurement
    fails on what the loader returns. *)
Theorem create_measurement_fluorescence
    (read_csv : Pathlib.Path -> result (list Fluorescence.Series))
    (now : string) (file_path : Pathlib.Path) :
  let S := Fluorescence.FluorescenceStrategy read_csv now in
  let records := Fluorescence.load_data (read_csv file_path) in
  (records = [] -> @create_measurement S file_path = None)
  /\ (records <> [] ->
        exists md,
          Fluorescence.extract_metadata now file_path = Ok md
          /\ @create_measurement S file_path
             = Some {| measurement_id := Pathlib.stem file_path;
                       aging_step := _extract_aging_step (Pathlib.name file_path);
                       Measurement.spectroscopy_type := FLUORESCENCE;
                       spectra := imap (spectrum_at file_path md) records;
                       metadata := Some md;
                       Measurement.timestamp := None |}).
Proof.
  intros S records.
  assert (Hrec : forall sd, In sd records ->
            1 <= List.length (wavelengths sd)
            /\ Spectrum.spectroscopy_type sd = FLUORESCENCE).
  { intros sd Hin. apply load_data_record_inv in Hin. tauto. }
  assert (Hne : Forall (fun data => wavelengths data <> []) records).
  { apply Forall_forall. intros sd Hin.
    apply list_elem_of_In, Hrec in Hin as [Hpos _].
    destruct (wavelengths sd); [simpl in Hpos; lia|discriminate]. }
  unfold create_measurement. simpl. fold records.
  split.
  - intros ->. reflexivity.
  - intros Hrecords.
    destruct (StrategyProperties.extract_metadata_ok now file_path) as (md & Hmd).
    destruct (validate_data_ok records Hne Hrecords) as (printed & Hp).
    exists md. split; [exact Hmd|].
    rewrite Hp. cbn [bind snd negb]. rewrite Hmd. cbn [bind].
    rewrite new_Measurement_ok; [reflexivity|now apply imap_not_nil|].
    apply imap_spectrum_at_types. apply Forall_forall. intros x Hx.
    apply list_elem_of_In, Hrec in Hx. tauto.
Qed.

(** The measurement of the example file, and of a file that cannot be
    read. *)
Example create_measurement_example :
  (fun m => (measurement_id m, aging_step m, spectrum_count m,
             map measurement_name (spectra m)))
    <$> @create_measurement
          (Fluorescence.FluorescenceStrategy example_read_csv "now") example_path
  = Some ("2023_1201_S1_AS3", STEP_3, 1, ["spectrum_0"])
  /\ @create_measurement
       (Fluorescence.FluorescenceStrategy
          (fun _ => Raise (ValueError "no such file")) "now") example_path
     = None.
Proof. split; vm_compute; reflexivity. Qed.

End CreationProperties.

(** ** The registry of strategies *)

Module RegistryProperties.
Import Py Spectrum Factory.
Local Open Scope string_scope.

(** X21.  After the registration of a class of the package
    ([FluorescenceStrategy] or [AbsorptionStrategy]) for a type, in a
    registry of classes of the package, the factory creates an instance of
    that class for that type, and creates for every other type what it
    created before (the same instance, or the same error); a type that
    was supported stays supported. *)
Theorem register_strategy_then_create
    (registry : gmap SpectroscopyType StrategyClass)
    (t t' : SpectroscopyType) (c : StrategyClass) :
  create_strategy (register_strategy registry t c) t = Ok (instantiate c)
  /\ (t' <> t ->
        create_strategy (register_strategy registry t c) t'
        = create_strategy registry t')
  /\ (is_ok (create_strategy registry t') = true ->
        is_ok (create_strategy (register_strategy registry t c) t') = true).
Proof.
  unfold create_strategy, register_strategy.
  split; [now rewrite lookup_insert_eq|].
  split; [intros Hne; now rewrite lookup_insert_ne by congruence|].
  destruct (decide (t' = t)) as [->|Hne].
  - now rewrite lookup_insert_eq.
  - now rewrite lookup_insert_ne by congruence.
Qed.

(** The registrations of a list, made one after the other. *)
Lemma registered_keys (regs : list (SpectroscopyType * StrategyClass))
    (registry : gmap SpectroscopyType StrategyClass) (t : SpectroscopyType) :
  is_Some (registry !! t) ->
  is_Some (fold_left (fun r tc => register_strategy r (fst tc) (snd tc))
             regs registry !! t).
Proof.
  revert registry. induction regs as [|[t0 c0] regs IH]; intros registry H;
    simpl; [exact H|].
  apply IH. unfold register_strategy. apply lookup_insert_is_Some'. now right.
Qed.

(** X22.  Whatever classes of the package were registered after the start, for
    whatever types, the selection by path never raises: it returns an
    instance of the class registered last for fluorescence, unless the
    path holds ["Absorption"] and not ["Fluorescence"], in which case it
    is the class registered last for absorption. *)
Theorem create_strategy_from_file_never_raises
    (regs : list (SpectroscopyType * StrategyClass)) (file_path : string) :
  let registry :=
    fold_left (fun r tc => register_strategy r (fst tc) (snd tc)) regs _strategies in
  exists c,
    create_strategy_from_file registry file_path = Ok (instantiate c)
    /\ registry !! (if contains "Fluorescence" file_path then FLUORESCENCE
                    else if contains "Absorption" file_path then ABSORPTION
                    else FLUORESCENCE) = Some c.
Proof.
  intros registry.
  assert (HF : is_Some (registry !! FLUORESCENCE))
    by (apply registered_keys; now eexists).
  assert (HA : is_Some (registry !! ABSORPTION))
    by (apply registered_keys; now eexists).
  destruct HF as [cF HF], HA as [cA HA].
  unfold create_strategy_from_file, create_strategy.
  destruct (contains "Fluorescence" file_path);
    [|destruct (contains "Absorption" file_path)].
  - exists cF. now rewrite HF.
  - exists cA. now rewrite HA.
  - exists cF. now rewrite HF.
Qed.

(** Registering the absorption class for fluorescence changes what a
    fluorescence path selects. *)
Example registration_changes_the_selection :
  create_strategy_from_file
    (register_strategy _strategies FLUORESCENCE AbsorptionStrategy)
    "data/Fluorescence/a.csv"
  = Ok (instantiate AbsorptionStrategy).
Proof. reflexivity. Qed.

End RegistryProperties.

(** ** Rounding from below in binary64 *)

Module Binary64Floor.
Import FloatValue Binary64.
Local Open Scope Z_scope.

(** A mantissa that is the integer part of a value on a grid is not below
    a number of the format that the value is not below, when the grid is
    at least as fine as the format is at the value. *)
Lemma grid_floor_ge (q e' M : Z) (V : R) (mB : positive) (eB : Z) :
  0 <= q ->
  (V < dyadic (q + 1) e')%R ->
  (bpow (M - 1) <= V)%R ->
  e' <= fexp64 M ->
  SpecFloat.bounded prec emax mB eB = true ->
  (dyadic (Zpos mB) eB <= V)%R ->
  (dyadic (Zpos mB) eB <= dyadic q e')%R.
Proof.
  intros Hq Hup Hlo He' HB HBV.
  destruct (canonical_fexp mB eB HB) as [HcB HeB].
  destruct (Z_le_gt_dec e' eB) as [Hle|Hgt].
  - rewrite (dyadic_shift (Zpos mB) e' eB) by lia.
    apply dyadic_le_same.
    assert (Hlt : (dyadic (Zpos mB * 2 ^ (eB - e')) e' < dyadic (q + 1) e')%R).
    { rewrite <- (dyadic_shift (Zpos mB) e' eB) by lia. lra. }
    apply dyadic_lt_same in Hlt. lia.
  - assert (HM : Zpos (digits2_pos mB) + eB < M).
    { destruct (Z_lt_le_dec (Zpos (digits2_pos mB) + eB) M) as [H|H];
        [assumption|].
      apply fexp64_mono in H. lia. }
    destruct (dyadic_digits_lt mB eB) as [_ HBhi].
    assert (Hpow : (bpow (Zpos (digits2_pos mB) + eB) <= bpow (M - 1))%R)
      by (apply bpow_le; lia).
    assert (HeM : e' <= M - 1).
    { rewrite fexp64_eq in He'. pose proof (Pos2Z.is_pos (digits2_pos mB)). lia. }
    assert (Hgrid : bpow (M - 1) = dyadic (2 ^ (M - 1 - e')) e').
    { transitivity (dyadic 1 (M - 1)); [unfold dyadic; lra|].
      rewrite (dyadic_shift 1 e' (M - 1)) by lia. f_equal. lia. }
    assert (Hlt : (dyadic (2 ^ (M - 1 - e')) e' < dyadic (q + 1) e')%R)
      by (rewrite <- Hgrid; lra).
    apply dyadic_lt_same in Hlt.
    assert (Hq' : (dyadic (2 ^ (M - 1 - e')) e' <= dyadic q e')%R)
      by (apply dyadic_le_same; lia).
    rewrite <- Hgrid in Hq'. lra.
Qed.

(** Cutting a mantissa to the exponent of the format stays at or above a
    number of the format below the value. *)
Lemma shr_fexp_ge (mx ex : Z) (lx : location) (mB : positive) (eB : Z) :
  0 <= mx ->
  SpecFloat.bounded prec emax mB eB = true ->
  (dyadic (Zpos mB) eB <= dyadic mx ex)%R ->
  (dyadic (Zpos mB) eB
   <= dyadic (shr_m (fst (shr_fexp prec emax mx ex lx)))
             (snd (shr_fexp prec emax mx ex lx)))%R.
Proof.
  intros Hm HB Hle.
  pose proof (dyadic_pos (Zpos mB) eB ltac:(lia)) as HBpos.
  destruct mx as [|p|p]; [unfold dyadic in Hle at 2; lra| |lia].
  destruct (shr_fexp_spec (Zpos p) ex lx Hm) as (_ & H0 & H1).
  destruct (Z_le_gt_dec (fexp64 (Zdigits2 (Zpos p) + ex) - ex) 0) as [Hn|Hn].
  - destruct (H0 Hn) as (-> & -> & _). exact Hle.
  - destruct (H1 ltac:(lia)) as (-> & -> & _).
    set (n := fexp64 (Zdigits2 (Zpos p) + ex) - ex) in *.
    assert (Hpow : 0 < 2 ^ n) by (apply Z.pow_pos_nonneg; lia).
    apply (grid_floor_ge _ _ (Zdigits2 (Zpos p) + ex) (dyadic (Zpos p) ex));
      try assumption.
    + apply Z.div_pos; lia.
    + rewrite (dyadic_shift (Zpos p / 2 ^ n + 1) ex (ex + n)) by lia.
      apply dyadic_lt_same. replace (ex + n - ex) with n by lia.
      pose proof (Z.mul_succ_div_gt (Zpos p) (2 ^ n) Hpow). lia.
    + simpl Zdigits2. destruct (dyadic_digits_lt p ex) as [Hlo _].
      replace (Zpos (digits2_pos p) + ex - 1)
        with (Zpos (digits2_pos p) - 1 + ex) by lia.
      exact Hlo.
    + unfold n. lia.
Qed.

(** Rounding a value that is at least a number of the format gives at
    least that number (or plus infinity). *)
Lemma binary_round_aux_ge (mx ex : Z) (lx : location) (mB : positive) (eB : Z) :
  0 <= mx ->
  ex <= fexp64 (Zdigits2 mx + ex) ->
  SpecFloat.bounded prec emax mB eB = true ->
  (dyadic (Zpos mB) eB <= dyadic mx ex)%R ->
  SFleb (S754_finite false mB eB) (binary_round_aux prec emax false mx ex lx)
  = true.
Proof.
  intros Hmx Hn HB Hle.
  destruct (canonical_fexp mB eB HB) as [HcB HeB].
  pose proof (dyadic_pos (Zpos mB) eB ltac:(lia)) as HBpos.
  unfold binary_round_aux.
  pose proof (shr_fexp_spec mx ex lx Hmx) as H1.
  pose proof (shr_fexp_ge mx ex lx mB eB Hmx HB Hle) as Hval1.
  cbv zeta in H1.
  destruct (shr_fexp prec emax mx ex lx) as [mrs' e'].
  simpl fst in *; simpl snd in *.
  destruct H1 as (Hm' & H1a & H1b).
  assert (He' : e' = fexp64 (Zdigits2 mx + ex)).
  { destruct (Z_le_gt_dec (fexp64 (Zdigits2 mx + ex) - ex) 0) as [Hn0|Hn0].
    - destruct (H1a Hn0) as (-> & _). lia.
    - destruct (H1b ltac:(lia)) as (-> & _). lia. }
  assert (HeB' : eB <= e').
  { rewrite He', <- HcB. apply fexp64_mono.
    destruct mx as [|p|p]; [unfold dyadic in Hle at 2; lra| |lia].
    simpl Zdigits2. now apply mag_le. }
  set (m1 := round_nearest_even (shr_m mrs') (loc_of_shr_record mrs')).
  destruct (round_nearest_even_bounds (shr_m mrs') (loc_of_shr_record mrs'))
    as [Hm1 _]. fold m1 in Hm1.
  assert (Hm1pos : 0 <= m1) by lia.
  assert (Hval1' : (dyadic (Zpos mB) eB <= dyadic m1 e')%R).
  { assert (dyadic (shr_m mrs') e' <= dyadic m1 e')%R
      by (apply dyadic_le_same; lia). lra. }
  pose proof (shr_fexp_spec m1 e' loc_Exact Hm1pos) as H2.
  pose proof (shr_fexp_ge m1 e' loc_Exact mB eB Hm1pos HB Hval1') as Hval2.
  cbv zeta in H2.
  destruct (shr_fexp prec emax m1 e' loc_Exact) as [mrs'' e''].
  simpl fst in *; simpl snd in *.
  destruct H2 as (Hm'' & H2a & H2b).
  assert (He'' : e' <= e'').
  { destruct (Z_le_gt_dec (fexp64 (Zdigits2 m1 + e') - e') 0) as [Hn0|Hn0].
    - destruct (H2a Hn0) as (-> & _). lia.
    - destruct (H2b ltac:(lia)) as (-> & _). lia. }
  destruct (shr_m mrs'') as [|m''|m''] eqn:Em'';
    [unfold dyadic in Hval2 at 2; lra| |lia].
  destruct (e'' <=? emax - prec); [|reflexivity].
  unfold SFleb, SFcompare.
  change (PosDef.Pos.compare_cont Eq mB m'') with (Pos.compare mB m'').
  destruct (Z.compare_spec eB e'') as [Heq|Hlt'|Hgt]; [|reflexivity|lia].
  subst e''.
  assert (Hmm : Zpos mB <= Zpos m'') by (apply (dyadic_le_same _ _ eB); lra).
  destruct (Pos.compare_spec mB m''); try reflexivity. lia.
Qed.

(** Rounding a positive mantissa. *)
Lemma binary_round_ge (mx : positive) (ex : Z) (mB : positive) (eB : Z) :
  SpecFloat.bounded prec emax mB eB = true ->
  (dyadic (Zpos mB) eB <= dyadic (Zpos mx) ex)%R ->
  SFleb (S754_finite false mB eB) (binary_round prec emax false mx ex) = true.
Proof.
  intros HB Hle. unfold binary_round.
  fold (fexp64 (Zpos (digits2_pos mx) + ex)).
  destruct (shl_align_spec mx ex (fexp64 (Zpos (digits2_pos mx) + ex)))
    as [He Hv].
  destruct (shl_align mx ex (fexp64 (Zpos (digits2_pos mx) + ex))) as [mz ez].
  simpl fst in *; simpl snd in *.
  apply binary_round_aux_ge; try assumption; try lia.
  - simpl Zdigits2. rewrite (mag_eq mz mx ez ex Hv). lia.
  - now rewrite Hv.
Qed.

Lemma binary_normalize_pos_ge (m e : Z) (mB : positive) (eB : Z) :
  0 < m ->
  SpecFloat.bounded prec emax mB eB = true ->
  (dyadic (Zpos mB) eB <= dyadic m e)%R ->
  SFleb (S754_finite false mB eB) (binary_normalize prec emax m e false) = true.
Proof.
  intros Hm HB Hle. destruct m as [|p|p]; try lia. simpl binary_normalize.
  now apply binary_round_ge.
Qed.

(** A number of the format that is not above a number that is not
    negative. *)
Lemma SFleb_of_value_ge (x : spec_float) (mB : positive) (eB : Z) :
  valid_binary x = true -> nonneg_finite x ->
  SpecFloat.bounded prec emax mB eB = true ->
  (dyadic (Zpos mB) eB <= SF2R x)%R ->
  SFleb (S754_finite false mB eB) x = true.
Proof.
  intros Vx Nx HB Hle.
  apply (SFleb_SF2R (S754_finite false mB eB) x); try assumption. exact I.
Qed.

(** The sum of two numbers that are not negative is at least a number of
    the format below the sum of the values. *)
Lemma SFadd_ge (x y : spec_float) (mB : positive) (eB : Z) :
  valid_binary x = true -> valid_binary y = true ->
  nonneg_finite x -> nonneg_finite y ->
  SpecFloat.bounded prec emax mB eB = true ->
  (dyadic (Zpos mB) eB <= SF2R x + SF2R y)%R ->
  SFleb (S754_finite false mB eB) (SF64add x y) = true.
Proof.
  intros Vx Vy Nx Ny HB Hle.
  pose proof (dyadic_pos (Zpos mB) eB ltac:(lia)) as HBpos.
  destruct x as [sx|sx| |[|] mx ex]; simpl in Nx; try contradiction;
    destruct y as [sy|sy| |[|] my ey]; simpl in Ny; try contradiction.
  - simpl SF2R in Hle. lra.
  - apply SFleb_of_value_ge; try assumption; try exact I.
    simpl SF2R in *. lra.
  - apply SFleb_of_value_ge; try assumption; try exact I.
    simpl SF2R in *. lra.
  - unfold SF64add, SFadd. simpl cond_Zopp.
    apply binary_normalize_pos_ge; try assumption; [lia|].
    rewrite dyadic_add, !shl_align_min.
    rewrite (Z.min_comm ex ey), shl_align_min. exact Hle.
Qed.

(** A positive number minus a smaller number that is not negative is at
    least a number of the format below the difference of the values. *)
Lemma SFsub_ge (mc : positive) (ec : Z) (x : spec_float) (mB : positive) (eB : Z) :
  SpecFloat.bounded prec emax mc ec = true ->
  valid_binary x = true -> nonneg_finite x ->
  SpecFloat.bounded prec emax mB eB = true ->
  (dyadic (Zpos mB) eB <= dyadic (Zpos mc) ec - SF2R x)%R ->
  SFleb (S754_finite false mB eB) (SF64sub (S754_finite false mc ec) x) = true.
Proof.
  intros Hc Vx Nx HB Hle.
  pose proof (dyadic_pos (Zpos mB) eB ltac:(lia)) as HBpos.
  destruct x as [sx|sx| |[|] mx ex]; simpl in Nx; try contradiction.
  - apply SFleb_of_value_ge; try assumption; try exact I.
    simpl SF2R in *. lra.
  - unfold SF64sub, SFsub. simpl cond_Zopp. simpl SF2R in *.
    assert (Hv : dyadic (Zpos (fst (shl_align mc ec (Z.min ec ex)))
                         - Zpos (fst (shl_align mx ex (Z.min ec ex)))) (Z.min ec ex)
                 = (dyadic (Zpos mc) ec - dyadic (Zpos mx) ex)%R).
    { rewrite dyadic_sub, shl_align_min.
      rewrite (Z.min_comm ec ex), shl_align_min. reflexivity. }
    apply binary_normalize_pos_ge; try assumption; [|rewrite Hv; exact Hle].
    apply (dyadic_lt_same 0 _ (Z.min ec ex)). rewrite Hv.
    unfold dyadic at 1. lra.
Qed.

(** The quotient of the division of the mantissas is the integer part of
    the quotient of the values on its grid, which is at least as fine as
    the format is at that quotient. *)
Lemma SFdiv_core_binary_floor (mx : positive) (ex : Z) (my : positive) (ey : Z) :
  let '(q, e', l) := SFdiv_core_binary prec emax (Zpos mx) ex (Zpos my) ey in
  let M := Zpos (digits2_pos mx) + ex - (Zpos (digits2_pos my) + ey) in
  e' <= fexp64 M
  /\ (bpow (M - 1) * dyadic (Zpos my) ey <= dyadic (Zpos mx) ex)%R
  /\ (dyadic (Zpos mx) ex < dyadic (q + 1) e' * dyadic (Zpos my) ey)%R.
Proof.
  unfold SFdiv_core_binary. simpl Zdigits2.
  set (d1 := Zpos (digits2_pos mx)). set (d2 := Zpos (digits2_pos my)).
  fold (fexp64 (d1 + ex - (d2 + ey))).
  set (e' := Z.min (fexp64 (d1 + ex - (d2 + ey))) (ex - ey)).
  set (s := ex - ey - e').
  assert (Hs : 0 <= s) by (unfold s, e'; lia).
  set (m' := match s with
             | 0 => Zpos mx
             | Zpos _ => Z.shiftl (Zpos mx) s
             | Zneg _ => 0
             end).
  assert (Hm' : m' = Zpos mx * 2 ^ s).
  { unfold m'. destruct s as [|p|p] eqn:Es; [simpl; lia| |lia].
    now rewrite Z.shiftl_mul_pow2 by lia. }
  pose proof (Z_div_mod m' (Zpos my) ltac:(lia)) as Hdiv.
  destruct (Z.div_eucl m' (Zpos my)) as [q r]. destruct Hdiv as [Hqr Hr].
  assert (Hval : dyadic m' (e' + ey) = dyadic (Zpos mx) ex).
  { rewrite Hm'. rewrite (dyadic_shift (Zpos mx) (e' + ey) ex) by (unfold s in Hs; lia).
    do 2 f_equal. f_equal. unfold s. lia. }
  cbv zeta. split; [unfold e'; lia|]. split.
  - destruct (dyadic_digits_lt mx ex) as [Hlo _].
    destruct (dyadic_digits_lt my ey) as [_ Hhi].
    fold d1 in Hlo. fold d2 in Hhi.
    pose proof (bpow_gt_0 (d1 + ex - (d2 + ey) - 1)) as Hp.
    assert (Hsplit : bpow (d1 - 1 + ex)
                     = (bpow (d1 + ex - (d2 + ey) - 1) * bpow (d2 + ey))%R).
    { rewrite <- bpow_plus. f_equal. lia. }
    pose proof (dyadic_pos (Zpos my) ey ltac:(lia)) as Hc.
    assert (bpow (d1 + ex - (d2 + ey) - 1) * dyadic (Zpos my) ey
            <= bpow (d1 + ex - (d2 + ey) - 1) * bpow (d2 + ey))%R
      by (apply Rmult_le_compat_l; lra).
    lra.
  - rewrite <- Hval, <- dyadic_mul. apply dyadic_lt_same. nia.
Qed.

(** The quotient of a number that is not negative by a positive number is
    at least a number of the format whose product with the divisor is not
    above the dividend. *)
Lemma SFdiv_ge (x : spec_float) (mc : positive) (ec : Z) (mB : positive) (eB : Z) :
  valid_binary x = true -> nonneg_finite x ->
  SpecFloat.bounded prec emax mB eB = true ->
  (dyadic (Zpos mB) eB * dyadic (Zpos mc) ec <= SF2R x)%R ->
  SFleb (S754_finite false mB eB) (SF64div x (S754_finite false mc ec)) = true.
Proof.
  intros Vx Nx HB Hle.
  pose proof (dyadic_pos (Zpos mB) eB ltac:(lia)) as HBpos.
  pose proof (dyadic_pos (Zpos mc) ec ltac:(lia)) as Hcpos.
  destruct x as [sx|sx| |[|] mx ex]; simpl in Nx; try contradiction.
  - simpl SF2R in Hle. nra.
  - unfold SF64div, SFdiv. simpl xorb. simpl SF2R in Hle.
    pose proof (SFdiv_core_binary_spec mx ex mc ec) as Hcore.
    pose proof (SFdiv_core_binary_floor mx ex mc ec) as Hfloor.
    destruct (SFdiv_core_binary prec emax (Zpos mx) ex (Zpos mc) ec) as [[q e'] l].
    destruct Hcore as (Hq & Hfexp & _).
    cbv zeta in Hfloor. destruct Hfloor as (HeM & Hlo & Hup).
    apply binary_round_aux_ge; try assumption.
    set (V := (dyadic (Zpos mx) ex / dyadic (Zpos mc) ec)%R).
    assert (HV : (V * dyadic (Zpos mc) ec)%R = dyadic (Zpos mx) ex)
      by (unfold V; field; lra).
    apply (grid_floor_ge q e'
             (Zpos (digits2_pos mx) + ex - (Zpos (digits2_pos mc) + ec)) V);
      try assumption.
    + apply (Rmult_lt_reg_r (dyadic (Zpos mc) ec)); [assumption|lra].
    + apply (Rmult_le_reg_r (dyadic (Zpos mc) ec)); [assumption|lra].
    + apply (Rmult_le_reg_r (dyadic (Zpos mc) ec)); [assumption|lra].
Qed.

End Binary64Floor.

(** ** The overall score of metrics within the limits *)

Module QualityFloor.
Import Py Quality ScoringSpec FloatOrder FloatValue Binary64 Binary64Floor
  FloatRange QualityProperties QualityRange Examples Samples.

(** From a bound on the value to a comparison, and back. *)
Lemma value_leb (b x : float) (hi : R) :
  pos_finite (Prim2SF b) -> in_range x hi ->
  (SF2R (Prim2SF b) <= SF2R (Prim2SF x))%R <-> PrimFloat.leb b x = true.
Proof.
  intros Pb [Nx _]. rewrite leb_spec. symmetry.
  apply SFleb_SF2R; try apply Prim2SF_valid; try assumption.
  now apply pos_finite_nonneg.
Qed.

(** A positive number minus a number that is at most [A] is at least a
    number of the format below the difference. *)
Lemma sub_ge (c z : float) (A lo : R) :
  pos_finite (Prim2SF c) -> in_range z A -> representable lo ->
  (A < SF2R (Prim2SF c))%R ->
  (lo <= SF2R (Prim2SF c) - A)%R ->
  (lo <= SF2R (Prim2SF (c - z)))%R.
Proof.
  intros Pc Hz (m & e & Hm & <-) HA Hle.
  destruct (in_range_sub c z A Pc Hz HA) as [Nr _].
  destruct Hz as [Nz Hz].
  pose proof (Prim2SF_valid c) as Vc.
  rewrite sub_spec in Nr |- *.
  destruct (Prim2SF c) as [s|s| |[|] mc ec] eqn:Ec; simpl in Pc;
    try contradiction.
  simpl SF2R in HA, Hle.
  assert (H : SFleb (S754_finite false m e)
                (SF64sub (S754_finite false mc ec) (Prim2SF z)) = true).
  { apply SFsub_ge; try assumption; try apply Prim2SF_valid. lra. }
  apply (SFleb_SF2R (S754_finite false m e)) in H; try assumption; try exact I.
  rewrite <- Ec, <- sub_spec. apply Prim2SF_valid.
Qed.

(** The quotient by a positive number is at least a number of the format
    whose product with the divisor is not above the dividend. *)
Lemma div_ge (a c : float) (lo : R) :
  nonneg_finite (Prim2SF a) -> pos_finite (Prim2SF c) -> representable lo ->
  (lo * SF2R (Prim2SF c) <= SF2R (Prim2SF a))%R ->
  nonneg_finite (Prim2SF (a / c)) ->
  (lo <= SF2R (Prim2SF (a / c)))%R.
Proof.
  intros Na Pc (m & e & Hm & <-) Hle Nr.
  rewrite div_spec in Nr |- *.
  destruct (Prim2SF c) as [s|s| |[|] mc ec] eqn:Ec; simpl in Pc;
    try contradiction.
  simpl SF2R in Hle.
  pose proof (SFdiv_ge (Prim2SF a) mc ec m e (Prim2SF_valid a) Na Hm Hle) as H.
  apply (SFleb_SF2R (S754_finite false m e)) in H; try assumption; try exact I.
  rewrite <- Ec, <- div_spec. apply Prim2SF_valid.
Qed.

(** The multiples of 80 and of 90 by one to six are numbers of the
    format. *)
Lemma representable_eighties (k : nat) :
  (1 <= k <= 6)%nat -> representable (80 * INR k).
Proof.
  intros Hk.
  destruct k as [|[|[|[|[|[|[|k]]]]]]]; try lia; simpl INR.
  - replace (80 * 1)%R with (SF2R (Prim2SF 80));
      [apply representable_float; exact I|].
    transitivity (IZR 80); [float_value 80%float|lra].
  - replace (80 * (1 + 1))%R with (SF2R (Prim2SF 160));
      [apply representable_float; exact I|].
    transitivity (IZR 160); [float_value 160%float|lra].
  - replace (80 * (1 + 1 + 1))%R with (SF2R (Prim2SF 240));
      [apply representable_float; exact I|].
    transitivity (IZR 240); [float_value 240%float|lra].
  - replace (80 * (1 + 1 + 1 + 1))%R with (SF2R (Prim2SF 320));
      [apply representable_float; exact I|].
    transitivity (IZR 320); [float_value 320%float|lra].
  - replace (80 * (1 + 1 + 1 + 1 + 1))%R with (SF2R (Prim2SF 400));
      [apply representable_float; exact I|].
    transitivity (IZR 400); [float_value 400%float|lra].
  - replace (80 * (1 + 1 + 1 + 1 + 1 + 1))%R with (SF2R (Prim2SF 480));
      [apply representable_float; exact I|].
    transitivity (IZR 480); [float_value 480%float|lra].
Qed.

Lemma representable_nineties (k : nat) :
  (1 <= k <= 6)%nat -> representable (90 * INR k).
Proof.
  intros Hk.
  destruct k as [|[|[|[|[|[|[|k]]]]]]]; try lia; simpl INR.
  - replace (90 * 1)%R with (SF2R (Prim2SF 90));
      [apply representable_float; exact I|].
    transitivity (IZR 90); [float_value 90%float|lra].
  - replace (90 * (1 + 1))%R with (SF2R (Prim2SF 180));
      [apply representable_float; exact I|].
    transitivity (IZR 180); [float_value 180%float|lra].
  - replace (90 * (1 + 1 + 1))%R with (SF2R (Prim2SF 270));
      [apply representable_float; exact I|].
    transitivity (IZR 270); [float_value 270%float|lra].
  - replace (90 * (1 + 1 + 1 + 1))%R with (SF2R (Prim2SF 360));
      [apply representable_float; exact I|].
    transitivity (IZR 360); [float_value 360%float|lra].
  - replace (90 * (1 + 1 + 1 + 1 + 1))%R with (SF2R (Prim2SF 450));
      [apply representable_float; exact I|].
    transitivity (IZR 450); [float_value 450%float|lra].
  - replace (90 * (1 + 1 + 1 + 1 + 1 + 1))%R with (SF2R (Prim2SF 540));
      [apply representable_float; exact I|].
    transitivity (IZR 540); [float_value 540%float|lra].
Qed.

Lemma value_90 : SF2R (Prim2SF 90) = 90%R.
Proof. float_value 90%float. Qed.

Lemma value_10 : SF2R (Prim2SF 10) = 10%R.
Proof. float_value 10%float. Qed.

Lemma value_half : SF2R (Prim2SF 0.5) = (1 / 2)%R.
Proof.
  change (Prim2SF 0.5) with (S754_finite false 4503599627370496 (-53)).
  simpl SF2R. unfold dyadic.
  replace (bpow (-53)) with (/ IZR (2 ^ 53))%R.
  - change 4503599627370496%Z with (2 ^ 52)%Z.
    replace (2 ^ 53)%Z with (2 * 2 ^ 52)%Z by reflexivity.
    rewrite mult_IZR.
    assert (0 < IZR (2 ^ 52))%R by (apply IZR_lt; reflexivity).
    field. lra.
  - unfold bpow. change (-53)%Z with (- (53))%Z.
    rewrite powerRZ_neg' by lra. f_equal.
    rewrite <- (bpow_IZR 53) by lia. reflexivity.
Qed.

(** A chemical value that is not negative and at most the fraction [q] of
    the threshold has a sub-score between [100 - 20 q] and 100. *)
Lemma interpolate_floor (threshold h v : float) (q lo : R) :
  pos_finite (Prim2SF threshold) -> pos_finite (Prim2SF h) ->
  PrimFloat.leb h threshold = true ->
  (SF2R (Prim2SF h) <= q * SF2R (Prim2SF threshold))%R ->
  representable q -> representable (q * 20) -> representable lo ->
  (q <= 1)%R -> (lo <= 100 - q * 20)%R ->
  PrimFloat.leb 0 v = true -> PrimFloat.leb v h = true ->
  in_range (piecewise threshold 0 v) 100
  /\ (lo <= SF2R (Prim2SF (piecewise threshold 0 v)))%R
  /\ forall rate, piecewise threshold rate v = piecewise threshold 0 v.
Proof.
  intros Pt Ph Hht Hh Rq Rq20 Rlo Hq1 Hlo Hv Hle.
  assert (Hvt : PrimFloat.leb v threshold = true)
    by (exact (leb_trans v h threshold Hle Hht)).
  unfold piecewise. rewrite Hvt. unfold interpolate.
  assert (Hvr : in_range v (SF2R (Prim2SF h))).
  { apply leb_in_range; try assumption. now apply pos_finite_nonneg. }
  assert (H1 : in_range (v / threshold) q).
  { apply (in_range_div v threshold (SF2R (Prim2SF h)) q); assumption. }
  assert (H2 : in_range (v / threshold * 20) (q * 20)).
  { rewrite <- value_20. apply in_range_mul; [assumption|exact I|].
    now rewrite value_20. }
  split; [|split; [|reflexivity]].
  - rewrite <- value_100. apply (in_range_sub 100 _ (q * 20)); [exact I|assumption|].
    rewrite value_100. lra.
  - apply (sub_ge 100 _ (q * 20) lo); [exact I|assumption|assumption| |].
    + rewrite value_100. lra.
    + rewrite value_100. lra.
Qed.

(** Adding up to six numbers between [L] and 100 to a sum of [j] of
    them. *)
Lemma fold_add_floor (L : R) (xs : list float) (acc : float) (j : nat) :
  (forall k, (1 <= k <= 6)%nat -> representable (L * INR k)) ->
  in_range acc (100 * INR j) -> (L * INR j <= SF2R (Prim2SF acc))%R ->
  Forall (fun x => in_range x 100 /\ (L <= SF2R (Prim2SF x))%R) xs ->
  (j + List.length xs <= 6)%nat ->
  (L * INR (j + List.length xs)
   <= SF2R (Prim2SF (fold_left PrimFloat.add xs acc)))%R.
Proof.
  intros HL. revert acc j.
  induction xs as [|x xs IH]; intros acc j Hacc Hlo Hxs Hlen.
  - simpl. now rewrite Nat.add_0_r.
  - apply Forall_cons_1 in Hxs as [[Hx HxL] Hxs]. simpl in *.
    replace (j + S (List.length xs))%nat with (S j + List.length xs)%nat by lia.
    assert (Hsum : in_range (acc + x) (100 * INR (S j))).
    { rewrite S_INR.
      replace (100 * (INR j + 1))%R with (100 * INR j + 100)%R by lra.
      apply in_range_add; try assumption.
      replace (100 * INR j + 100)%R with (100 * INR (S j))%R
        by (rewrite S_INR; lra).
      apply representable_hundreds. lia. }
    apply IH; [assumption| |assumption|lia].
    destruct Hacc as [Na _], Hx as [Nx _], Hsum as [Ns _].
    destruct (HL (S j) ltac:(lia)) as (mB & eB & HB & HBv).
    rewrite <- HBv.
    assert (H : SFleb (S754_finite false mB eB)
                  (SF64add (Prim2SF acc) (Prim2SF x)) = true).
    { apply SFadd_ge; try assumption; try apply Prim2SF_valid.
      rewrite HBv, S_INR. lra. }
    rewrite add_spec in Ns |- *.
    apply (SFleb_SF2R (S754_finite false mB eB)) in H; try assumption;
      try exact I.
    rewrite <- add_spec. apply Prim2SF_valid.
Qed.

(** The mean of one to six numbers between [L] and 100 lies between [L]
    and 100. *)
Lemma mean_floor (L : R) (xs : list float) :
  (forall k, (1 <= k <= 6)%nat -> representable (L * INR k)) ->
  xs <> [] -> (List.length xs <= 6)%nat ->
  Forall (fun x => in_range x 100 /\ (L <= SF2R (Prim2SF x))%R) xs ->
  in_range (mean xs) 100 /\ (L <= SF2R (Prim2SF (mean xs)))%R.
Proof.
  intros HL Hne Hlen Hxs.
  assert (Hup : Forall (fun x => in_range x 100) xs)
    by (eapply Forall_impl; [exact Hxs|]; intros x [H _]; exact H).
  pose proof (mean_in_range xs Hup Hlen) as Hmean.
  split; [exact Hmean|].
  unfold mean in *. destruct xs as [|x xs']; [congruence|].
  set (xs := x :: xs') in *.
  assert (Hk : (1 <= List.length xs <= 6)%nat) by (unfold xs in *; simpl in *; lia).
  destruct (len_value xs Hk) as [Plen Vlen].
  assert (Hsum : in_range (sum xs) (100 * INR (List.length xs))).
  { unfold sum. apply (fold_add_in_range xs 0 0); try assumption.
    apply in_range_zero. simpl. lra. }
  assert (HsumL : (L * INR (List.length xs) <= SF2R (Prim2SF (sum xs)))%R).
  { unfold sum. apply (fold_add_floor L xs 0 0); try assumption.
    - apply in_range_zero. simpl. lra.
    - simpl. lra. }
  apply (div_ge (sum xs) (len xs) L); [now destruct Hsum|exact Plen| | |].
  - replace L with (L * INR 1)%R by (simpl; lra). apply HL. lia.
  - rewrite Vlen. exact HsumL.
  - now destruct Hmean.
Qed.

(** A number between a positive number [b] and 100. *)
Lemma sensory_floor (b v : float) :
  pos_finite (Prim2SF b) ->
  PrimFloat.leb b v = true -> PrimFloat.leb v 100 = true ->
  in_range v 100 /\ (SF2R (Prim2SF b) <= SF2R (Prim2SF v))%R.
Proof.
  intros Pb Hb H100.
  assert (H0b : PrimFloat.leb 0 b = true).
  { rewrite leb_spec. change (Prim2SF 0) with (S754_zero false).
    destruct (Prim2SF b) as [s|s| |[|] mb eb]; simpl in Pb; try contradiction.
    reflexivity. }
  assert (H0 : PrimFloat.leb 0 v = true) by (exact (leb_trans 0 b v H0b Hb)).
  assert (Hr : in_range v 100).
  { rewrite <- value_100. apply leb_in_range; try assumption. exact I. }
  split; [exact Hr|].
  apply (value_leb b v 100); assumption.
Qed.

(** The list of sub-scores has one to six items when an indicator other
    than delta_k is present. *)
Lemma sub_scores_length (m : QualityMetrics) :
  (exists i, i <> DELTA_K /\ metric m i <> None) ->
  sub_scores m <> [] /\ (List.length (sub_scores m) <= 6)%nat.
Proof.
  intros (i & Hi & Hm). unfold sub_scores, indicators.
  destruct m as [a p k2 k7 dk fl ar ts]. simpl in *. split.
  - destruct i; simpl in Hm; try (now destruct Hi);
      destruct a, p, k2, k7, dk, fl, ar; simpl; try discriminate;
      now destruct Hm.
  - destruct a, p, k2, k7, dk, fl, ar; simpl; lia.
Qed.

(** The sub-scores are all between [L] and 100 when the sub-score of each
    indicator that is present is. *)
Lemma sub_scores_floor (L : R) (m : QualityMetrics) :
  (forall i v x, metric m i = Some v -> sub_score i v = Some x ->
     in_range x 100 /\ (L <= SF2R (Prim2SF x))%R) ->
  Forall (fun x => in_range x 100 /\ (L <= SF2R (Prim2SF x))%R) (sub_scores m).
Proof.
  intros H. unfold sub_scores. apply Forall_omap_intro. intros i x Hx.
  destruct (metric m i) as [v|] eqn:Ev; [|discriminate Hx].
  exact (H i v x Ev Hx).
Qed.

(** X23.  When every chemical value that is present lies between 0 and its
    limit (0.8 for acidity, 20 for the peroxide value, 2.5 for k232 and
    0.22 for k270), every sensory score that is present lies between 80
    and 100, and some indicator other than delta_k is present, the overall
    score lies between 80 and 100 and the grade is virgin or extra virgin:
    never lampante, never refined. *)
Theorem score_within_limits (m : QualityMetrics) :
  (forall v, acidity m = Some v ->
     PrimFloat.leb 0 v = true /\ PrimFloat.leb v 0.8 = true) ->
  (forall v, peroxide_value m = Some v ->
     PrimFloat.leb 0 v = true /\ PrimFloat.leb v 20 = true) ->
  (forall v, k232 m = Some v ->
     PrimFloat.leb 0 v = true /\ PrimFloat.leb v 2.5 = true) ->
  (forall v, k270 m = Some v ->
     PrimFloat.leb 0 v = true /\ PrimFloat.leb v 0.22 = true) ->
  (forall v, flavor_score m = Some v ->
     PrimFloat.leb 80 v = true /\ PrimFloat.leb v 100 = true) ->
  (forall v, aroma_score m = Some v ->
     PrimFloat.leb 80 v = true /\ PrimFloat.leb v 100 = true) ->
  (exists i, i <> DELTA_K /\ metric m i <> None) ->
  PrimFloat.leb 80 (calculate_overall_score m) = true
  /\ PrimFloat.leb (calculate_overall_score m) 100 = true
  /\ (determine_quality_grade m = VIRGIN
      \/ determine_quality_grade m = EXTRA_VIRGIN).
Proof.
  intros Ha Hp Hk2 Hk7 Hf Har Hsome.
  assert (R1 : representable 1)
    by (rewrite <- value_1; apply representable_float; exact I).
  assert (R20 : representable (1 * 20))
    by (replace (1 * 20)%R with (SF2R (Prim2SF 20)) by (rewrite value_20; lra);
        apply representable_float; exact I).
  assert (R80 : representable 80)
    by (rewrite <- value_80; apply representable_float; exact I).
  assert (Hchem : forall threshold v, pos_finite (Prim2SF threshold) ->
            PrimFloat.leb 0 v = true /\ PrimFloat.leb v threshold = true ->
            forall rate,
              in_range (piecewise threshold rate v) 100
              /\ (80 <= SF2R (Prim2SF (piecewise threshold rate v)))%R).
  { intros threshold v Pt [H0 Ht] rate.
    assert (Htt : PrimFloat.leb threshold threshold = true).
    { rewrite leb_spec.
      destruct (Prim2SF threshold) as [s|s| |[|] mt et]; simpl in Pt;
        try contradiction.
      apply SFleb_refl_finite. }
    destruct (interpolate_floor threshold threshold v 1 80 Pt Pt Htt
                ltac:(lra) R1 R20 R80 ltac:(lra) ltac:(lra) H0 Ht)
      as (Hr & Hl & Hrate).
    rewrite (Hrate rate). auto. }
  assert (Hfloor : in_range (calculate_overall_score m) 100
                   /\ (80 <= SF2R (Prim2SF (calculate_overall_score m)))%R).
  { rewrite scores_are_sub_scores.
    destruct (sub_scores_length m Hsome) as [Hne Hlen].
    apply mean_floor; try assumption; [apply representable_eighties|].
    apply sub_scores_floor. intros i v x Ev Hx.
    destruct i; simpl in Hx, Ev; try discriminate Hx; injection Hx as <-.
    + apply Hchem; [exact I|]. exact (Ha v Ev).
    + apply Hchem; [exact I|]. exact (Hp v Ev).
    + apply Hchem; [exact I|]. exact (Hk2 v Ev).
    + apply Hchem; [exact I|]. exact (Hk7 v Ev).
    + destruct (Hf v Ev) as [H80 H100]. rewrite <- value_80.
      apply sensory_floor; [exact I|assumption|assumption].
    + destruct (Har v Ev) as [H80 H100]. rewrite <- value_80.
      apply sensory_floor; [exact I|assumption|assumption]. }
  destruct Hfloor as [Hr H80].
  assert (L80 : PrimFloat.leb 80 (calculate_overall_score m) = true).
  { apply (value_leb 80 _ 100); [exact I|exact Hr|]. now rewrite value_80. }
  split; [exact L80|].
  split.
  { apply (in_range_leb _ 100); [exact I|]. now rewrite value_100. }
  unfold determine_quality_grade, geb. rewrite L80.
  destruct (PrimFloat.leb 90 (calculate_overall_score m)); auto.
Qed.

Lemma score_within_limits_witness :
  PrimFloat.leb 80 (calculate_overall_score example_metrics) = true
  /\ PrimFloat.leb (calculate_overall_score example_metrics) 100 = true
  /\ (determine_quality_grade example_metrics = VIRGIN
      \/ determine_quality_grade example_metrics = EXTRA_VIRGIN).
Proof.
  apply score_within_limits.
  - intros v [= <-]. split; reflexivity.
  - intros v [= <-]. split; reflexivity.
  - intros v [= <-]. split; reflexivity.
  - intros v [= <-]. split; reflexivity.
  - intros v H. discriminate H.
  - intros v H. discriminate H.
  - exists ACIDITY. split; discriminate.
Defined.

(** Two numbers of one mantissa whose exponents differ by one: the first
    is half the second. *)
Lemma half_of (a b : float) :
  match Prim2SF a, Prim2SF b with
  | S754_finite false ma ea, S754_finite false mb eb => ma = mb /\ eb = (ea + 1)%Z
  | _, _ => False
  end ->
  SF2R (Prim2SF a) = (1 / 2 * SF2R (Prim2SF b))%R.
Proof.
  destruct (Prim2SF a) as [s|s| |[|] ma ea]; try contradiction.
  destruct (Prim2SF b) as [s|s| |[|] mb eb]; try contradiction.
  intros [-> ->]. simpl. unfold dyadic. rewrite bpow_plus.
  change (bpow 1) with (powerRZ 2 1). simpl powerRZ. lra.
Qed.

(** X24.  When every chemical value that is present lies between 0 and half
    its limit (0.4 for acidity, 10 for the peroxide value, 1.25 for k232
    and 0.11 for k270), every sensory score that is present lies between
    90 and 100, and some indicator other than delta_k is present, the
    overall score lies between 90 and 100 and the grade is extra
    virgin. *)
Theorem score_within_half_limits (m : QualityMetrics) :
  (forall v, acidity m = Some v ->
     PrimFloat.leb 0 v = true /\ PrimFloat.leb v 0.4 = true) ->
  (forall v, peroxide_value m = Some v ->
     PrimFloat.leb 0 v = true /\ PrimFloat.leb v 10 = true) ->
  (forall v, k232 m = Some v ->
     PrimFloat.leb 0 v = true /\ PrimFloat.leb v 1.25 = true) ->
  (forall v, k270 m = Some v ->
     PrimFloat.leb 0 v = true /\ PrimFloat.leb v 0.11 = true) ->
  (forall v, flavor_score m = Some v ->
     PrimFloat.leb 90 v = true /\ PrimFloat.leb v 100 = true) ->
  (forall v, aroma_score m = Some v ->
     PrimFloat.leb 90 v = true /\ PrimFloat.leb v 100 = true) ->
  (exists i, i <> DELTA_K /\ metric m i <> None) ->
  PrimFloat.leb 90 (calculate_overall_score m) = true
  /\ PrimFloat.leb (calculate_overall_score m) 100 = true
  /\ determine_quality_grade m = EXTRA_VIRGIN.
Proof.
  intros Ha Hp Hk2 Hk7 Hf Har Hsome.
  assert (Rq : representable (1 / 2))
    by (rewrite <- value_half; apply representable_float; exact I).
  assert (R10 : representable (1 / 2 * 20))
    by (replace (1 / 2 * 20)%R with (SF2R (Prim2SF 10)) by (rewrite value_10; lra);
        apply representable_float; exact I).
  assert (R90 : representable 90)
    by (rewrite <- value_90; apply representable_float; exact I).
  assert (Hchem : forall threshold h v,
            pos_finite (Prim2SF threshold) -> pos_finite (Prim2SF h) ->
            PrimFloat.leb h threshold = true ->
            SF2R (Prim2SF h) = (1 / 2 * SF2R (Prim2SF threshold))%R ->
            PrimFloat.leb 0 v = true /\ PrimFloat.leb v h = true ->
            forall rate,
              in_range (piecewise threshold rate v) 100
              /\ (90 <= SF2R (Prim2SF (piecewise threshold rate v)))%R).
  { intros threshold h v Pt Ph Hht Hhalf [H0 Hh] rate.
    destruct (interpolate_floor threshold h v (1 / 2) 90 Pt Ph Hht
                ltac:(lra) Rq R10 R90 ltac:(lra) ltac:(lra) H0 Hh)
      as (Hr & Hl & Hrate).
    rewrite (Hrate rate). auto. }
  assert (Hfloor : in_range (calculate_overall_score m) 100
                   /\ (90 <= SF2R (Prim2SF (calculate_overall_score m)))%R).
  { rewrite scores_are_sub_scores.
    destruct (sub_scores_length m Hsome) as [Hne Hlen].
    apply mean_floor; try assumption; [apply representable_nineties|].
    apply sub_scores_floor. intros i v x Ev Hx.
    destruct i; simpl in Hx, Ev; try discriminate Hx; injection Hx as <-.
    + apply (Hchem 0.8 0.4)%float; try exact I; try reflexivity;
        [apply half_of; vm_compute; split; reflexivity|exact (Ha v Ev)].
    + apply (Hchem 20 10)%float; try exact I; try reflexivity;
        [apply half_of; vm_compute; split; reflexivity|exact (Hp v Ev)].
    + apply (Hchem 2.5 1.25)%float; try exact I; try reflexivity;
        [apply half_of; vm_compute; split; reflexivity|exact (Hk2 v Ev)].
    + apply (Hchem 0.22 0.11)%float; try exact I; try reflexivity;
        [apply half_of; vm_compute; split; reflexivity|exact (Hk7 v Ev)].
    + destruct (Hf v Ev) as [H90 H100]. rewrite <- value_90.
      apply sensory_floor; [exact I|assumption|assumption].
    + destruct (Har v Ev) as [H90 H100]. rewrite <- value_90.
      apply sensory_floor; [exact I|assumption|assumption]. }
  destruct Hfloor as [Hr H90].
  assert (L90 : PrimFloat.leb 90 (calculate_overall_score m) = true).
  { apply (value_leb 90 _ 100); [exact I|exact Hr|]. now rewrite value_90. }
  split; [exact L90|].
  split.
  { apply (in_range_leb _ 100); [exact I|]. now rewrite value_100. }
  unfold determine_quality_grade, geb. now rewrite L90.
Qed.

Lemma score_within_half_limits_witness :
  PrimFloat.leb 90 (calculate_overall_score good_metrics) = true
  /\ PrimFloat.leb (calculate_overall_score good_metrics) 100 = true
  /\ determine_quality_grade good_metrics = EXTRA_VIRGIN.
Proof.
  apply score_within_half_limits; simpl.
  - intros v [= <-]. split; reflexivity.
  - intros v [= <-]. split; reflexivity.
  - intros v [= <-]. split; reflexivity.
  - intros v [= <-]. split; reflexivity.
  - intros v [= <-]. split; reflexivity.
  - intros v H. discriminate H.
  - exists ACIDITY. split; discriminate.
Defined.

(** The limits are sufficient, not necessary: an acidity of 1.0, above
    its limit, with three values at 0 gives the score 92.5 and the grade
    extra virgin, although its entry of the compliance is [False]. *)
Example extra_virgin_with_excess_acidity :
  calculate_overall_score excess_acidity_metrics = 92.5%float
  /\ determine_quality_grade excess_acidity_metrics = EXTRA_VIRGIN
  /\ check_compliance extra_virgin_threshold excess_acidity_metrics
       !! "acidity"%string = Some false.
Proof. repeat split; vm_compute; reflexivity. Qed.

End QualityFloor.
